(** * go-install: a shallow embedding of the installer and its properties

    The development follows the Go sources package by package:
    - [fmt], [strings], [hex] and [sha256]: the parts of the Go standard
      library the installer calls, written out so that they compute;
    - [common]: [NormalizeVersion] and [FindBuild] (the build selector);
    - [cli]: the file-level helpers ([downloadFile], [verifyChecksum],
      [setupEnvironment]), the installation pipeline ([installModel]) and
      the orchestrator ([mainModel]), both as Bubble Tea models, i.e. pure
      functions from a model and a message to a model and a command.

    A Go [error] is modelled by its message; a nil-able error is an
    [option string]. *)

From Stdlib Require Import ZArith List String Ascii Bool Lia.
From stdpp Require Import base option gmap strings.
Import ListNotations.

Open Scope string_scope.

(* String concatenation unfolds under [simpl] on a literal prefix. *)
#[local] Arguments String.append !_ _ : simpl nomatch.

(* ===================================================================== *)
(** * Go standard library: strings and fmt *)
(* ===================================================================== *)

(** A Go [error]: only its [Error()] text is observable in this program. *)
Definition error := string.

Module strings.

(** [strings.HasPrefix(s, p)]. *)
Definition HasPrefix (s p : string) : bool := String.prefix p s.

(** [strings.Contains(s, sub)]: [sub] occurs in [s] at some offset. *)
Fixpoint Contains (s sub : string) : bool :=
  String.prefix sub s ||
  match s with
  | EmptyString => false
  | String _ s' => Contains s' sub
  end.

(** ASCII lower-casing of one byte, as [strings.ToLower] and
    [strings.EqualFold] do on the hexadecimal alphabet. *)
Definition lower_byte (c : ascii) : ascii :=
  let n := nat_of_ascii c in
  if (65 <=? n)%nat && (n <=? 90)%nat then ascii_of_nat (n + 32) else c.

Fixpoint ToLower (s : string) : string :=
  match s with
  | EmptyString => EmptyString
  | String c s' => String (lower_byte c) (ToLower s')
  end.

(** [strings.EqualFold] restricted to ASCII: equality up to letter case. *)
Definition EqualFold (s t : string) : bool := String.eqb (ToLower s) (ToLower t).

(** White space as [strings.Fields] sees it on ASCII input. *)
Definition is_space (c : ascii) : bool :=
  let n := nat_of_ascii c in
  (n =? 32)%nat || ((9 <=? n)%nat && (n <=? 13)%nat).

(** [strings.Fields(s)]: the maximal runs of non-space bytes; [cur] is the
    run being read. *)
Fixpoint Fields_from (s cur : string) : list string :=
  match s with
  | EmptyString => if String.eqb cur "" then [] else [cur]
  | String c s' =>
      if is_space c then
        if String.eqb cur "" then Fields_from s' "" else cur :: Fields_from s' ""
      else Fields_from s' (cur ++ String c "")
  end.

Definition Fields (s : string) : list string := Fields_from s "".

(** [strings.Join(elems, sep)]. *)
Fixpoint Join (elems : list string) (sep : string) : string :=
  match elems with
  | [] => ""
  | [e] => e
  | e :: rest => e ++ sep ++ Join rest sep
  end.

End strings.

Module fmt.

(** What [fmt] prints for operands that a format does not consume:
    [%!(EXTRA string=a, string=b)]. All operands in this program are
    strings or errors printed through their text. *)
Fixpoint extra_operands (args : list string) : string :=
  match args with
  | [] => ""
  | [a] => "string=" ++ a
  | a :: rest => "string=" ++ a ++ ", " ++ extra_operands rest
  end.

(** [fmt.Sprintf] for the verbs the installer uses ([%s], [%v], [%w] and
    the literal [%%]). A verb without an operand prints [%!s(MISSING)];
    any other verb applied to a string prints the bad-verb form. *)
Fixpoint Sprintf (format : string) (args : list string) : string :=
  match format with
  | EmptyString =>
      match args with
      | [] => ""
      | _ => "%!(EXTRA " ++ extra_operands args ++ ")"
      end
  | String "%" EmptyString => "%!(NOVERB)"
  | String "%" (String v rest) =>
      if Ascii.eqb v "%" then String "%" (Sprintf rest args)
      else
        match args with
        | [] => "%!" ++ String v "(MISSING)" ++ Sprintf rest []
        | a :: args' =>
            if Ascii.eqb v "s" || Ascii.eqb v "v" || Ascii.eqb v "w"
            then a ++ Sprintf rest args'
            else "%!" ++ String v ("(string=" ++ a ++ ")") ++ Sprintf rest args'
        end
  | String c rest => String c (Sprintf rest args)
  end.

(** [fmt.Errorf]: an error whose text is the formatted string. *)
Definition Errorf (format : string) (args : list string) : error :=
  Sprintf format args.

End fmt.

(* ===================================================================== *)
(** * Package common *)
(* ===================================================================== *)

Module common.

(** One entry of [GoRelease.Files]. *)
Record GoFile := mkGoFile {
  Filename : string;
  OS : string;
  Arch : string;
  Kind : string;
  Sha256 : string
}.

Record GoRelease := mkGoRelease {
  Version : string;
  Files : list GoFile
}.

(** The zero value [GoRelease{}]. *)
Definition GoRelease_zero : GoRelease := mkGoRelease "" [].

Definition NormalizeVersion (v : string) : string :=
  if String.eqb v "" then ""
  else if negb (strings.HasPrefix v "go") then "go" ++ v
  else v.

(** The test of the inner loop of [FindBuild]. *)
Definition is_archive_for (goos arch : string) (f : GoFile) : bool :=
  String.eqb (Kind f) "archive" && String.eqb (OS f) goos && String.eqb (Arch f) arch.

(** The inner loop of [FindBuild]: the first file that passes the test. *)
Fixpoint first_archive (files : list GoFile) (goos arch : string) : option GoFile :=
  match files with
  | [] => None
  | f :: rest => if is_archive_for goos arch f then Some f else first_archive rest goos arch
  end.

Definition err_not_found (ver : string) : error :=
  fmt.Errorf "version %s not found" [ver].

Definition err_no_archive (ver goos arch : string) : error :=
  fmt.Errorf "version %s exists but no archive for %s/%s" [ver; goos; arch].

(** [FindBuild]: the four results are the release, the file name, the
    digest and the error. *)
Fixpoint FindBuild (all : list GoRelease) (ver goos arch : string)
  : GoRelease * string * string * option error :=
  match all with
  | [] => (GoRelease_zero, "", "", Some (err_not_found ver))
  | r :: rest =>
      if negb (String.eqb (Version r) ver) then FindBuild rest ver goos arch
      else
        match first_archive (Files r) goos arch with
        | Some f => (r, Filename f, Sha256 f, None)
        | None => (r, "", "", Some (err_no_archive ver goos arch))
        end
  end.

End common.

(* ===================================================================== *)
(** * Go standard library: crypto/sha256 and encoding/hex *)
(* ===================================================================== *)

Module sha256.

Local Open Scope Z_scope.

(** 32-bit words are integers with the wrap-around written out. *)
Definition w32 (x : Z) : Z := x mod 2 ^ 32.

Definition add32 (x y : Z) : Z := w32 (x + y).

Definition rotr (n x : Z) : Z :=
  Z.lor (Z.shiftr x n) (w32 (Z.shiftl x (32 - n))).

Definition not32 (x : Z) : Z := Z.lxor x 4294967295.

Definition Ch (x y z : Z) : Z := Z.lxor (Z.land x y) (Z.land (not32 x) z).

Definition Maj (x y z : Z) : Z :=
  Z.lxor (Z.lxor (Z.land x y) (Z.land x z)) (Z.land y z).

Definition bsig0 (x : Z) : Z := Z.lxor (Z.lxor (rotr 2 x) (rotr 13 x)) (rotr 22 x).
Definition bsig1 (x : Z) : Z := Z.lxor (Z.lxor (rotr 6 x) (rotr 11 x)) (rotr 25 x).
Definition ssig0 (x : Z) : Z := Z.lxor (Z.lxor (rotr 7 x) (rotr 18 x)) (Z.shiftr x 3).
Definition ssig1 (x : Z) : Z := Z.lxor (Z.lxor (rotr 17 x) (rotr 19 x)) (Z.shiftr x 10).

(** The first sixty-four primes. *)
Definition primes : list Z := [
  2; 3; 5; 7; 11; 13; 17; 19; 23; 29; 31; 37; 41; 43; 47; 53;
  59; 61; 67; 71; 73; 79; 83; 89; 97; 101; 103; 107; 109; 113; 127; 131;
  137; 139; 149; 151; 157; 163; 167; 173; 179; 181; 191; 193; 197; 199; 211; 223;
  227; 229; 233; 239; 241; 251; 257; 263; 269; 271; 277; 281; 283; 293; 307; 311 ].

(** The integer cube root of [n], built bit by bit from bit [bits - 1]
    down. *)
Fixpoint cube_root (bits : nat) (n r : Z) : Z :=
  match bits with
  | O => r
  | S bits' =>
      let r' := r + 2 ^ Z.of_nat bits' in
      cube_root bits' n (if r' * r' * r' <=? n then r' else r)
  end.

(** The round constants: the first thirty-two bits of the fractional parts
    of the cube roots of the primes. *)
Definition K : list Z :=
  Eval vm_compute in map (fun p => w32 (cube_root 40 (p * 2 ^ 96) 0)) primes.

(** The initial hash value: the first thirty-two bits of the fractional
    parts of the square roots of the first eight primes. *)
Definition H0 : list Z :=
  Eval vm_compute in map (fun p => w32 (Z.sqrt (p * 2 ^ 64))) (firstn 8 primes).

(** Big-endian bytes of a word of [n] bytes, and back. *)
Fixpoint be_bytes (n : nat) (x : Z) : list Z :=
  match n with
  | O => []
  | S n' => (Z.shiftr x (8 * Z.of_nat n')) mod 256 :: be_bytes n' x
  end.

Definition be_word (bs : list Z) : Z :=
  fold_left (fun acc b => acc * 256 + b) bs 0.

(** Padding: the byte 0x80, zero bytes up to 56 modulo 64, then the bit
    length on eight bytes. *)
Definition pad (msg : list Z) : list Z :=
  let len := Z.of_nat (List.length msg) in
  let zeros := Z.to_nat ((55 - len) mod 64) in
  msg ++ [128] ++ repeat 0 zeros ++ be_bytes 8 (8 * len).

(** The words of a list of bytes, four bytes each. *)
Fixpoint words (fuel : nat) (bs : list Z) : list Z :=
  match fuel, bs with
  | S fuel', b0 :: b1 :: b2 :: b3 :: rest => be_word [b0; b1; b2; b3] :: words fuel' rest
  | _, _ => []
  end.

(** The message schedule, kept most recent word first. *)
Fixpoint schedule (n : nat) (rev_w : list Z) : list Z :=
  match n with
  | O => rev_w
  | S n' =>
      let w := add32 (add32 (ssig1 (nth 1 rev_w 0)) (nth 6 rev_w 0))
                     (add32 (ssig0 (nth 14 rev_w 0)) (nth 15 rev_w 0)) in
      schedule n' (w :: rev_w)
  end.

Record regs := mkRegs { ra : Z; rb : Z; rc : Z; rd : Z; re : Z; rf : Z; rg : Z; rh : Z }.

Definition round (s : regs) (kw : Z * Z) : regs :=
  let t1 := add32 (add32 (add32 (rh s) (bsig1 (re s))) (add32 (Ch (re s) (rf s) (rg s)) (fst kw))) (snd kw) in
  let t2 := add32 (bsig0 (ra s)) (Maj (ra s) (rb s) (rc s)) in
  mkRegs (add32 t1 t2) (ra s) (rb s) (rc s) (add32 (rd s) t1) (re s) (rf s) (rg s).

Definition regs_of (h : list Z) : regs :=
  mkRegs (nth 0 h 0) (nth 1 h 0) (nth 2 h 0) (nth 3 h 0)
         (nth 4 h 0) (nth 5 h 0) (nth 6 h 0) (nth 7 h 0).

Definition list_of (s : regs) : list Z :=
  [ra s; rb s; rc s; rd s; re s; rf s; rg s; rh s].

(** One 64-byte block. *)
Definition block (h : list Z) (blk : list Z) : list Z :=
  let w := rev (schedule 48 (rev (words 16 blk))) in
  let s := fold_left round (combine K w) (regs_of h) in
  map (fun p => add32 (fst p) (snd p)) (combine h (list_of s)).

Fixpoint blocks (fuel : nat) (h : list Z) (bs : list Z) : list Z :=
  match fuel, bs with
  | S fuel', _ :: _ => blocks fuel' (block h (firstn 64 bs)) (skipn 64 bs)
  | _, _ => h
  end.

(** The digest of a byte sequence: 32 bytes. *)
Definition Sum256 (msg : list Z) : list Z :=
  let p := pad msg in
  flat_map (be_bytes 4) (blocks (List.length p) H0 p).

End sha256.

Module hex.

Definition hextable : string := "0123456789abcdef".

Definition digit (n : Z) : ascii :=
  match String.get (Z.to_nat n) hextable with
  | Some c => c
  | None => "0"%char
  end.

(** [hex.EncodeToString]: two lower-case digits per byte. *)
Fixpoint EncodeToString (bs : list Z) : string :=
  match bs with
  | [] => ""
  | b :: rest => String (digit (Z.shiftr b 4)) (String (digit (Z.land b 15)) (EncodeToString rest))
  end.

End hex.

(** The bytes of a Go string or file. *)
Fixpoint bytes_of (s : string) : list Z :=
  match s with
  | EmptyString => []
  | String c s' => Z.of_nat (nat_of_ascii c) :: bytes_of s'
  end.

(* ===================================================================== *)
(** * The host: file system, network and environment *)
(* ===================================================================== *)

(** A line feed; Go writes it [\n]. *)
Definition nl : string := String "010" "".

(** A regular file: its bytes and whether it can be opened for reading
    and for writing. *)
Record file := mkFile {
  content : string;
  mode_r : bool;
  mode_w : bool
}.

Inductive node :=
| File (f : file)
| Dir.

(** The outcome of [http.Get]: a transport error, or a response with its
    status code, the bytes of the body that arrive and the error, if any,
    that ends the body early. *)
Inductive http_result :=
| HttpError (e : error)
| HttpResponse (status : Z) (body : string) (body_err : option error).

(** The host the installer runs on. Paths are absolute or relative to the
    working directory, as the program writes them. *)
Record host := mkHost {
  fs : gmap string node;
  can_create : string → bool;      (* may a missing file be created here *)
  disk_full : bool;                (* writes of new bytes fail *)
  http_get : string → http_result;
  home : option string;            (* [os.UserHomeDir] *)
  env_SHELL : string               (* [os.Getenv("SHELL")] *)
}.

Definition set_fs (h : host) (m : gmap string node) : host :=
  mkHost m (can_create h) (disk_full h) (http_get h) (home h) (env_SHELL h).

(** [os.Stat(path)] returns a nil error. *)
Definition os_Stat_ok (h : host) (path : string) : bool :=
  match fs h !! path with
  | Some _ => true
  | None => false
  end.

Definition err_not_exist (op path : string) : error :=
  op ++ " " ++ path ++ ": no such file or directory".

Definition err_permission (op path : string) : error :=
  op ++ " " ++ path ++ ": permission denied".

Definition err_is_dir (op path : string) : error :=
  op ++ " " ++ path ++ ": is a directory".

Definition err_no_space (path : string) : error :=
  "write " ++ path ++ ": no space left on device".

(** [os.Create(name)]: the file is created, or truncated when it exists. *)
Definition os_Create (h : host) (name : string) : host + error :=
  match fs h !! name with
  | Some (File f) =>
      if mode_w f then inl (set_fs h (<[name := File (mkFile "" (mode_r f) (mode_w f))]> (fs h)))
      else inr (err_permission "open" name)
  | Some Dir => inr (err_is_dir "open" name)
  | None =>
      if can_create h name then inl (set_fs h (<[name := File (mkFile "" true true)]> (fs h)))
      else inr (err_permission "open" name)
  end.

(** Opening a file for reading and reading all of it ([os.Open] followed
    by [io.Copy], or [os.ReadFile]). *)
Definition read_file (h : host) (name : string) : string + error :=
  match fs h !! name with
  | Some (File f) => if mode_r f then inl (content f) else inr (err_permission "open" name)
  | Some Dir => inr (err_is_dir "read" name)
  | None => inr (err_not_exist "open" name)
  end.

(** Writing [data] at the end of an open file. *)
Definition append_file (h : host) (name : string) (f : file) (data : string) : host :=
  set_fs h (<[name := File (mkFile (content f ++ data) (mode_r f) (mode_w f))]> (fs h)).

(** [path] is [root] or lies below it. *)
Definition under (root path : string) : bool :=
  String.eqb path root || String.prefix (root ++ "/") path.

(** [os.RemoveAll(root)] when it succeeds. *)
Definition os_RemoveAll (h : host) (root : string) : host :=
  set_fs h (filter (λ p : string * node, under root p.1 = false) (fs h)).

(* ===================================================================== *)
(** * Package cli: the steps *)
(* ===================================================================== *)

Definition downloadFile (h : host) (name : string) : host * option error :=
  match os_Create h name with
  | inr e => (h, Some e)
  | inl h1 =>
      match http_get h1 ("https://go.dev/dl/" ++ name) with
      | HttpError e => (h1, Some e)
      | HttpResponse _ body body_err =>
          (* io.Copy(out, resp.Body) *)
          if disk_full h1 && negb (String.eqb body "") then (h1, Some (err_no_space name))
          else
            match fs h1 !! name with
            | Some (File f) => (append_file h1 name f body, body_err)
            | _ => (h1, body_err)
            end
      end
  end.

Definition err_sha_mismatch (want got : string) : error :=
  fmt.Errorf "sha mismatch: want=%s got=%s" [want; got].

Definition verifyChecksum (h : host) (name want : string) : option error :=
  match read_file h name with
  | inr e => Some e
  | inl data =>
      let got := hex.EncodeToString (sha256.Sum256 (bytes_of data)) in
      if negb (String.eqb got want) then Some (err_sha_mismatch want got)
      else None
  end.

Definition goPath : string := "export PATH=$PATH:/usr/local/go/bin".
Definition goPathComment : string := "# Added by go-install".

(** The text [setupEnvironment] appends:
    [fmt.Sprintf("\n%s\n%s\n", goPathComment, goPath)]. *)
Definition path_entry : string :=
  fmt.Sprintf (nl ++ "%s" ++ nl ++ "%s" ++ nl) [goPathComment; goPath].

Definition err_no_config : error :=
  fmt.Errorf "could not find shell config file to update" [].

Section SetupEnvironment.

(** [filepath.Join], from the Go library. *)
Variable filepath_Join : string → string → string.

(** The candidate files for the user's shell. *)
Definition configFiles (homeDir shell : string) : list string :=
  if strings.Contains shell "zsh" then [filepath_Join homeDir ".zshrc"]
  else if strings.Contains shell "bash" then
    [filepath_Join homeDir ".bashrc"; filepath_Join homeDir ".bash_profile"]
  else [filepath_Join homeDir ".bashrc"].

(** The loop of [setupEnvironment] over the candidates. *)
Fixpoint setup_loop (h : host) (candidates : list string) : host * option error :=
  match candidates with
  | [] => (h, Some err_no_config)
  | configFile :: rest =>
      match fs h !! configFile with
      | None => setup_loop h rest                      (* os.IsNotExist *)
      | Some Dir => setup_loop h rest                  (* os.ReadFile fails *)
      | Some (File f) =>
          if negb (mode_r f) then setup_loop h rest    (* os.ReadFile fails *)
          else if strings.Contains (content f) "/usr/local/go/bin" then (h, None)
          else if negb (mode_w f) then setup_loop h rest   (* os.OpenFile fails *)
          else if disk_full h then setup_loop h rest       (* f.WriteString fails *)
          else (append_file h configFile f path_entry, None)
      end
  end.

Definition setupEnvironment (h : host) : host * option error :=
  match home h with
  | None => (h, Some "$HOME is not defined")
  | Some homeDir => setup_loop h (configFiles homeDir (env_SHELL h))
  end.

End SetupEnvironment.

(* ===================================================================== *)
(** * Package cli: models, messages and commands *)
(* ===================================================================== *)

Record dependency := mkDependency {
  dep_name : string;
  dep_checkCmd : string;
  dep_packageName : gmap string string;
  dep_required : bool
}.

Record distroInfo := mkDistroInfo {
  distro_name : string;
  distro_packageManager : string;
  distro_installCmd : string;
  distro_updateCmd : string
}.

(** The zero value [distroInfo{}]. *)
Definition distroInfo_zero : distroInfo := mkDistroInfo "" "" "" "".

(** [spinner.Model] of the bubbles library, reduced to its frame; the Dot
    spinner has eight frames. *)
Definition spinner_Model := nat.
Definition spinner_New : spinner_Model := 0%nat.

(** [list.Model] of the bubbles library: the items and the cursor. *)
Record item := mkItem { title : string; desc : string }.

Record list_Model := mkList {
  list_items : list item;
  list_index : nat;
  list_Title : string;
  list_showStatusBar : bool;
  list_filteringEnabled : bool
}.

(** The zero value [list.Model{}]. *)
Definition list_zero : list_Model := mkList [] 0 "" false false.

Definition list_SelectedItem (l : list_Model) : option item :=
  nth_error (list_items l) (list_index l).

Inductive installState :=
| installStateDownloading
| installStateVerifying
| installStateRemoving
| installStateExtracting
| installStateConfiguring
| installStateDone
| installStateError.

Record installModel := mkInstallModel {
  i_state : installState;
  i_spinner : spinner_Model;
  i_version : string;
  i_targetOS : string;
  i_targetArch : string;
  i_releases : list common.GoRelease;
  i_err : option error;
  i_filename : string;
  i_sha256 : string
}.

Inductive mainState :=
| mainStateCheckingDeps
| mainStateConfirmInstallDeps
| mainStateInstallingDeps
| mainStateFetching
| mainStateSelectVersion
| mainStateConfirmOverride
| mainStateInstalling
| mainStateDone
| mainStateError.

Record mainModel := mkMainModel {
  m_state : mainState;
  m_releases : list common.GoRelease;
  m_list : list_Model;
  m_spinner : spinner_Model;
  m_selectedVer : string;
  m_targetOS : string;
  m_targetArch : string;
  m_err : option error;
  m_missingDeps : list dependency;
  m_distro : distroInfo
}.

(** A [tea.Model] of this program is one of its two models. *)
Inductive Model :=
| MainM (m : mainModel)
| InstallM (m : installModel).

(** The messages ([tea.Msg]) the two [Update] functions can receive.
    [KeyMsg] carries [msg.String()]. *)
Inductive Msg :=
| KeyMsg (key : string)
| TickMsg
| QuitMsg
| OtherMsg (tag : nat)
| depsCheckMsg (missing : list dependency) (distro : distroInfo) (err : option error)
| depsInstallMsg (err : option error)
| fetchedMsg (releases : list common.GoRelease) (err : option error)
| installCompleteMsg (err : option error)
| downloadedMsg (filename sha256 : string) (err : option error)
| verifiedMsg (err : option error)
| removedMsg (err : option error)
| extractedMsg (err : option error)
| configuredMsg (err : option error).

(** The commands ([tea.Cmd]). A step command is a closure over the copy
    of the model it was made from; [tea.Batch] is only ever applied to two
    commands. *)
Inductive Cmd :=
| CmdNil
| Quit
| spinner_Tick
| Batch (c1 c2 : Cmd)
| LibCmd (tag : nat)
| checkDependencies
| installDependencies (distro : distroInfo) (deps : list dependency)
| fetchReleases
| stepDownload (m : installModel)
| stepVerify (m : installModel)
| stepRemove (m : installModel)
| stepExtract (m : installModel)
| stepConfigure (m : installModel).

(** A command returned by a widget of the library. *)
Definition lib_cmd (c : option nat) : Cmd :=
  match c with
  | Some tag => LibCmd tag
  | None => CmdNil
  end.

(** [spinner.Model.Update] on a tick: the next frame and the next tick. *)
Definition spinner_Update (s : spinner_Model) : spinner_Model * Cmd :=
  (if (S s <? 8)%nat then S s else 0%nat, spinner_Tick).

(* --------------------------------------------------------------------- *)
(** ** The installation pipeline: installModel *)
(* --------------------------------------------------------------------- *)

Definition set_i_state (m : installModel) (s : installState) : installModel :=
  mkInstallModel s (i_spinner m) (i_version m) (i_targetOS m) (i_targetArch m)
    (i_releases m) (i_err m) (i_filename m) (i_sha256 m).

Definition set_i_err (m : installModel) (e : option error) : installModel :=
  mkInstallModel (i_state m) (i_spinner m) (i_version m) (i_targetOS m) (i_targetArch m)
    (i_releases m) e (i_filename m) (i_sha256 m).

Definition set_i_spinner (m : installModel) (s : spinner_Model) : installModel :=
  mkInstallModel (i_state m) s (i_version m) (i_targetOS m) (i_targetArch m)
    (i_releases m) (i_err m) (i_filename m) (i_sha256 m).

Definition set_i_file (m : installModel) (filename sha : string) : installModel :=
  mkInstallModel (i_state m) (i_spinner m) (i_version m) (i_targetOS m) (i_targetArch m)
    (i_releases m) (i_err m) filename sha.

Definition newInstallModel (version targetOS targetArch : string)
    (releases : list common.GoRelease) : installModel :=
  mkInstallModel installStateDownloading spinner_New version targetOS targetArch
    releases None "" "".

(** The failure branch shared by the five step messages. *)
Definition install_fail (m : installModel) (e : error) : installModel * Cmd :=
  (set_i_state (set_i_err m (Some e)) installStateError, Quit).

Definition installState_eqb (a b : installState) : bool :=
  match a, b with
  | installStateDownloading, installStateDownloading
  | installStateVerifying, installStateVerifying
  | installStateRemoving, installStateRemoving
  | installStateExtracting, installStateExtracting
  | installStateConfiguring, installStateConfiguring
  | installStateDone, installStateDone
  | installStateError, installStateError => true
  | _, _ => false
  end.

Definition installModel_Update (m : installModel) (msg : Msg) : installModel * Cmd :=
  match msg with
  | KeyMsg key =>
      if String.eqb key "ctrl+c" || String.eqb key "q" then (m, Quit) else (m, CmdNil)
  | downloadedMsg filename sha (Some e) => install_fail m e
  | downloadedMsg filename sha None =>
      let m := set_i_state (set_i_file m filename sha) installStateVerifying in
      (m, stepVerify m)
  | verifiedMsg (Some e) => install_fail m e
  | verifiedMsg None =>
      let m := set_i_state m installStateRemoving in (m, stepRemove m)
  | removedMsg (Some e) => install_fail m e
  | removedMsg None =>
      let m := set_i_state m installStateExtracting in (m, stepExtract m)
  | extractedMsg (Some e) => install_fail m e
  | extractedMsg None =>
      let m := set_i_state m installStateConfiguring in (m, stepConfigure m)
  | configuredMsg (Some e) => install_fail m e
  | configuredMsg None => (set_i_state m installStateDone, Quit)
  | TickMsg =>
      if installState_eqb (i_state m) installStateDone
         || installState_eqb (i_state m) installStateError
      then (m, CmdNil)
      else let (s, cmd) := spinner_Update (i_spinner m) in (set_i_spinner m s, cmd)
  | _ => (m, CmdNil)
  end.

Definition installModel_Init (m : installModel) : Cmd :=
  Batch spinner_Tick (stepDownload m).

(** Output of a [View]: plain text, text rendered through one of the
    lipgloss styles of styles.go, and the views of the two widgets. *)
Inductive Style := TitleStyle | ErrorStyle | SuccessStyle | InfoStyle | BoldStyle | GreyStyle.

Inductive piece :=
| Text (s : string)
| Render (st : Style) (s : string)
| SpinnerView (s : spinner_Model)
| ListView (l : list_Model).

Definition getStepDescription (m : installModel) : string :=
  match i_state m with
  | installStateDownloading => "Downloading Go archive..."
  | installStateVerifying => "Verifying checksum..."
  | installStateRemoving => "Removing old installation..."
  | installStateExtracting => "Extracting archive..."
  | installStateConfiguring => "Configuring environment..."
  | _ => "Installing..."
  end.

(** How [%v] prints an error value. *)
Definition show_err (e : option error) : string :=
  match e with
  | Some s => s
  | None => "<nil>"
  end.

Definition installModel_View (m : installModel) : list piece :=
  if installState_eqb (i_state m) installStateError then
    [Render ErrorStyle (fmt.Sprintf (nl ++ "✗ Error: %v" ++ nl ++ nl) [show_err (i_err m)])]
  else if installState_eqb (i_state m) installStateDone then
    [Render SuccessStyle (fmt.Sprintf (nl ++ "✓ Successfully installed %s to /usr/local/go") []);
     Render InfoStyle (nl ++ "Please restart your terminal or run 'source' on your shell configuration file to apply the changes." ++ nl)]
  else
    [Text nl; SpinnerView (i_spinner m); Text (" " ++ getStepDescription m ++ nl)].

(* --------------------------------------------------------------------- *)
(** ** The orchestrator: mainModel *)
(* --------------------------------------------------------------------- *)

Definition set_m_state (m : mainModel) (s : mainState) : mainModel :=
  mkMainModel s (m_releases m) (m_list m) (m_spinner m) (m_selectedVer m)
    (m_targetOS m) (m_targetArch m) (m_err m) (m_missingDeps m) (m_distro m).

Definition set_m_releases (m : mainModel) (r : list common.GoRelease) : mainModel :=
  mkMainModel (m_state m) r (m_list m) (m_spinner m) (m_selectedVer m)
    (m_targetOS m) (m_targetArch m) (m_err m) (m_missingDeps m) (m_distro m).

Definition set_m_list (m : mainModel) (l : list_Model) : mainModel :=
  mkMainModel (m_state m) (m_releases m) l (m_spinner m) (m_selectedVer m)
    (m_targetOS m) (m_targetArch m) (m_err m) (m_missingDeps m) (m_distro m).

Definition set_m_spinner (m : mainModel) (s : spinner_Model) : mainModel :=
  mkMainModel (m_state m) (m_releases m) (m_list m) s (m_selectedVer m)
    (m_targetOS m) (m_targetArch m) (m_err m) (m_missingDeps m) (m_distro m).

Definition set_m_selectedVer (m : mainModel) (v : string) : mainModel :=
  mkMainModel (m_state m) (m_releases m) (m_list m) (m_spinner m) v
    (m_targetOS m) (m_targetArch m) (m_err m) (m_missingDeps m) (m_distro m).

Definition set_m_err (m : mainModel) (e : option error) : mainModel :=
  mkMainModel (m_state m) (m_releases m) (m_list m) (m_spinner m) (m_selectedVer m)
    (m_targetOS m) (m_targetArch m) e (m_missingDeps m) (m_distro m).

Definition set_m_missingDeps (m : mainModel) (d : list dependency) : mainModel :=
  mkMainModel (m_state m) (m_releases m) (m_list m) (m_spinner m) (m_selectedVer m)
    (m_targetOS m) (m_targetArch m) (m_err m) d (m_distro m).

Definition set_m_distro (m : mainModel) (d : distroInfo) : mainModel :=
  mkMainModel (m_state m) (m_releases m) (m_list m) (m_spinner m) (m_selectedVer m)
    (m_targetOS m) (m_targetArch m) (m_err m) (m_missingDeps m) d.

(** [NewMainModel(version)]; [goos] and [goarch] are [runtime.GOOS] and
    [runtime.GOARCH], which [common.GetOS] and [common.GetArch] return. *)
Definition NewMainModel (goos goarch version : string) : mainModel :=
  mkMainModel mainStateCheckingDeps [] list_zero spinner_New
    (common.NormalizeVersion version) goos goarch None [] distroInfo_zero.

Definition mainModel_Init (m : mainModel) : Cmd :=
  Batch spinner_Tick checkDependencies.

Definition mainState_eqb (a b : mainState) : bool :=
  match a, b with
  | mainStateCheckingDeps, mainStateCheckingDeps
  | mainStateConfirmInstallDeps, mainStateConfirmInstallDeps
  | mainStateInstallingDeps, mainStateInstallingDeps
  | mainStateFetching, mainStateFetching
  | mainStateSelectVersion, mainStateSelectVersion
  | mainStateConfirmOverride, mainStateConfirmOverride
  | mainStateInstalling, mainStateInstalling
  | mainStateDone, mainStateDone
  | mainStateError, mainStateError => true
  | _, _ => false
  end.

(** [msg.String()] is one of the listed keys (a [case] of a [switch]). *)
Fixpoint key_in (key : string) (keys : list string) : bool :=
  match keys with
  | [] => false
  | k :: rest => String.eqb key k || key_in key rest
  end.

(** [startInstallation]: the model the program goes on with is the
    pipeline's; the assignment to [m.state] is to a copy that is dropped. *)
Definition startInstallation (m : mainModel) : Model * Cmd :=
  let installMod :=
    newInstallModel (m_selectedVer m) (m_targetOS m) (m_targetArch m) (m_releases m) in
  (InstallM installMod, installModel_Init installMod).

(** The items of the version picker. *)
Fixpoint release_items (i : nat) (releases : list common.GoRelease) : list item :=
  match releases with
  | [] => []
  | r :: rest =>
      mkItem (common.Version r) (if (i =? 0)%nat then "Latest stable release" else "Go release")
        :: release_items (S i) rest
  end.

Definition err_deps_declined : error :=
  fmt.Errorf "dependencies are required for Go installation" [].

Section MainModel.

(** [list.Model.Update], from the bubbles library: the new list and the
    command of the library it returns, if any. *)
Variable list_Update : list_Model → Msg → list_Model * option nat.

(** The code after the [switch] of [Update]. *)
Definition main_after_switch (m : mainModel) (msg : Msg) : Model * Cmd :=
  if mainState_eqb (m_state m) mainStateSelectVersion then
    let (l, cmd) := list_Update (m_list m) msg in (MainM (set_m_list m l), lib_cmd cmd)
  else (MainM m, CmdNil).

(** The choice between asking for confirmation and starting, made where a
    version has been settled. *)
Definition confirm_or_start (h : host) (m : mainModel) : Model * Cmd :=
  if os_Stat_ok h "/usr/local/go" then (MainM (set_m_state m mainStateConfirmOverride), CmdNil)
  else startInstallation m.

(** The end of the [fetchedMsg] case: the picker over all releases. *)
Definition show_picker (m : mainModel) : Model * Cmd :=
  let l := mkList (release_items 0 (m_releases m)) 0 "Select Go Version" false true in
  (MainM (set_m_state (set_m_list m l) mainStateSelectVersion), CmdNil).

Definition mainModel_Update (h : host) (m : mainModel) (msg : Msg) : Model * Cmd :=
  match msg with
  | KeyMsg key =>
      match m_state m with
      | mainStateConfirmInstallDeps =>
          if key_in key ["y"; "Y"] then
            let m := set_m_state m mainStateInstallingDeps in
            (MainM m, Batch spinner_Tick (installDependencies (m_distro m) (m_missingDeps m)))
          else if key_in key ["n"; "N"] then
            (MainM (set_m_err (set_m_state m mainStateError) (Some err_deps_declined)), Quit)
          else if key_in key ["q"; "ctrl+c"] then (MainM m, Quit)
          else main_after_switch m msg
      | mainStateSelectVersion =>
          if key_in key ["ctrl+c"; "q"] then (MainM m, Quit)
          else if key_in key ["enter"] then
            match list_SelectedItem (m_list m) with
            | Some i => confirm_or_start h (set_m_selectedVer m (title i))
            | None => main_after_switch m msg
            end
          else main_after_switch m msg
      | mainStateConfirmOverride =>
          if key_in key ["y"; "Y"] then startInstallation m
          else if key_in key ["n"; "N"; "q"; "ctrl+c"] then (MainM m, Quit)
          else main_after_switch m msg
      | _ => main_after_switch m msg
      end
  | depsCheckMsg missing distro (Some e) =>
      (MainM (set_m_state (set_m_err m (Some e)) mainStateError), Quit)
  | depsCheckMsg missing distro None =>
      let m := set_m_distro m distro in
      if (List.length missing =? 0)%nat then
        (MainM (set_m_state m mainStateFetching), Batch spinner_Tick fetchReleases)
      else
        (MainM (set_m_state (set_m_missingDeps m missing) mainStateConfirmInstallDeps), CmdNil)
  | depsInstallMsg (Some e) =>
      (MainM (set_m_state (set_m_err m (Some e)) mainStateError), Quit)
  | depsInstallMsg None =>
      (MainM (set_m_state m mainStateFetching), Batch spinner_Tick fetchReleases)
  | fetchedMsg releases (Some e) =>
      (MainM (set_m_state (set_m_err m (Some e)) mainStateError), Quit)
  | fetchedMsg releases None =>
      let m := set_m_releases m releases in
      let build :=
        common.FindBuild (m_releases m) (m_selectedVer m) (m_targetOS m) (m_targetArch m) in
      if negb (String.eqb (m_selectedVer m) "") then
        match snd build with
        | None => confirm_or_start h m
        | Some _ => show_picker m
        end
      else show_picker m
  | installCompleteMsg (Some e) =>
      (MainM (set_m_state (set_m_err m (Some e)) mainStateError), Quit)
  | installCompleteMsg None => (MainM (set_m_state m mainStateDone), Quit)
  | TickMsg =>
      if mainState_eqb (m_state m) mainStateCheckingDeps
         || mainState_eqb (m_state m) mainStateInstallingDeps
         || mainState_eqb (m_state m) mainStateFetching
      then let (s, cmd) := spinner_Update (m_spinner m) in (MainM (set_m_spinner m s), cmd)
      else main_after_switch m msg
  | _ => main_after_switch m msg
  end.

(** [Update] of whichever model the program currently holds. *)
Definition Update (h : host) (M : Model) (msg : Msg) : Model * Cmd :=
  match M with
  | MainM m => mainModel_Update h m msg
  | InstallM m => let (m', cmd) := installModel_Update m msg in (InstallM m', cmd)
  end.

End MainModel.

(** The package names of the missing dependencies on this distribution,
    without duplicates ([packages] is a Go map used as a set; the order in
    which Go ranges over it is not specified, here it is that of
    [elements]). *)
Definition packages (distro : distroInfo) (deps : list dependency) : gset string :=
  fold_left
    (λ (acc : gset string) dep,
       match dep_packageName dep !! distro_name distro with
       | Some pkgName => fold_left (λ (a : gset string) pkg, {[pkg]} ∪ a) (strings.Fields pkgName) acc
       | None => acc
       end)
    deps ∅.

Definition pkgList (distro : distroInfo) (deps : list dependency) : list string :=
  elements (packages distro deps).

Definition dep_line (dep : dependency) : piece :=
  Text (fmt.Sprintf ("  • %s (%s)" ++ nl)
          [dep_name dep; if dep_required dep then "required" else "recommended"]).

Definition mainModel_View (m : mainModel) : list piece :=
  match m_state m with
  | mainStateCheckingDeps =>
      [Text nl; SpinnerView (m_spinner m); Text (" Checking system dependencies..." ++ nl)]
  | mainStateConfirmInstallDeps =>
      [Render TitleStyle "⚠️  Missing Dependencies"; Text (nl ++ nl);
       Text ("The following dependencies are required:" ++ nl ++ nl)]
      ++ map dep_line (m_missingDeps m)
      ++ [Text (nl ++ "Detected system: ");
          Render BoldStyle (distro_name (m_distro m));
          Text " ("; Text (distro_packageManager (m_distro m)); Text (")" ++ nl ++ nl);
          Text ("Install command:" ++ nl);
          Render GreyStyle
            (fmt.Sprintf "  %s"
               [fmt.Sprintf "sudo %s %s"
                  [distro_installCmd (m_distro m);
                   strings.Join (pkgList (m_distro m) (m_missingDeps m)) " "]]);
          Text (nl ++ nl);
          Text "Install dependencies now? (y/n): "]
  | mainStateInstallingDeps =>
      [Text nl; SpinnerView (m_spinner m); Text (" Installing dependencies..." ++ nl)]
  | mainStateFetching =>
      [Text nl; SpinnerView (m_spinner m); Text (" Fetching Go releases metadata..." ++ nl)]
  | mainStateSelectVersion => [Text nl; ListView (m_list m)]
  | mainStateConfirmOverride =>
      [Render TitleStyle "⚠️  /usr/local/go already exists. Override? (y/n): "]
  | mainStateInstalling => []
  | mainStateError =>
      [Render ErrorStyle (fmt.Sprintf (nl ++ "✗ Error: %v" ++ nl ++ nl) [show_err (m_err m)])]
  | mainStateDone =>
      [Render SuccessStyle
         (fmt.Sprintf (nl ++ "✓ Successfully installed %s to /usr/local/go" ++ nl ++ nl)
            [m_selectedVer m])]
  end.

(** [View] of whichever model the program currently holds. *)
Definition View (M : Model) : list piece :=
  match M with
  | MainM m => mainModel_View m
  | InstallM m => installModel_View m
  end.

(** The text a view puts on the screen, styles and widgets apart. *)
Definition piece_text (p : piece) : string :=
  match p with
  | Text s => s
  | Render _ s => s
  | SpinnerView _ => ""
  | ListView _ => ""
  end.

Definition view_text (v : list piece) : string :=
  fold_right (λ p acc, piece_text p ++ acc) "" v.

(* ===================================================================== *)
(** * The event loop *)
(* ===================================================================== *)

(** The commands a command is made of, [tea.Batch] and [nil] flattened. *)
Fixpoint atoms (c : Cmd) : list Cmd :=
  match c with
  | CmdNil => []
  | Batch c1 c2 => atoms c1 ++ atoms c2
  | _ => [c]
  end.

(** The units of work of the program: the commands that are not
    bookkeeping of the library (ticks, quit, widget commands). *)
Inductive work :=
| WCheckDeps | WInstallDeps | WFetch
| WDownload | WVerify | WRemove | WExtract | WConfigure.

Definition work_of (c : Cmd) : option work :=
  match c with
  | checkDependencies => Some WCheckDeps
  | installDependencies _ _ => Some WInstallDeps
  | fetchReleases => Some WFetch
  | stepDownload _ => Some WDownload
  | stepVerify _ => Some WVerify
  | stepRemove _ => Some WRemove
  | stepExtract _ => Some WExtract
  | stepConfigure _ => Some WConfigure
  | _ => None
  end.

(** The units of work among the commands [cs]. *)
Definition works (cs : list Cmd) : list work := omap work_of cs.

(** What [stepDownload] does when it runs. *)
Definition run_stepDownload (h : host) (m : installModel) : host * Msg :=
  match common.FindBuild (i_releases m) (i_version m) (i_targetOS m) (i_targetArch m) with
  | (_, _, _, Some e) => (h, downloadedMsg "" "" (Some e))
  | (_, file, sha, None) =>
      match downloadFile h file with
      | (h', Some e) => (h', downloadedMsg "" "" (Some e))
      | (h', None) => (h', downloadedMsg file sha None)
      end
  end.

(** What [stepVerify] does when it runs. *)
Definition run_stepVerify (h : host) (m : installModel) : host * Msg :=
  (h, verifiedMsg (verifyChecksum h (i_filename m) (i_sha256 m))).

(** A user event: a key, or an event of the terminal. *)
Definition user_event (msg : Msg) : Prop :=
  match msg with
  | KeyMsg _ | OtherMsg _ => True
  | _ => False
  end.

(** A state of the running program: the model held by the loop, the host,
    and the commands in flight. *)
Record config := mkConfig {
  cfg_model : Model;
  cfg_host : host;
  cfg_pending : list Cmd
}.

Section Runtime.

Variable filepath_Join : string → string → string.
Variable list_Update : list_Model → Msg → list_Model * option nat.

(** [exec h c h' msg]: running the command [c] on the host [h] leaves the
    host [h'] and sends [msg] to the loop. The package manager, the
    catalog request and the archive extraction are not modelled further
    than by the messages they end with. *)
Inductive exec : host → Cmd → host → Msg → Prop :=
| exec_Quit h : exec h Quit h QuitMsg
| exec_Tick h : exec h spinner_Tick h TickMsg
| exec_Lib h n k : exec h (LibCmd n) h (OtherMsg k)
| exec_checkDependencies h missing distro err :
    exec h checkDependencies h (depsCheckMsg missing distro err)
| exec_installDependencies h h' distro deps err :
    exec h (installDependencies distro deps) h' (depsInstallMsg err)
| exec_fetchReleases h releases err :
    exec h fetchReleases h (fetchedMsg releases err)
| exec_stepDownload h m :
    exec h (stepDownload m) (run_stepDownload h m).1 (run_stepDownload h m).2
| exec_stepVerify h m :
    exec h (stepVerify m) (run_stepVerify h m).1 (run_stepVerify h m).2
| exec_stepRemove_ok h m :
    exec h (stepRemove m) (os_RemoveAll h "/usr/local/go") (removedMsg None)
| exec_stepRemove_fail h h' m e :
    exec h (stepRemove m) h' (removedMsg (Some e))
| exec_stepExtract h h' m err :
    exec h (stepExtract m) h' (extractedMsg err)
| exec_stepConfigure h m :
    exec h (stepConfigure m) (setupEnvironment filepath_Join h).1
         (configuredMsg (setupEnvironment filepath_Join h).2).

(** One turn of the loop: a message arrives, from the user or from a
    command in flight that completes; [Update] is called on it and the
    command it returns is put in flight. The third index is that command.
    The message of [Quit] is the one message the loop does not hand to
    [Update]: it ends the loop, see [tea_ends]. *)
Inductive tea_step : config → Msg → Cmd → config → Prop :=
| step_user M h P msg M' c :
    user_event msg →
    Update list_Update h M msg = (M', c) →
    tea_step (mkConfig M h P) msg c (mkConfig M' h (P ++ atoms c))
| step_cmd M h P1 c0 P2 h' msg M' c :
    exec h c0 h' msg →
    Update list_Update h' M msg = (M', c) →
    c0 ≠ Quit →
    tea_step (mkConfig M h (P1 ++ c0 :: P2)) msg c (mkConfig M' h' (P1 ++ P2 ++ atoms c)).

(** [tea_ends c h]: the loop in [c] can end now, and leaves the host [h].
    It ends when the message of a [Quit] in flight arrives. Commands run
    beside the loop, [Quit] like any other: between the turn that issues
    it and the arrival of its message, messages that arrive first are
    still handled. *)
Inductive tea_ends : config → host → Prop :=
| ends_quit M h P1 P2 h' msg :
    exec h Quit h' msg →
    tea_ends (mkConfig M h (P1 ++ Quit :: P2)) h'.

(** [tea_run c0 evs c]: the loop started in [c0] has handled the messages
    [evs], oldest first, and is in [c]. *)
Inductive tea_run (c0 : config) : list Msg → config → Prop :=
| run_start : tea_run c0 [] c0
| run_more evs c msg cmd c' :
    tea_run c0 evs c → tea_step c msg cmd c' → tea_run c0 (evs ++ [msg]) c'.

(** The program once [Init] of its first model has been put in flight. *)
Definition start (M : Model) (h : host) : config :=
  mkConfig M h
    (atoms match M with
           | MainM m => mainModel_Init m
           | InstallM m => installModel_Init m
           end).

End Runtime.

(** Feeding a list of messages to [installModel.Update], whatever they are. *)
Fixpoint install_feed (m : installModel) (evs : list Msg) : installModel :=
  match evs with
  | [] => m
  | msg :: rest => install_feed (installModel_Update m msg).1 rest
  end.

(** The order of the pipeline. *)
Definition install_next (s : installState) : option installState :=
  match s with
  | installStateDownloading => Some installStateVerifying
  | installStateVerifying => Some installStateRemoving
  | installStateRemoving => Some installStateExtracting
  | installStateExtracting => Some installStateConfiguring
  | installStateConfiguring => Some installStateDone
  | installStateDone => None
  | installStateError => None
  end.

(** The unit of work a state of the pipeline waits for. *)
Definition install_awaits (s : installState) : list work :=
  match s with
  | installStateDownloading => [WDownload]
  | installStateVerifying => [WVerify]
  | installStateRemoving => [WRemove]
  | installStateExtracting => [WExtract]
  | installStateConfiguring => [WConfigure]
  | installStateDone => []
  | installStateError => []
  end.

(** The unit of work a state of the orchestrator waits for. *)
Definition main_awaits (s : mainState) : list work :=
  match s with
  | mainStateCheckingDeps => [WCheckDeps]
  | mainStateInstallingDeps => [WInstallDeps]
  | mainStateFetching => [WFetch]
  | _ => []
  end.

Definition awaits (M : Model) : list work :=
  match M with
  | MainM m => main_awaits (m_state m)
  | InstallM m => install_awaits (i_state m)
  end.

(* ===================================================================== *)
(** * Definitions used by the statements: predicates and example data *)
(* ===================================================================== *)

(** A catalog with two releases; the older one has no Linux archive. *)
Definition catalog_example : list common.GoRelease :=
  [ common.mkGoRelease "go1.22.1"
      [ common.mkGoFile "go1.22.1.src.tar.gz" "" "" "source" "s1";
        common.mkGoFile "go1.22.1.linux-amd64.msi" "linux" "amd64" "installer" "s2";
        common.mkGoFile "go1.22.1.linux-amd64.tar.gz" "linux" "amd64" "archive"
          "ba7816bf8f01cfea414140de5dae2223b00361a396177a9cb410ff61f20015ad";
        common.mkGoFile "go1.22.1.linux-amd64.second.tar.gz" "linux" "amd64" "archive" "s4" ];
    common.mkGoRelease "go1.21.0"
      [ common.mkGoFile "go1.21.0.windows-amd64.zip" "windows" "amd64" "archive" "s5" ] ].

(** The digest [verifyChecksum] computes for a file with bytes [data]. *)
Definition digest_of (data : string) : string :=
  hex.EncodeToString (sha256.Sum256 (bytes_of data)).

(** A host whose working directory holds one downloaded file, with the
    bytes [abc]. *)
Definition host_abc : host :=
  mkHost {[ "go1.22.1.linux-amd64.tar.gz" := File (mkFile "abc" true true) ]}
    (λ _, true) false (λ _, HttpError "no network") (Some "/root") "/bin/bash".

Definition digest_abc : string :=
  "ba7816bf8f01cfea414140de5dae2223b00361a396177a9cb410ff61f20015ad".

Definition digest_abc_upper : string :=
  "BA7816BF8F01CFEA414140DE5DAE2223B00361A396177A9CB410FF61F20015AD".

(** A host on which the archive server answers 404 to every request. *)
Definition host_404 : host :=
  mkHost ∅ (λ _, true) false (λ _, HttpResponse 404 "404 page not found" None)
    (Some "/root") "/bin/bash".

(** The directory the PATH entry names; [setupEnvironment] looks for it in
    the candidate file. *)
Definition go_bin : string := "/usr/local/go/bin".

(** The loop of [setupEnvironment] passes over the candidate [c]: it is
    missing or cannot be read, or it lacks the entry and cannot be
    written. *)
Definition passes_over (h : host) (c : string) : bool :=
  match fs h !! c with
  | None => true
  | Some Dir => true
  | Some (File f) =>
      negb (mode_r f)
      || (negb (strings.Contains (content f) go_bin) && (negb (mode_w f) || disk_full h))
  end.

(** [filepath.Join] on a clean directory and a file name. *)
Definition join_clean (dir name : string) : string := dir ++ "/" ++ name.

(** A bash user's home with no [.bashrc] and a [.bash_profile] that has
    no PATH entry yet. *)
Definition host_bash : host :=
  mkHost {[ "/root/.bash_profile" := File (mkFile "alias ll='ls -l'" true true) ]}
    (λ _, true) false (λ _, HttpError "no network") (Some "/root") "/bin/bash".

(** The unit of work a message reports the completion of. *)
Definition msg_work (msg : Msg) : option work :=
  match msg with
  | depsCheckMsg _ _ _ => Some WCheckDeps
  | depsInstallMsg _ => Some WInstallDeps
  | fetchedMsg _ _ => Some WFetch
  | downloadedMsg _ _ _ => Some WDownload
  | verifiedMsg _ => Some WVerify
  | removedMsg _ => Some WRemove
  | extractedMsg _ => Some WExtract
  | configuredMsg _ => Some WConfigure
  | _ => None
  end.

(** The messages of the library's own commands. *)
Definition quiet (msg : Msg) : bool :=
  match msg with
  | TickMsg | QuitMsg | OtherMsg _ => true
  | _ => false
  end.

(** [msg] reports that the work of the pipeline state [s] succeeded. *)
Definition completes (s : installState) (msg : Msg) : Prop :=
  match s, msg with
  | installStateDownloading, downloadedMsg _ _ None => True
  | installStateVerifying, verifiedMsg None => True
  | installStateRemoving, removedMsg None => True
  | installStateExtracting, extractedMsg None => True
  | installStateConfiguring, configuredMsg None => True
  | _, _ => False
  end.

(** One turn of the pipeline seen from outside: on a message that reports
    no work the state stays and no work is issued; on the report that its
    own work succeeded the state moves to the next one and exactly the work
    of that state is issued; on the report that its own work failed the
    pipeline goes to the error state. *)
Definition linear_turn (s s' : installState) (msg : Msg) (cmd : Cmd) : Prop :=
  (s' = s ∧ msg_work msg = None ∧ works (atoms cmd) = [])
  ∨ (install_next s = Some s' ∧ completes s msg ∧ works (atoms cmd) = install_awaits s')
  ∨ (s' = installStateError
     ∧ (∃ w, msg_work msg = Some w ∧ install_awaits s = [w])
     ∧ works (atoms cmd) = []).

(** The pipeline is past verification, past removal. *)
Definition after_verify (s : installState) : bool :=
  match s with
  | installStateRemoving | installStateExtracting
  | installStateConfiguring | installStateDone => true
  | _ => false
  end.

Definition after_remove (s : installState) : bool :=
  match s with
  | installStateExtracting | installStateConfiguring | installStateDone => true
  | _ => false
  end.

(** What holds of the loop all along a run of the pipeline. *)
Definition pipeline_inv (evs : list Msg) (cfg : config) : Prop :=
  ∃ m, cfg_model cfg = InstallM m
       ∧ works (cfg_pending cfg) = install_awaits (i_state m)
       ∧ (after_verify (i_state m) = true → In (verifiedMsg None) evs)
       ∧ (after_remove (i_state m) = true → In (removedMsg None) evs).

(** A list widget that ignores every message. *)
Definition list_Update_still (l : list_Model) (msg : Msg) : list_Model * option nat :=
  (l, None).

(** A host with an earlier installation, on which the archive server
    answers with the three bytes [abc]. *)
Definition host_dl : host :=
  mkHost {[ "/usr/local/go" := Dir;
            "/usr/local/go/VERSION" := File (mkFile "go1.20" true true) ]}
    (λ _, true) false (λ _, HttpResponse 200 "abc" None) (Some "/root") "/bin/bash".

(** The pipeline as the orchestrator creates it for [go1.22.1]. *)
Definition pipeline_example : installModel :=
  newInstallModel "go1.22.1" "linux" "amd64" catalog_example.

Definition archive_example : string := "go1.22.1.linux-amd64.tar.gz".

(** What the error view of either model prints for the error [e]. *)
Definition error_view (e : error) : list piece :=
  [Render ErrorStyle (nl ++ "✗ Error: " ++ e ++ nl ++ nl)].

(** The text of the Done view of the pipeline. *)
Definition done_text : string :=
  nl ++ "✓ Successfully installed %!s(MISSING) to /usr/local/go".

(** The error the orchestrator ends with when the installation of the
    missing dependencies is declined. *)
Definition declined (m : mainModel) : mainModel :=
  set_m_err (set_m_state m mainStateError)
    (Some "dependencies are required for Go installation").

(** The orchestrator waiting for the catalog, with the version given on
    the command line. *)
Definition fetching (version : string) : mainModel :=
  set_m_state (NewMainModel "linux" "amd64" version) mainStateFetching.

(** The orchestrator asking whether to overwrite the install root. *)
Definition confirming_example : mainModel :=
  set_m_state (set_m_releases (fetching "1.22.1") catalog_example) mainStateConfirmOverride.

(** Git, the one dependency of the table that is only recommended. *)
Definition dep_git : dependency :=
  mkDependency "Git" "git --version"
    {[ "debian" := "git"; "ubuntu" := "git"; "fedora" := "git";
       "rhel" := "git"; "arch" := "git"; "alpine" := "git" ]}
    false.

Definition distro_debian : distroInfo :=
  mkDistroInfo "debian" "apt-get" "apt-get install -y" "apt-get update".

(** The orchestrator asking whether to install Git. *)
Definition asking_example : mainModel :=
  set_m_state
    (set_m_missingDeps (set_m_distro (NewMainModel "linux" "amd64" "1.22.1") distro_debian)
       [dep_git])
    mainStateConfirmInstallDeps.

(** The user has answered yes: the key [y] or [Y] is among the messages
    handled. *)
Definition said_yes (evs : list Msg) : Prop :=
  In (KeyMsg "y") evs ∨ In (KeyMsg "Y") evs.

(** The orchestrator of a session on Debian in which nothing was missing
    and the catalog has been fetched, asking whether to overwrite the
    install root. *)
Definition confirming_session : mainModel :=
  set_m_distro confirming_example distro_debian.

(** The loop of that session when the question is asked, after the answer
    [n], and after a [y] that follows the [n]. *)
Definition config_confirming : config :=
  mkConfig (MainM confirming_session) host_dl [spinner_Tick; spinner_Tick].

Definition config_declined : config :=
  mkConfig (MainM confirming_session) host_dl [spinner_Tick; spinner_Tick; Quit].

Definition config_restarted : config :=
  mkConfig (InstallM pipeline_example) host_dl
    [spinner_Tick; spinner_Tick; Quit; spinner_Tick; stepDownload pipeline_example].

(** A bash user's home whose [.bashrc] names the bin directory of the
    toolchain in an alias and has no PATH entry. *)
Definition host_alias : host :=
  mkHost {[ "/root/.bashrc" := File (mkFile "alias gofmt=/usr/local/go/bin/gofmt" true true) ]}
    (λ _, true) false (λ _, HttpError "no network") (Some "/root") "/bin/bash".

(* ===================================================================== *)
(** * Package cli: the dependency resolver *)
(* ===================================================================== *)

(** [strings.TrimSpace] on ASCII input: white space is dropped at both
    ends. *)
Fixpoint trim_left (s : string) : string :=
  match s with
  | EmptyString => ""
  | String c s' => if strings.is_space c then trim_left s' else s
  end.

Fixpoint trim_right (s : string) : string :=
  match s with
  | EmptyString => ""
  | String c s' =>
      let t := trim_right s' in
      if String.eqb t "" && strings.is_space c then "" else String c t
  end.

Definition TrimSpace (s : string) : string := trim_right (trim_left s).

(** The table [requiredDeps]. *)
Definition requiredDeps : list dependency :=
  [ mkDependency "CA Certificates" "test -f /etc/ssl/certs/ca-certificates.crt"
      {[ "debian" := "ca-certificates"; "ubuntu" := "ca-certificates";
         "fedora" := "ca-certificates"; "rhel" := "ca-certificates";
         "arch" := "ca-certificates"; "alpine" := "ca-certificates" ]}
      true;
    mkDependency "GCC" "gcc --version"
      {[ "debian" := "build-essential"; "ubuntu" := "build-essential";
         "fedora" := "gcc gcc-c++ make"; "rhel" := "gcc gcc-c++ make";
         "arch" := "base-devel"; "alpine" := "build-base" ]}
      true;
    mkDependency "Make" "make --version"
      {[ "debian" := "build-essential"; "ubuntu" := "build-essential";
         "fedora" := "make"; "rhel" := "make";
         "arch" := "base-devel"; "alpine" := "build-base" ]}
      true;
    mkDependency "Git" "git --version"
      {[ "debian" := "git"; "ubuntu" := "git"; "fedora" := "git";
         "rhel" := "git"; "arch" := "git"; "alpine" := "git" ]}
      false ].

(** What the resolver asks of the system: which executables [exec.LookPath]
    finds, what [lsb_release -is] prints (nothing when it cannot be run),
    and whether a probe command exits with success. *)
Record system := mkSystem {
  lookPath : string → bool;
  lsb_release : string;
  probe : list string → bool
}.

Definition detectDistro (sys : system) : distroInfo :=
  if lookPath sys "apt-get" then
    let distro := strings.ToLower (TrimSpace (lsb_release sys)) in
    let distro := if String.eqb distro "" then "debian" else distro in
    mkDistroInfo distro "apt-get" "apt-get install -y" "apt-get update"
  else if lookPath sys "dnf" then
    mkDistroInfo "fedora" "dnf" "dnf install -y" "dnf check-update"
  else if lookPath sys "yum" then
    mkDistroInfo "rhel" "yum" "yum install -y" "yum check-update"
  else if lookPath sys "pacman" then
    mkDistroInfo "arch" "pacman" "pacman -S --noconfirm" "pacman -Sy"
  else if lookPath sys "apk" then
    mkDistroInfo "alpine" "apk" "apk add" "apk update"
  else mkDistroInfo "unknown" "unknown" "" "".

(** The loop of [checkDependencies]; [None] is the run-time panic of
    indexing the empty slice [parts]. *)
Fixpoint check_loop (sys : system) (deps missing : list dependency)
  : option (list dependency) :=
  match deps with
  | [] => Some missing
  | dep :: rest =>
      match strings.Fields (dep_checkCmd dep) with
      | [] => None
      | parts => check_loop sys rest (if probe sys parts then missing else missing ++ [dep])
      end
  end.

Definition err_no_package_manager : error :=
  fmt.Errorf "unable to detect package manager" [].

(** What [checkDependencies] does when it runs. *)
Definition run_checkDependencies (sys : system) : option Msg :=
  let distro := detectDistro sys in
  if String.eqb (distro_packageManager distro) "unknown" then
    Some (depsCheckMsg [] distroInfo_zero (Some err_no_package_manager))
  else
    match check_loop sys requiredDeps [] with
    | Some missing => Some (depsCheckMsg missing distro None)
    | None => None
    end.

Section InstallDependencies.

(** The state of the packages of the system, and what running a command
    does to it. *)
Variable S : Type.
Variable run_cmd : S → list string → S * option error.

(** The order in which Go ranges over the map [packages]. *)
Variable range_order : gset string → list string.

(** What the command returned by [installDependencies] does when it runs;
    [None] is the run-time panic of indexing an empty slice. *)
Definition run_installDependencies (s : S) (distro : distroInfo) (deps : list dependency)
  : option (S * Msg) :=
  let updated :=
    if negb (String.eqb (distro_updateCmd distro) "") then
      match strings.Fields (distro_updateCmd distro) with
      | [] => None
      | updateParts => Some (run_cmd s updateParts).1
      end
    else Some s in
  match updated with
  | None => None
  | Some s1 =>
      let pkgList := range_order (packages distro deps) in
      match (strings.Fields (distro_installCmd distro) ++ pkgList)%list with
      | [] => None
      | installParts =>
          match run_cmd s1 installParts with
          | (s2, Some e) =>
              Some (s2, depsInstallMsg (Some (fmt.Errorf "failed to install packages: %w" [e])))
          | (s2, None) => Some (s2, depsInstallMsg None)
          end
      end
  end.

End InstallDependencies.

(* ===================================================================== *)
(** * Package cli: extraction *)
(* ===================================================================== *)

(** The kinds of archive members [extractTarGz] tells apart. *)
Inductive typeflag :=
| TypeDir
| TypeReg
| TypeSymlink
| TypeOther (flag : ascii).

(** A member of the archive: the header fields the code reads, the bytes
    of the member that can be read and the error, if any, that ends them. *)
Record tar_entry := mkTarEntry {
  e_Name : string;
  e_Typeflag : typeflag;
  e_Mode : Z;
  e_Linkname : string;
  e_data : string;
  e_data_err : option error
}.

Section ExtractTarGz.

(** The disk, and the calls of package [os] the extraction makes. Each
    returns the disk it leaves, also when it fails. *)
Variable disk : Type.
Variable filepath_Join : string → string → string.
Variable filepath_Dir : string → string.
Variable os_MkdirAll : disk → string → Z → disk * option error.
Variable os_OpenFile : disk → string → Z → disk * option error.
Variable write_file : disk → string → string → disk * option error.
Variable close_file : disk → string → disk * option error.
Variable os_Symlink : disk → string → string → disk * option error.

(** One turn of the loop of [extractTarGz], for the member [e]. *)
Definition extract_entry (d : disk) (dst : string) (e : tar_entry) : disk * option error :=
  let target := filepath_Join dst (e_Name e) in
  match e_Typeflag e with
  | TypeDir => os_MkdirAll d target (e_Mode e)
  | TypeReg =>
      match os_MkdirAll d (filepath_Dir target) 493 with
      | (d1, Some err) => (d1, Some err)
      | (d1, None) =>
          match os_OpenFile d1 target (e_Mode e) with
          | (d2, Some err) => (d2, Some err)
          | (d2, None) =>
              (* io.Copy(w, t) *)
              match write_file d2 target (e_data e) with
              | (d3, Some err) => ((close_file d3 target).1, Some err)
              | (d3, None) =>
                  match e_data_err e with
                  | Some err => ((close_file d3 target).1, Some err)
                  | None => close_file d3 target
                  end
              end
          end
      end
  | TypeSymlink => os_Symlink d (e_Linkname e) target
  | TypeOther _ => (d, None)
  end.

(** The loop of [extractTarGz] over the members the reader yields, then
    the end of the stream: [io.EOF], or the error [stream_err]. *)
Fixpoint extract_loop (d : disk) (dst : string) (entries : list tar_entry)
    (stream_err : option error) : disk * option error :=
  match entries with
  | [] => (d, stream_err)
  | e :: rest =>
      match extract_entry d dst e with
      | (d', Some err) => (d', Some err)
      | (d', None) => extract_loop d' dst rest stream_err
      end
  end.

(** [extractTarGz]: [open_archive] is [os.Open] and [gzip.NewReader] on the
    source file, yielding the members and the end of the stream. *)
Variable open_archive : disk → string → (list tar_entry * option error) + error.

Definition extractTarGz (d : disk) (src dst : string) : disk * option error :=
  match open_archive d src with
  | inr err => (d, Some err)
  | inl (entries, stream_err) => extract_loop d dst entries stream_err
  end.

(** [os.Remove(name)], whose error [stepExtract] drops. *)
Variable os_Remove : disk → string → disk.

(** What [stepExtract] does when it runs. *)
Definition run_stepExtract (d : disk) (m : installModel) : disk * Msg :=
  match extractTarGz d (i_filename m) "/usr/local" with
  | (d', Some err) => (d', extractedMsg (Some err))
  | (d', None) => (os_Remove d' (i_filename m), extractedMsg None)
  end.

End ExtractTarGz.

(* ===================================================================== *)
(** * Definitions used by the further statements *)
(* ===================================================================== *)

(** The units of work a pipeline in state [s] has behind it. *)
Definition done_before (s : installState) : list work :=
  match s with
  | installStateDownloading => []
  | installStateVerifying => [WDownload]
  | installStateRemoving => [WDownload; WVerify]
  | installStateExtracting => [WDownload; WVerify; WRemove]
  | installStateConfiguring => [WDownload; WVerify; WRemove; WExtract]
  | installStateDone => [WDownload; WVerify; WRemove; WExtract; WConfigure]
  | installStateError => []
  end.

(** The error a step message reports. *)
Definition msg_err (msg : Msg) : option error :=
  match msg with
  | depsCheckMsg _ _ e | depsInstallMsg e | fetchedMsg _ e | installCompleteMsg e
  | downloadedMsg _ _ e | verifiedMsg e | removedMsg e | extractedMsg e
  | configuredMsg e => e
  | _ => None
  end.

(** The reports of units of work among the messages [evs], oldest first:
    which unit, and the error it ended with. *)
Definition reports (evs : list Msg) : list (work * option error) :=
  omap (λ msg, match msg_work msg with
               | Some w => Some (w, msg_err msg)
               | None => None
               end) evs.

(** The dependency check has been passed: nothing was missing, or what was
    missing has been installed. *)
Definition deps_satisfied (evs : list Msg) : Prop :=
  (∃ distro, In (depsCheckMsg [] distro None) evs) ∨ In (depsInstallMsg None) evs.

(** A system with apt-get whose distribution calls itself Linuxmint, and
    on which Git is missing. *)
Definition system_mint : system :=
  mkSystem (λ name, String.eqb name "apt-get") ("Linuxmint" ++ nl)
    (λ argv, negb (String.eqb (hd "" argv) "git")).

(** A package manager that always succeeds and records nothing. *)
Definition run_cmd_ok (s : unit) (argv : list string) : unit * option error := (s, None).

(** The package managers [detectDistro] looks for, in the order it looks
    for them. *)
Definition package_managers : list string := ["apt-get"; "dnf"; "yum"; "pacman"; "apk"].

(** The distribution names the table [requiredDeps] has packages for. *)
Definition known_distros : list string :=
  ["debian"; "ubuntu"; "fedora"; "rhel"; "arch"; "alpine"].

(** The probe of a dependency fails on the system. *)
Definition probe_fails (sys : system) (dep : dependency) : bool :=
  negb (probe sys (strings.Fields (dep_checkCmd dep))).

(** The message [installDependencies] sends for the outcome of the install
    command. *)
Definition install_report {S : Type} (r : S * option error) : S * Msg :=
  match r with
  | (s, Some e) => (s, depsInstallMsg (Some ("failed to install packages: " ++ e)))
  | (s, None) => (s, depsInstallMsg None)
  end.

(** The members [extractTarGz] acts on. *)
Definition extracted_kind (e : tar_entry) : bool :=
  match e_Typeflag e with
  | TypeOther _ => false
  | _ => true
  end.

(** A disk that only records the calls made on it, newest last; creating
    anything below [/usr/local/go/pkg] fails. *)
Definition log_call (d : list string) (call path : string) : list string * option error :=
  if String.prefix "/usr/local/go/pkg" path
  then (app d [call ++ " " ++ path ++ " failed"], Some (err_permission call path))
  else (app d [call ++ " " ++ path], None).

Definition log_extract (d : list string) (dst : string) (entries : list tar_entry)
    (stream_err : option error) : list string * option error :=
  extract_loop (list string) join_clean (λ p, p)
    (λ d p _, log_call d "mkdir" p) (λ d p _, log_call d "open" p)
    (λ d p _, log_call d "write" p) (λ d p, log_call d "close" p)
    (λ d _ p, log_call d "symlink" p)
    d dst entries stream_err.

Definition archive_members : list tar_entry :=
  [ mkTarEntry "go" TypeDir 493 "" "" None;
    mkTarEntry "go/VERSION" TypeReg 420 "" "go1.22.1" None;
    mkTarEntry "go/hardlink" (TypeOther "1") 420 "go/VERSION" "" None;
    mkTarEntry "go/pkg" TypeDir 493 "" "" None;
    mkTarEntry "go/bin/go" TypeReg 493 "" "ELF" None ].

(** The reports of a pipeline that has reached the state [s] without a
    failure: one success for each unit of work behind it. *)
Definition successes (s : installState) : list (work * option error) :=
  map (λ w, (w, None)) (done_before s).

(** The file name build selection gives for the pipeline [m]. *)
Definition archive_of (m : installModel) : string :=
  (common.FindBuild (i_releases m) (i_version m) (i_targetOS m) (i_targetArch m)).1.1.2.

(** The pipeline for a version the catalog does not have, and the state of
    the loop once its download step has reported the failure. *)
Definition pipeline_absent : installModel :=
  newInstallModel "go1.9" "linux" "amd64" catalog_example.

Definition config_failed : config :=
  mkConfig
    (InstallM (set_i_state (set_i_err pipeline_absent (Some "version go1.9 not found"))
                 installStateError))
    host_dl [spinner_Tick; Quit].

(** What the messages handled so far must hold for the model the loop is
    in: the orchestrator asks about, or installs, dependencies that a
    check has reported missing; it fetches the catalog, and goes on from
    it, only once the dependencies are satisfied; and the pipeline works
    on a catalog that has been fetched, for the platform of the program. *)
Definition model_hist (goos goarch : string) (evs : list Msg) (M : Model) : Prop :=
  match M with
  | MainM m =>
      m_targetOS m = goos ∧ m_targetArch m = goarch
      ∧ match m_state m with
        | mainStateConfirmInstallDeps =>
            m_missingDeps m ≠ []
            ∧ In (depsCheckMsg (m_missingDeps m) (m_distro m) None) evs
        | mainStateInstallingDeps =>
            said_yes evs ∧ m_missingDeps m ≠ []
            ∧ In (depsCheckMsg (m_missingDeps m) (m_distro m) None) evs
        | mainStateFetching => deps_satisfied evs
        | mainStateSelectVersion | mainStateConfirmOverride =>
            deps_satisfied evs ∧ In (fetchedMsg (m_releases m) None) evs
        | _ => True
        end
  | InstallM m =>
      i_targetOS m = goos ∧ i_targetArch m = goarch
      ∧ deps_satisfied evs ∧ In (fetchedMsg (i_releases m) None) evs
  end.

(** The command, if it installs dependencies, installs those a check has
    reported missing, after the user has said yes. *)
Definition consented (evs : list Msg) (c : Cmd) : Prop :=
  match c with
  | installDependencies distro deps =>
      said_yes evs ∧ deps ≠ [] ∧ In (depsCheckMsg deps distro None) evs
  | _ => True
  end.

(** The loop once the user has agreed to install Git. *)
Definition config_consent : config :=
  mkConfig (MainM (set_m_state asking_example mainStateInstallingDeps)) host_dl
    [spinner_Tick; spinner_Tick; installDependencies distro_debian [dep_git]].

(** The loop once the orchestrator has handed over to the pipeline, on a
    host with no earlier installation. *)
Definition config_handover : config :=
  mkConfig (InstallM pipeline_example) host_abc
    [spinner_Tick; spinner_Tick; spinner_Tick; stepDownload pipeline_example].

(* ===================================================================== *)
(** * The library models on known inputs *)
(* ===================================================================== *)

Example sprintf_missing : fmt.Sprintf "a %s b" [] = "a %!s(MISSING) b".
Proof. reflexivity. Qed.

Example errorf_not_found : common.err_not_found "go1.2" = "version go1.2 not found".
Proof. reflexivity. Qed.

Example sha256_empty :
  hex.EncodeToString (sha256.Sum256 (bytes_of "")) =
  "e3b0c44298fc1c149afbf4c8996fb92427ae41e4649b934ca495991b7852b855".
Proof. vm_compute. reflexivity. Qed.

Example sha256_abc :
  hex.EncodeToString (sha256.Sum256 (bytes_of "abc")) =
  "ba7816bf8f01cfea414140de5dae2223b00361a396177a9cb410ff61f20015ad".
Proof. vm_compute. reflexivity. Qed.

Example sha256_two_blocks :
  hex.EncodeToString (sha256.Sum256 (bytes_of "abcdbcdecdefdefgefghfghighijhijkijkljklmklmnlmnomnopnopq")) =
  "248d6a61d20638b8e5c026930c3e6039a33ce45964ff2167f6ecedd419db06c1".
Proof. vm_compute. reflexivity. Qed.

Example path_entry_text :
  path_entry = nl ++ "# Added by go-install" ++ nl ++ "export PATH=$PATH:/usr/local/go/bin" ++ nl.
Proof. reflexivity. Qed.

(* ===================================================================== *)
(** * Properties of package common *)
(* ===================================================================== *)

Lemma prefix_app (p t : string) : String.prefix p (p ++ t) = true.
Proof.
  induction p as [|a p IH]; simpl.
  - destruct t; reflexivity.
  - destruct (ascii_dec a a) as [_|Hn]; [exact IH | congruence].
Qed.

Lemma prefix_inv (p s : string) :
  String.prefix p s = true → ∃ t, s = p ++ t.
Proof.
  revert s. induction p as [|a p IH]; intros s H.
  - exists s. reflexivity.
  - destruct s as [|b s]; simpl in H; [discriminate|].
    destruct (ascii_dec a b) as [->|_]; [|discriminate].
    destruct (IH s H) as [t ->]. exists t. reflexivity.
Qed.

Lemma NormalizeVersion_prefixed (s : string) :
  common.NormalizeVersion ("go" ++ s) = "go" ++ s.
Proof.
  unfold common.NormalizeVersion, strings.HasPrefix.
  rewrite prefix_app. reflexivity.
Qed.

Lemma NormalizeVersion_cases (v : string) :
  common.NormalizeVersion v = "" ∨ ∃ s, common.NormalizeVersion v = "go" ++ s.
Proof.
  unfold common.NormalizeVersion, strings.HasPrefix.
  destruct (String.eqb v "") eqn:Hv; [left; reflexivity|right].
  destruct (String.prefix "go" v) eqn:Hp; simpl.
  - apply prefix_inv in Hp. exact Hp.
  - exists v. reflexivity.
Qed.

(** C7. Version normalization is idempotent: normalizing twice is
    normalizing once; a string that already carries the prefix [go] is
    left as it is; and the bare version [1.22.1] becomes [go1.22.1]. *)
Theorem NormalizeVersion_idempotent :
  (∀ v, common.NormalizeVersion (common.NormalizeVersion v) = common.NormalizeVersion v)
  ∧ (∀ s, common.NormalizeVersion ("go" ++ s) = "go" ++ s)
  ∧ common.NormalizeVersion "1.22.1" = "go1.22.1".
Proof.
  split; [|split].
  - intros v. destruct (NormalizeVersion_cases v) as [H|[s H]]; rewrite H.
    + reflexivity.
    + apply NormalizeVersion_prefixed.
  - apply NormalizeVersion_prefixed.
  - reflexivity.
Qed.

Lemma append_nil_r (s : string) : s ++ "" = s.
Proof. induction s as [|c s IH]; simpl; [reflexivity | rewrite IH; reflexivity]. Qed.

Lemma append_assoc' (a b c : string) : (a ++ b) ++ c = a ++ (b ++ c).
Proof. induction a as [|x a IH]; simpl; [reflexivity | rewrite IH; reflexivity]. Qed.

Lemma append_inj_l (p a b : string) : p ++ a = p ++ b → a = b.
Proof.
  induction p as [|c p IH]; simpl; intros H; [exact H|].
  injection H as H. exact (IH H).
Qed.

Lemma err_not_found_text (ver : string) :
  common.err_not_found ver = "version " ++ ver ++ " not found".
Proof. reflexivity. Qed.

Lemma err_no_archive_text (ver goos arch : string) :
  common.err_no_archive ver goos arch =
  "version " ++ ver ++ " exists but no archive for " ++ goos ++ "/" ++ arch.
Proof.
  unfold common.err_no_archive, fmt.Errorf. simpl.
  rewrite append_nil_r. reflexivity.
Qed.

Lemma FindBuild_errors_distinct (ver goos arch : string) :
  common.err_not_found ver ≠ common.err_no_archive ver goos arch.
Proof.
  rewrite err_not_found_text, err_no_archive_text. intros H.
  apply (append_inj_l "version ") in H. apply append_inj_l in H.
  discriminate H.
Qed.

Lemma first_archive_none (files : list common.GoFile) (goos arch : string) :
  (∀ f, In f files → common.is_archive_for goos arch f = false) →
  common.first_archive files goos arch = None.
Proof.
  induction files as [|f files IH]; intros H; simpl; [reflexivity|].
  rewrite (H f (or_introl eq_refl)). apply IH. intros g Hg. apply H. right. exact Hg.
Qed.

Lemma first_archive_first (fpre : list common.GoFile) f fpost (goos arch : string) :
  (∀ g, In g fpre → common.is_archive_for goos arch g = false) →
  common.is_archive_for goos arch f = true →
  common.first_archive (fpre ++ f :: fpost)%list goos arch = Some f.
Proof.
  induction fpre as [|g fpre IH]; intros Hpre Hf; simpl.
  - rewrite Hf. reflexivity.
  - rewrite (Hpre g (or_introl eq_refl)). apply IH; [|exact Hf].
    intros g' Hg'. apply Hpre. right. exact Hg'.
Qed.

Lemma FindBuild_skip (pre rest : list common.GoRelease) (ver goos arch : string) :
  (∀ r, In r pre → common.Version r ≠ ver) →
  common.FindBuild (pre ++ rest)%list ver goos arch = common.FindBuild rest ver goos arch.
Proof.
  induction pre as [|r pre IH]; intros H; simpl; [reflexivity|].
  destruct (String.eqb_spec (common.Version r) ver) as [E|_]; simpl.
  - exfalso. exact (H r (or_introl eq_refl) E).
  - apply IH. intros r' Hr'. apply H. right. exact Hr'.
Qed.

(** C1. [FindBuild] looks at the first release whose version is the
    requested string. It returns the first file of that release, in
    published order, of kind [archive] with the requested os and arch. If
    no release has the version the error is "version ... not found"; if
    the release has no such file the error is "version ... exists but no
    archive for os/arch"; the two errors are different. *)
Theorem FindBuild_selects (all : list common.GoRelease) (ver goos arch : string) :
  ((∀ r, In r all → common.Version r ≠ ver) →
     common.FindBuild all ver goos arch
     = (common.GoRelease_zero, "", "", Some (common.err_not_found ver)))
  ∧ (∀ pre r post,
       all = (pre ++ r :: post)%list →
       (∀ r', In r' pre → common.Version r' ≠ ver) →
       common.Version r = ver →
       (∀ fpre f fpost,
          common.Files r = (fpre ++ f :: fpost)%list →
          (∀ g, In g fpre → common.is_archive_for goos arch g = false) →
          common.Kind f = "archive" → common.OS f = goos → common.Arch f = arch →
          common.FindBuild all ver goos arch
          = (r, common.Filename f, common.Sha256 f, None))
       ∧ ((∀ g, In g (common.Files r) → common.is_archive_for goos arch g = false) →
          common.FindBuild all ver goos arch
          = (r, "", "", Some (common.err_no_archive ver goos arch))))
  ∧ common.err_not_found ver ≠ common.err_no_archive ver goos arch.
Proof.
  split; [|split].
  - intros H. rewrite <- (app_nil_r all). rewrite FindBuild_skip by exact H. reflexivity.
  - intros pre r post -> Hpre Hr.
    rewrite FindBuild_skip by exact Hpre. simpl.
    rewrite Hr, String.eqb_refl. simpl. split.
    + intros fpre f fpost -> Hfpre Hk Ho Ha.
      rewrite first_archive_first; [reflexivity|exact Hfpre|].
      unfold common.is_archive_for. rewrite Hk, Ho, Ha, !String.eqb_refl. reflexivity.
    + intros Hnone. rewrite first_archive_none by exact Hnone. reflexivity.
  - apply FindBuild_errors_distinct.
Qed.

Lemma FindBuild_selects_witness :
  common.FindBuild catalog_example "go1.9" "linux" "amd64"
    = (common.GoRelease_zero, "", "", Some "version go1.9 not found")
  ∧ common.FindBuild catalog_example "go1.22.1" "linux" "amd64"
    = (common.mkGoRelease "go1.22.1" (common.Files (nth 0 catalog_example common.GoRelease_zero)),
       "go1.22.1.linux-amd64.tar.gz",
       "ba7816bf8f01cfea414140de5dae2223b00361a396177a9cb410ff61f20015ad", None)
  ∧ common.FindBuild catalog_example "go1.21.0" "linux" "amd64"
    = (nth 1 catalog_example common.GoRelease_zero, "", "",
       Some "version go1.21.0 exists but no archive for linux/amd64").
Proof.
  split; [|split].
  - apply (proj1 (FindBuild_selects catalog_example "go1.9" "linux" "amd64")).
    intros r [<-|[<-|[]]]; discriminate.
  - destruct (FindBuild_selects catalog_example "go1.22.1" "linux" "amd64") as [_ [H _]].
    destruct (H [] (nth 0 catalog_example common.GoRelease_zero) (skipn 1 catalog_example)
                eq_refl (λ r' (F : In r' []), match F with end) eq_refl) as [Hfound _].
    apply (Hfound (firstn 2 (common.Files (nth 0 catalog_example common.GoRelease_zero)))
                  (nth 2 (common.Files (nth 0 catalog_example common.GoRelease_zero))
                         (common.mkGoFile "" "" "" "" ""))
                  (skipn 3 (common.Files (nth 0 catalog_example common.GoRelease_zero))));
      try reflexivity.
    intros g [<-|[<-|[]]]; reflexivity.
  - destruct (FindBuild_selects catalog_example "go1.21.0" "linux" "amd64") as [_ [H _]].
    destruct (H (firstn 1 catalog_example) (nth 1 catalog_example common.GoRelease_zero) []
                eq_refl) as [_ Hnone].
    + intros r' [<-|[]]. discriminate.
    + reflexivity.
    + apply Hnone. intros g [<-|[]]. reflexivity.
Defined.

(* ===================================================================== *)
(** * Properties of the steps *)
(* ===================================================================== *)

Lemma hex_digit_lower (n : Z) : strings.lower_byte (hex.digit n) = hex.digit n.
Proof.
  unfold hex.digit. generalize (Z.to_nat n). intros k.
  do 17 (destruct k as [|k]; [reflexivity|]). reflexivity.
Qed.

(** [hex.EncodeToString] writes lower-case digits only. *)
Lemma EncodeToString_lower (bs : list Z) :
  strings.ToLower (hex.EncodeToString bs) = hex.EncodeToString bs.
Proof.
  induction bs as [|b bs IH]; simpl; [reflexivity|].
  rewrite !hex_digit_lower, IH. reflexivity.
Qed.

(** [verifyChecksum] on a file that can be read is the comparison of the
    two strings. *)
Lemma verifyChecksum_read (h : host) (name want data : string) :
  read_file h name = inl data →
  verifyChecksum h name want
  = if String.eqb (digest_of data) want then None
    else Some (err_sha_mismatch want (digest_of data)).
Proof.
  intros Hread. unfold verifyChecksum. rewrite Hread. fold (digest_of data).
  destruct (String.eqb (digest_of data) want); reflexivity.
Qed.

(** C2, as amended. For a file that can be read, [verifyChecksum] succeeds
    exactly when the declared digest is, byte for byte, the lower-case
    hexadecimal SHA-256 of the file; that is, when it matches up to the
    case of the letters and is itself written in lower case. Every other
    declared digest is rejected with the mismatch error. *)
Theorem verifyChecksum_exact (h : host) (name want data : string) :
  read_file h name = inl data →
  (verifyChecksum h name want = None ↔ digest_of data = want)
  ∧ (verifyChecksum h name want = None ↔
       strings.EqualFold (digest_of data) want = true ∧ strings.ToLower want = want)
  ∧ (digest_of data ≠ want →
       verifyChecksum h name want = Some (err_sha_mismatch want (digest_of data))).
Proof.
  intros Hread. rewrite (verifyChecksum_read h name want data Hread).
  destruct (String.eqb_spec (digest_of data) want) as [E|NE]; simpl.
  - split; [|split].
    + tauto.
    + split; [intros _|reflexivity]. subst want. unfold strings.EqualFold.
      rewrite String.eqb_refl. split; [reflexivity|]. apply EncodeToString_lower.
    + intros Hne. contradiction.
  - split; [|split].
    + split; [discriminate|contradiction].
    + split; [discriminate|]. intros [Hfold Hlow]. exfalso. apply NE.
      unfold strings.EqualFold in Hfold. apply String.eqb_eq in Hfold.
      unfold digest_of in Hfold. rewrite EncodeToString_lower in Hfold.
      rewrite Hlow in Hfold. exact Hfold.
    + reflexivity.
Qed.

Lemma verifyChecksum_exact_witness :
  read_file host_abc "go1.22.1.linux-amd64.tar.gz" = inl "abc"
  ∧ (verifyChecksum host_abc "go1.22.1.linux-amd64.tar.gz" digest_abc = None
     ↔ digest_of "abc" = digest_abc).
Proof.
  split; [vm_compute; reflexivity|].
  apply (verifyChecksum_exact host_abc "go1.22.1.linux-amd64.tar.gz" digest_abc "abc").
  vm_compute. reflexivity.
Defined.

(** C2, as stated, fails: the declared digest in upper case equals the
    file's digest under case-insensitive comparison, and the file is
    rejected. *)
Lemma verifyChecksum_upper_case_rejected :
  strings.EqualFold (digest_of "abc") digest_abc_upper = true
  ∧ verifyChecksum host_abc "go1.22.1.linux-amd64.tar.gz" digest_abc_upper
    = Some ("sha mismatch: want=" ++ digest_abc_upper ++ " got=" ++ digest_abc).
Proof. split; vm_compute; reflexivity. Qed.

Lemma os_Create_lookup (h h1 : host) (name : string) :
  os_Create h name = inl h1 →
  ∃ f, fs h1 !! name = Some (File f) ∧ content f = ""
       ∧ http_get h1 = http_get h ∧ disk_full h1 = disk_full h.
Proof.
  unfold os_Create. intros H.
  destruct (fs h !! name) as [[f|]|] eqn:E.
  - destruct (mode_w f); [|discriminate]. injection H as <-. simpl.
    rewrite lookup_insert_eq. eexists. repeat split.
  - discriminate.
  - destruct (can_create h name); [|discriminate]. injection H as <-. simpl.
    rewrite lookup_insert_eq. eexists. repeat split.
Qed.

(** C10. When the file can be created and the request completes with a
    response whose body arrives whole, [downloadFile] returns no error
    whatever the status code is, and the file holds the body of the
    response. The download step then reports success to the pipeline, which
    goes on to verification; the response is rejected there unless its
    body has the declared digest. *)
Theorem downloadFile_ignores_status (h h1 : host) (name body : string) (status : Z) :
  os_Create h name = inl h1 →
  http_get h ("https://go.dev/dl/" ++ name) = HttpResponse status body None →
  disk_full h = false →
  ∃ h' f,
    downloadFile h name = (h', None)
    ∧ fs h' !! name = Some (File f) ∧ content f = body
    ∧ (∀ m r sha,
         common.FindBuild (i_releases m) (i_version m) (i_targetOS m) (i_targetArch m)
           = (r, name, sha, None) →
         run_stepDownload h m = (h', downloadedMsg name sha None)
         ∧ i_state (installModel_Update m (downloadedMsg name sha None)).1
           = installStateVerifying)
    ∧ (mode_r f = true →
       ∀ want, verifyChecksum h' name want = None ↔ digest_of body = want).
Proof.
  intros Hc Hget Hfull.
  destruct (os_Create_lookup h h1 name Hc) as [f [Hf [Hcont [Hhttp Hdf]]]].
  assert (Hdl : downloadFile h name = (append_file h1 name f body, None)).
  { unfold downloadFile. rewrite Hc, Hhttp, Hget, Hdf, Hfull, Hf. reflexivity. }
  exists (append_file h1 name f body), (mkFile (content f ++ body) (mode_r f) (mode_w f)).
  split; [exact Hdl|]. split; [|split; [|split]].
  - simpl. apply lookup_insert_eq.
  - simpl. rewrite Hcont. reflexivity.
  - intros m r sha Hfb. split; [|reflexivity].
    unfold run_stepDownload. rewrite Hfb, Hdl. reflexivity.
  - simpl. intros Hr want.
    rewrite (verifyChecksum_read _ name want body).
    + destruct (String.eqb_spec (digest_of body) want) as [E|NE];
        split; intros H; try reflexivity; try assumption; try discriminate H; contradiction.
    + unfold read_file. simpl. rewrite lookup_insert_eq. simpl. rewrite Hr, Hcont. reflexivity.
Qed.

Lemma downloadFile_ignores_status_witness :
  ∃ h' f,
    downloadFile host_404 "go1.22.1.linux-amd64.tar.gz" = (h', None)
    ∧ fs h' !! "go1.22.1.linux-amd64.tar.gz" = Some (File f)
    ∧ content f = "404 page not found".
Proof.
  destruct (downloadFile_ignores_status host_404
              (set_fs host_404 (<["go1.22.1.linux-amd64.tar.gz" := File (mkFile "" true true)]> ∅))
              "go1.22.1.linux-amd64.tar.gz" "404 page not found" 404)
    as [h' [f [H1 [H2 [H3 _]]]]]; try reflexivity.
  exists h', f. auto.
Defined.

Lemma Contains_app_r (s t sub : string) :
  strings.Contains t sub = true → strings.Contains (s ++ t) sub = true.
Proof.
  intros H. induction s as [|c s IH]; simpl; [exact H|].
  rewrite IH. apply orb_true_r.
Qed.

Lemma Contains_prefix (s sub : string) :
  String.prefix sub s = true → strings.Contains s sub = true.
Proof.
  intros H. destruct s as [|c s].
  - destruct sub; [reflexivity|discriminate H].
  - change (String.prefix sub (String c s) || strings.Contains s sub = true).
    rewrite H. reflexivity.
Qed.

Lemma Contains_intro (a sub b : string) : strings.Contains (a ++ sub ++ b) sub = true.
Proof.
  induction a as [|c a IH].
  - change ("" ++ sub ++ b) with (sub ++ b). apply Contains_prefix, prefix_app.
  - simpl. rewrite IH. apply orb_true_r.
Qed.

Lemma Contains_elim (s sub : string) :
  strings.Contains s sub = true → ∃ a b, s = a ++ sub ++ b.
Proof.
  induction s as [|c s IH]; intros H.
  - destruct sub; [|discriminate H]. exists "", "". reflexivity.
  - change (String.prefix sub (String c s) || strings.Contains s sub = true) in H.
    apply orb_true_iff in H as [H|H].
    + apply prefix_inv in H as [t Ht]. exists "", t. exact Ht.
    + destruct (IH H) as [a [b ->]]. exists (String c a), b. reflexivity.
Qed.

(** A file that holds the export line mentions the bin directory. *)
Lemma Contains_goPath (s : string) :
  strings.Contains s goPath = true → strings.Contains s go_bin = true.
Proof.
  intros H. apply Contains_elim in H as [a [b ->]].
  change goPath with ("export PATH=$PATH:" ++ go_bin).
  rewrite append_assoc', <- (append_assoc' a). apply Contains_intro.
Qed.

Lemma setup_loop_skip (h : host) (pre rest : list string) :
  (∀ c, In c pre → passes_over h c = true) →
  setup_loop h (pre ++ rest)%list = setup_loop h rest.
Proof.
  induction pre as [|c pre IH]; intros H; simpl; [reflexivity|].
  assert (Hc := H c (or_introl eq_refl)). unfold passes_over, go_bin in Hc.
  assert (IH' := IH (λ c' Hc', H c' (or_intror Hc'))).
  destruct (fs h !! c) as [[f|]|]; try exact IH'.
  destruct (mode_r f); simpl in *; [|exact IH'].
  destruct (strings.Contains (content f) "/usr/local/go/bin"); simpl in *; [discriminate|].
  destruct (mode_w f); simpl in *; [|exact IH'].
  rewrite Hc. exact IH'.
Qed.

Section SetupEnvironmentProperties.

Variable filepath_Join : string → string → string.

(** C8, as amended. Let [cf] be the candidate [setupEnvironment] settles
    on: the first candidate file of the user's shell that the loop does
    not pass over. If [cf] already mentions the toolchain's bin directory
    anywhere, as it does when it holds the export line, the operation
    succeeds and the host is unchanged. If it does not mention it, the
    operation succeeds, appends to [cf] a blank line, the comment line
    and one export line, and changes no other file; running it again
    succeeds and changes nothing, so the file keeps a single entry. *)
Theorem setupEnvironment_idempotent (h : host) (homeDir : string)
    (pre : list string) (cf : string) (post : list string) (f : file) :
  home h = Some homeDir →
  configFiles filepath_Join homeDir (env_SHELL h) = (pre ++ cf :: post)%list →
  (∀ c, In c pre → passes_over h c = true) →
  fs h !! cf = Some (File f) →
  mode_r f = true →
  (strings.Contains (content f) go_bin = true →
     setupEnvironment filepath_Join h = (h, None))
  ∧ (strings.Contains (content f) goPath = true →
     setupEnvironment filepath_Join h = (h, None))
  ∧ (strings.Contains (content f) go_bin = false →
     mode_w f = true → disk_full h = false →
     let h' := append_file h cf f path_entry in
     setupEnvironment filepath_Join h = (h', None)
     ∧ fs h' !! cf
       = Some (File (mkFile
                       (content f ++ nl ++ "# Added by go-install" ++ nl
                        ++ "export PATH=$PATH:/usr/local/go/bin" ++ nl)
                       (mode_r f) (mode_w f)))
     ∧ (∀ p, p ≠ cf → fs h' !! p = fs h !! p)
     ∧ setupEnvironment filepath_Join h' = (h', None)).
Proof.
  intros Hhome Hcands Hpre Hcf Hr.
  assert (Hnoop : strings.Contains (content f) go_bin = true →
                  setupEnvironment filepath_Join h = (h, None)).
  { unfold go_bin. intros Hhas. unfold setupEnvironment. rewrite Hhome, Hcands.
    rewrite setup_loop_skip by exact Hpre. simpl. rewrite Hcf, Hr, Hhas. reflexivity. }
  split; [exact Hnoop|]. split; [intros Hhas; apply Hnoop, Contains_goPath, Hhas|].
  unfold go_bin.
  - intros Hlacks Hw Hfull. cbv zeta. set (h' := append_file h cf f path_entry).
    assert (Hfirst : setupEnvironment filepath_Join h = (h', None)).
    { unfold setupEnvironment. rewrite Hhome, Hcands.
      rewrite setup_loop_skip by exact Hpre. simpl.
      rewrite Hcf, Hr, Hlacks, Hw, Hfull. reflexivity. }
    split; [exact Hfirst|]. split; [|split].
    + subst h'. simpl. rewrite lookup_insert_eq. reflexivity.
    + intros p Hp. subst h'. simpl. apply lookup_insert_ne. congruence.
    + assert (Hnot : ∀ c, In c pre → c ≠ cf).
      { intros c Hc ->. specialize (Hpre cf Hc). unfold passes_over, go_bin in Hpre.
        rewrite Hcf, Hr, Hlacks, Hw, Hfull in Hpre. discriminate Hpre. }
      unfold setupEnvironment. subst h'. simpl. rewrite Hhome, Hcands.
      rewrite setup_loop_skip.
      * simpl. rewrite lookup_insert_eq. simpl. rewrite Hr.
        rewrite Contains_app_r by (vm_compute; reflexivity). reflexivity.
      * intros c Hc. specialize (Hpre c Hc). unfold passes_over in *. simpl.
        rewrite lookup_insert_ne by (intros E; exact (Hnot c Hc (eq_sym E))).
        exact Hpre.
Qed.

End SetupEnvironmentProperties.

Lemma setupEnvironment_idempotent_witness :
  let h' := append_file host_bash "/root/.bash_profile" (mkFile "alias ll='ls -l'" true true)
              path_entry in
  setupEnvironment join_clean host_bash = (h', None)
  ∧ setupEnvironment join_clean h' = (h', None).
Proof.
  destruct (setupEnvironment_idempotent join_clean host_bash "/root"
              ["/root/.bashrc"] "/root/.bash_profile" []
              (mkFile "alias ll='ls -l'" true true)) as [_ [_ H]]; try reflexivity.
  - intros c [<-|[]]. reflexivity.
  - destruct H as [H1 [_ [_ H2]]]; try reflexivity. split; assumption.
Defined.

(** C8, as stated, fails: a file that names the bin directory in an alias
    holds neither the export line nor any other setting of PATH, and
    [setupEnvironment] succeeds without appending the entry to it. *)
Lemma setupEnvironment_mention_without_entry :
  read_file host_alias "/root/.bashrc" = inl "alias gofmt=/usr/local/go/bin/gofmt"
  ∧ strings.Contains "alias gofmt=/usr/local/go/bin/gofmt" goPath = false
  ∧ strings.Contains "alias gofmt=/usr/local/go/bin/gofmt" "PATH" = false
  ∧ configFiles join_clean "/root" (env_SHELL host_alias)
    = ["/root/.bashrc"; "/root/.bash_profile"]
  ∧ setupEnvironment join_clean host_alias = (host_alias, None).
Proof. repeat split; vm_compute; reflexivity. Qed.

(* ===================================================================== *)
(** * Properties of the event loop *)
(* ===================================================================== *)

Lemma works_app (a b : list Cmd) : works (a ++ b) = (works a ++ works b)%list.
Proof. unfold works. apply omap_app. Qed.

Lemma works_singleton (P1 P2 : list Cmd) (c0 : Cmd) (ws : list work) (w : work) :
  works (P1 ++ c0 :: P2) = ws → (length ws ≤ 1)%nat → work_of c0 = Some w →
  ws = [w] ∧ works (P1 ++ P2) = [].
Proof.
  intros H Hlen Hw. rewrite works_app in *.
  assert (Hc : works (c0 :: P2) = w :: works P2) by (unfold works; simpl; rewrite Hw; reflexivity).
  rewrite Hc in H. subst ws. rewrite length_app in Hlen.
  destruct (works P1) as [|w1 l1], (works P2) as [|w2 l2]; simpl in *;
    try (exfalso; clear -Hlen; lia).
  split; reflexivity.
Qed.

Lemma works_remove_quiet (P1 P2 : list Cmd) (c0 : Cmd) :
  work_of c0 = None → works (P1 ++ c0 :: P2) = works (P1 ++ P2).
Proof.
  intros Hw. rewrite !works_app. unfold works. simpl. rewrite Hw. reflexivity.
Qed.

Lemma awaits_length (M : Model) : (length (awaits M) ≤ 1)%nat.
Proof. destruct M as [m|m]; simpl; [destruct (m_state m)|destruct (i_state m)]; simpl; lia. Qed.

(** A message that is awaited, or that is not the report of any work,
    makes the pipeline take a linear turn. *)
Lemma installModel_Update_linear (m : installModel) (msg : Msg) :
  (∀ w, msg_work msg = Some w → install_awaits (i_state m) = [w]) →
  linear_turn (i_state m) (i_state (installModel_Update m msg).1) msg
    (installModel_Update m msg).2.
Proof.
  intros Hexp. unfold linear_turn.
  destruct msg as [key| | |tag|? ? ?|?|? ?|?|? ? e|e|e|e|e]; simpl in *;
    try (left; repeat split; reflexivity);
    try (specialize (Hexp _ eq_refl); destruct (i_state m); try discriminate Hexp;
         destruct e; simpl;
         [right; right; repeat split; eexists; split; reflexivity|];
         right; left; repeat split; reflexivity);
    try (specialize (Hexp _ eq_refl); destruct (i_state m); discriminate Hexp).
  - destruct (String.eqb key "ctrl+c" || String.eqb key "q"); simpl;
      left; repeat split; reflexivity.
  - destruct (installState_eqb (i_state m) installStateDone
              || installState_eqb (i_state m) installStateError);
      simpl; left; repeat split; reflexivity.
Qed.

Lemma completes_work (s : installState) (msg : Msg) :
  completes s msg → ∃ w, msg_work msg = Some w ∧ install_awaits s = [w].
Proof.
  destruct s, msg as [| | | | | | | |? ? [e|]|[e|]|[e|]|[e|]|[e|]]; simpl; intros H;
    try contradiction; eexists; split; reflexivity.
Qed.

Lemma linear_turn_history (s s' : installState) (msg : Msg) (cmd : Cmd) (evs : list Msg) :
  linear_turn s s' msg cmd →
  (after_verify s = true → In (verifiedMsg None) evs) →
  (after_remove s = true → In (removedMsg None) evs) →
  (after_verify s' = true → In (verifiedMsg None) (evs ++ [msg]))
  ∧ (after_remove s' = true → In (removedMsg None) (evs ++ [msg])).
Proof.
  intros [[-> _]|[[Hn [Hc _]]|[-> _]]] Hv Hr.
  - split; intros H; apply in_or_app; left; auto.
  - destruct s; simpl in Hn; try discriminate Hn; injection Hn as <-; simpl in *;
      destruct msg as [| | | | | | | |? ? [e|]|[e|]|[e|]|[e|]|[e|]]; try contradiction;
      split; intros H; try discriminate H; apply in_or_app;
      first [left; auto; fail | right; left; reflexivity].
  - split; intros H; discriminate H.
Qed.

Section RuntimeProperties.

Variable filepath_Join : string → string → string.
Variable list_Update : list_Model → Msg → list_Model * option nat.

#[local] Abbreviation exec := (exec filepath_Join).
#[local] Abbreviation tea_step := (tea_step filepath_Join list_Update).
#[local] Abbreviation tea_run := (tea_run filepath_Join list_Update).

(** A command that is a unit of work ends with the message that reports
    it; any other command ends with a message of the library and leaves
    the host as it is. *)
Lemma exec_msg (h h' : host) (c : Cmd) (msg : Msg) :
  exec h c h' msg →
  match work_of c with
  | Some w => msg_work msg = Some w
  | None => quiet msg = true ∧ h' = h
  end.
Proof.
  intros H. destruct H; simpl; try reflexivity; try (split; reflexivity).
  unfold run_stepDownload.
  destruct (common.FindBuild _ _ _ _) as [[[r file] sha] [e|]]; simpl; [reflexivity|].
  destruct (downloadFile h file) as [h1 [e|]]; reflexivity.
Qed.

Lemma quiet_no_work (msg : Msg) : quiet msg = true → msg_work msg = None.
Proof. destruct msg; simpl; intros H; try discriminate H; reflexivity. Qed.

Lemma user_event_no_work (msg : Msg) : user_event msg → msg_work msg = None.
Proof. destruct msg; simpl; intros H; try contradiction; reflexivity. Qed.

(** While the pipeline holds the loop, with in flight exactly the work its
    state waits for: every turn of the loop is a linear turn and leaves in
    flight exactly the work the new state waits for. *)
Lemma install_turn (m : installModel) (h : host) (P : list Cmd)
    (msg : Msg) (cmd : Cmd) (cfg' : config) :
  works P = install_awaits (i_state m) →
  tea_step (mkConfig (InstallM m) h P) msg cmd cfg' →
  ∃ m', cfg_model cfg' = InstallM m'
        ∧ linear_turn (i_state m) (i_state m') msg cmd
        ∧ works (cfg_pending cfg') = install_awaits (i_state m').
Proof.
  intros Hinv Hstep. inversion Hstep as [M h0 P0 msg0 M' c Hu HU|M h0 P1 c0 P2 h' msg0 M' c He HU];
    subst; simpl in HU; destruct (installModel_Update m msg) as [m' c'] eqn:E;
    injection HU as <- <-; exists m'; simpl; (split; [reflexivity|]).
  - assert (Hnw := user_event_no_work msg Hu).
    assert (L := installModel_Update_linear m msg). rewrite E in L. simpl in L.
    assert (Hl : linear_turn (i_state m) (i_state m') msg c').
    { apply L. intros w Hw. congruence. }
    split; [exact Hl|]. rewrite works_app.
    destruct Hl as [[-> [_ Hc]]|[[_ [Hc _]]|[_ [[w [Hw _]] _]]]].
    + rewrite Hc, app_nil_r. exact Hinv.
    + apply completes_work in Hc as [w [Hw _]]. congruence.
    + congruence.
  - assert (Hm := exec_msg _ _ _ _ He).
    assert (L := installModel_Update_linear m msg). rewrite E in L. simpl in L.
    destruct (work_of c0) as [w|] eqn:Hw.
    + destruct (works_singleton P1 P2 c0 _ w Hinv) as [Haw Hrest];
        [destruct (i_state m); simpl; lia|exact Hw|].
      assert (Hl : linear_turn (i_state m) (i_state m') msg c').
      { apply L. intros w' Hw'. congruence. }
      split; [exact Hl|]. rewrite app_assoc, works_app, Hrest. simpl.
      destruct Hl as [[_ [Hn _]]|[[_ [_ Hc]]|[-> [_ Hc]]]].
      * congruence.
      * exact Hc.
      * exact Hc.
    + destruct Hm as [Hq _]. apply quiet_no_work in Hq.
      assert (Hl : linear_turn (i_state m) (i_state m') msg c').
      { apply L. intros w' Hw'. congruence. }
      split; [exact Hl|]. rewrite app_assoc, works_app, <- (works_remove_quiet P1 P2 c0 Hw), Hinv.
      destruct Hl as [[-> [_ Hc]]|[[_ [Hc _]]|[_ [[w [Hw' _]] _]]]].
      * rewrite Hc, app_nil_r. reflexivity.
      * apply completes_work in Hc as [w [Hw' _]]. congruence.
      * congruence.
Qed.

Lemma pipeline_inv_run (m0 : installModel) (h : host) (evs : list Msg) (cfg : config) :
  i_state m0 = installStateDownloading →
  tea_run (start (InstallM m0) h) evs cfg → pipeline_inv evs cfg.
Proof.
  intros H0 Hrun. induction Hrun as [|evs c msg cmd c' Hrun IH Hstep].
  - exists m0. simpl. rewrite H0. simpl. repeat split; intros H; discriminate H.
  - destruct IH as [m [Hm [Hw [Hv Hr]]]]. destruct c as [M hc P]. simpl in *. subst M.
    destruct (install_turn m hc P msg cmd c' Hw Hstep) as [m' [Hm' [Hl Hw']]].
    exists m'. split; [exact Hm'|]. split; [exact Hw'|].
    exact (linear_turn_history _ _ _ _ evs Hl Hv Hr).
Qed.

(** C3, as amended. Take any run of the event loop that starts with a
    pipeline in the Downloading state: the messages are keys and terminal
    events in any number and order, and the reports of the commands the
    pipeline itself has put in flight. At every point of the run: if the
    state is Extracting (or later) a verification-success message has been
    handled before; if the state is Configuring (or later) a
    removal-success message has been handled before; and the next turn
    either keeps the state and issues no work, or moves to the next state
    of the chain and issues exactly its work, or moves to the error
    state: no state is entered twice and none is skipped. *)
Theorem pipeline_order (version targetOS targetArch : string)
    (releases : list common.GoRelease) (h : host) (evs : list Msg) (cfg : config) :
  tea_run (start (InstallM (newInstallModel version targetOS targetArch releases)) h) evs cfg →
  ∃ m, cfg_model cfg = InstallM m
    ∧ (after_verify (i_state m) = true → In (verifiedMsg None) evs)
    ∧ (after_remove (i_state m) = true → In (removedMsg None) evs)
    ∧ (i_state m = installStateExtracting → In (verifiedMsg None) evs)
    ∧ (i_state m = installStateConfiguring → In (removedMsg None) evs)
    ∧ (∀ msg cmd cfg',
         tea_step cfg msg cmd cfg' →
         ∃ m', cfg_model cfg' = InstallM m'
               ∧ linear_turn (i_state m) (i_state m') msg cmd).
Proof.
  intros Hrun. apply pipeline_inv_run in Hrun; [|reflexivity].
  destruct Hrun as [m [Hm [Hw [Hv Hr]]]]. exists m.
  split; [exact Hm|]. split; [exact Hv|]. split; [exact Hr|].
  split; [intros E; apply Hv; rewrite E; reflexivity|].
  split; [intros E; apply Hr; rewrite E; reflexivity|].
  intros msg cmd cfg' Hstep. destruct cfg as [M hc P]. simpl in *. subst M.
  destruct (install_turn m hc P msg cmd cfg' Hw Hstep) as [m' [Hm' [Hl _]]].
  exists m'. split; assumption.
Qed.

End RuntimeProperties.

Lemma pipeline_order_witness :
  ∃ cfg m,
    tea_run join_clean list_Update_still (start (InstallM pipeline_example) host_dl)
      [downloadedMsg archive_example digest_abc None; verifiedMsg None; removedMsg None] cfg
    ∧ cfg_model cfg = InstallM m
    ∧ i_state m = installStateExtracting
    ∧ In (verifiedMsg None)
         [downloadedMsg archive_example digest_abc None; verifiedMsg None; removedMsg None].
Proof.
  pose (m1 := set_i_state (set_i_file pipeline_example archive_example digest_abc)
                installStateVerifying).
  pose (m2 := set_i_state m1 installStateRemoving).
  pose (m3 := set_i_state m2 installStateExtracting).
  pose (h1 := (run_stepDownload host_dl pipeline_example).1).
  pose (h3 := os_RemoveAll h1 "/usr/local/go").
  assert (E1 : (run_stepDownload host_dl pipeline_example).2
               = downloadedMsg archive_example digest_abc None) by (vm_compute; reflexivity).
  assert (E2 : (run_stepVerify h1 m1).2 = verifiedMsg None) by (vm_compute; reflexivity).
  assert (S1 : tea_step join_clean list_Update_still
                 (start (InstallM pipeline_example) host_dl)
                 (downloadedMsg archive_example digest_abc None) (stepVerify m1)
                 (mkConfig (InstallM m1) h1 [spinner_Tick; stepVerify m1])).
  { rewrite <- E1.
    apply (step_cmd join_clean list_Update_still (InstallM pipeline_example) host_dl
             [spinner_Tick] (stepDownload pipeline_example) [] h1 _ (InstallM m1) (stepVerify m1)).
    - apply exec_stepDownload.
    - rewrite E1. reflexivity.
    - discriminate. }
  assert (S2 : tea_step join_clean list_Update_still
                 (mkConfig (InstallM m1) h1 [spinner_Tick; stepVerify m1])
                 (verifiedMsg None) (stepRemove m2)
                 (mkConfig (InstallM m2) h1 [spinner_Tick; stepRemove m2])).
  { rewrite <- E2.
    apply (step_cmd join_clean list_Update_still (InstallM m1) h1
             [spinner_Tick] (stepVerify m1) [] h1 _ (InstallM m2) (stepRemove m2)).
    - apply exec_stepVerify.
    - rewrite E2. reflexivity.
    - discriminate. }
  assert (S3 : tea_step join_clean list_Update_still
                 (mkConfig (InstallM m2) h1 [spinner_Tick; stepRemove m2])
                 (removedMsg None) (stepExtract m3)
                 (mkConfig (InstallM m3) h3 [spinner_Tick; stepExtract m3])).
  { apply (step_cmd join_clean list_Update_still (InstallM m2) h1
             [spinner_Tick] (stepRemove m2) [] h3 _ (InstallM m3) (stepExtract m3)).
    - apply exec_stepRemove_ok.
    - reflexivity.
    - discriminate. }
  assert (R : tea_run join_clean list_Update_still (start (InstallM pipeline_example) host_dl)
                [downloadedMsg archive_example digest_abc None; verifiedMsg None; removedMsg None]
                (mkConfig (InstallM m3) h3 [spinner_Tick; stepExtract m3])).
  { eapply (run_more _ _ _ [_; _]); [|exact S3].
    eapply (run_more _ _ _ [_]); [|exact S2].
    eapply (run_more _ _ _ []); [|exact S1].
    apply run_start. }
  destruct (pipeline_order join_clean list_Update_still _ _ _ _ _ _ _ R)
    as [m [Hm [Hv _]]].
  exists (mkConfig (InstallM m3) h3 [spinner_Tick; stepExtract m3]), m3.
  split; [exact R|]. split; [reflexivity|]. split; [reflexivity|].
  simpl in Hm. injection Hm as <-. apply Hv. reflexivity.
Defined.

(** C3, as stated, fails: [Update] looks at the kind of the message and not
    at the state it is in. Fed a removal-success message in the
    Downloading state it enters Extracting with no verification message
    received; fed an extraction-success message it enters Configuring
    with no removal message received; and a second download report makes
    it enter Verifying again. *)
Lemma installModel_Update_out_of_order :
  i_state (install_feed pipeline_example [removedMsg None]) = installStateExtracting
  ∧ ¬ In (verifiedMsg None) [removedMsg None]
  ∧ i_state (install_feed pipeline_example [extractedMsg None]) = installStateConfiguring
  ∧ ¬ In (removedMsg None) [extractedMsg None]
  ∧ i_state (install_feed pipeline_example [downloadedMsg archive_example digest_abc None])
    = installStateVerifying
  ∧ i_state (install_feed pipeline_example
               [downloadedMsg archive_example digest_abc None;
                downloadedMsg archive_example digest_abc None])
    = installStateVerifying.
Proof.
  repeat split; try reflexivity; intros [H|[]]; discriminate H.
Qed.

(* ===================================================================== *)
(** * Properties of the orchestrator *)
(* ===================================================================== *)

Lemma key_in_cases (key : string) (keys : list string) :
  key_in key keys = true → In key keys.
Proof.
  induction keys as [|k keys IH]; simpl; intros H; [discriminate H|].
  apply orb_true_iff in H as [H|H]; [left; symmetry; apply String.eqb_eq, H|right; auto].
Qed.

Section OrchestratorProperties.

Variable filepath_Join : string → string → string.
Variable list_Update : list_Model → Msg → list_Model * option nat.

#[local] Abbreviation exec := (exec filepath_Join).
#[local] Abbreviation tea_step := (tea_step filepath_Join list_Update).
#[local] Abbreviation tea_run := (tea_run filepath_Join list_Update).
#[local] Abbreviation mainModel_Update := (mainModel_Update list_Update).
#[local] Abbreviation Update := (Update list_Update).

Lemma lib_cmd_no_work (c : option nat) : works (atoms (lib_cmd c)) = [].
Proof. destruct c; reflexivity. Qed.

Lemma main_after_switch_awaits (m : mainModel) (msg : Msg) (M' : Model) (c : Cmd) :
  main_after_switch list_Update m msg = (M', c) →
  awaits M' = main_awaits (m_state m) ∧ works (atoms c) = []
  ∧ ∃ m', M' = MainM m' ∧ m_state m' = m_state m.
Proof.
  unfold main_after_switch. intros H.
  destruct (mainState_eqb (m_state m) mainStateSelectVersion).
  - destruct (list_Update (m_list m) msg) as [l cmd]. injection H as <- <-.
    split; [reflexivity|]. split; [apply lib_cmd_no_work|]. eexists. split; reflexivity.
  - injection H as <- <-. split; [reflexivity|]. split; [reflexivity|].
    eexists. split; reflexivity.
Qed.

Lemma confirm_or_start_awaits (h : host) (m : mainModel) (M' : Model) (c : Cmd) :
  confirm_or_start h m = (M', c) → works (atoms c) = awaits M'.
Proof.
  unfold confirm_or_start. intros H.
  destruct (os_Stat_ok h "/usr/local/go"); injection H as <- <-; reflexivity.
Qed.

(** A message that reports no work leaves in flight what the orchestrator
    waits for, plus the work it issues. *)
Lemma mainModel_Update_no_work (h : host) (m : mainModel) (msg : Msg) (M' : Model) (c : Cmd) :
  (user_event msg ∨ quiet msg = true) →
  mainModel_Update h m msg = (M', c) →
  awaits M' = (main_awaits (m_state m) ++ works (atoms c))%list.
Proof.
  intros Hm H.
  destruct msg as [key| | |tag|? ? ?|?|? ?|?|? ? e|e|e|e|e]; simpl in Hm;
    try (destruct Hm as [[]|Hq]; discriminate Hq); simpl in H.
  - destruct (m_state m) eqn:Hs; simpl;
      repeat match type of H with
        | (if ?b then _ else _) = _ => destruct b
        | match ?o with Some _ => _ | None => _ end = _ => destruct o
        end;
      try (apply main_after_switch_awaits in H as [H1 [H2 _]]; rewrite H1, H2, Hs; reflexivity);
      try (apply confirm_or_start_awaits in H; rewrite H; reflexivity);
      try (injection H as <- <-; simpl; try rewrite Hs; reflexivity).
  - destruct (mainState_eqb (m_state m) mainStateCheckingDeps
              || mainState_eqb (m_state m) mainStateInstallingDeps
              || mainState_eqb (m_state m) mainStateFetching).
    + injection H as <- <-. simpl. rewrite app_nil_r. reflexivity.
    + apply main_after_switch_awaits in H as [H1 [H2 _]]. rewrite H1, H2, app_nil_r. reflexivity.
  - apply main_after_switch_awaits in H as [H1 [H2 _]]. rewrite H1, H2, app_nil_r. reflexivity.
  - apply main_after_switch_awaits in H as [H1 [H2 _]]. rewrite H1, H2, app_nil_r. reflexivity.
Qed.

(** The report of a unit of work leaves in flight exactly the work the new
    state waits for. *)
Lemma mainModel_Update_work (h : host) (m : mainModel) (msg : Msg) (M' : Model) (c : Cmd)
    (w : work) :
  msg_work msg = Some w →
  main_awaits (m_state m) = [w] →
  mainModel_Update h m msg = (M', c) →
  works (atoms c) = awaits M'.
Proof.
  intros Hw Ha H.
  destruct msg as [key| | |tag|? ? e|e|? e|e|? ? e|e|e|e|e]; simpl in Hw;
    try discriminate Hw; injection Hw as <-;
    try (destruct (m_state m); discriminate Ha); simpl in H.
  - destruct e; [injection H as <- <-; reflexivity|].
    destruct (length missing =? 0)%nat; injection H as <- <-; reflexivity.
  - destruct e; injection H as <- <-; reflexivity.
  - destruct e; [injection H as <- <-; reflexivity|].
    destruct (negb _).
    + destruct (snd _).
      * injection H as <- <-; reflexivity.
      * apply confirm_or_start_awaits in H. exact H.
    + injection H as <- <-; reflexivity.
Qed.

(** All along a session, the units of work in flight are exactly the one
    the current state waits for, if it waits for one. *)
Lemma session_turn (cfg : config) (msg : Msg) (cmd : Cmd) (cfg' : config) :
  works (cfg_pending cfg) = awaits (cfg_model cfg) →
  tea_step cfg msg cmd cfg' →
  works (cfg_pending cfg') = awaits (cfg_model cfg').
Proof.
  intros Hinv Hstep. destruct cfg as [M h P]. destruct M as [m|m].
  2:{ destruct (install_turn filepath_Join list_Update m h P msg cmd cfg' Hinv Hstep)
        as [m' [Hm' [_ Hw]]]. rewrite Hm'. exact Hw. }
  simpl in Hinv.
  inversion Hstep as [M h0 P0 msg0 M' c Hu HU|M h0 P1 c0 P2 h' msg0 M' c He HU]; subst; simpl in *.
  - rewrite works_app, Hinv. symmetry.
    apply (mainModel_Update_no_work h m msg _ cmd); [left; exact Hu|exact HU].
  - assert (Hm := exec_msg filepath_Join _ _ _ _ He).
    destruct (work_of c0) as [w|] eqn:Hw.
    + destruct (works_singleton P1 P2 c0 _ w Hinv) as [Haw Hrest];
        [destruct (m_state m); simpl; lia|exact Hw|].
      rewrite app_assoc, works_app, Hrest. simpl.
      apply (mainModel_Update_work h' m msg _ cmd w Hm Haw HU).
    + destruct Hm as [Hq _].
      rewrite app_assoc, works_app, <- (works_remove_quiet P1 P2 c0 Hw), Hinv. symmetry.
      apply (mainModel_Update_no_work h' m msg _ cmd); [right; exact Hq|exact HU].
Qed.

Lemma session_inv (M0 : Model) (h0 : host) (evs : list Msg) (cfg : config) :
  works (cfg_pending (start M0 h0)) = awaits M0 →
  tea_run (start M0 h0) evs cfg →
  works (cfg_pending cfg) = awaits (cfg_model cfg).
Proof.
  intros H0 Hrun. induction Hrun as [|evs c msg cmd c' Hrun IH Hstep].
  - exact H0.
  - exact (session_turn c msg cmd c' IH Hstep).
Qed.

(** The orchestrator hands over to a pipeline in its first state. *)
Lemma handover_downloading (h : host) (m : mainModel) (msg : Msg) (mi : installModel) (c : Cmd) :
  mainModel_Update h m msg = (InstallM mi, c) → i_state mi = installStateDownloading.
Proof.
  intros H.
  assert (Hsw : ∀ m0 msg0, main_after_switch list_Update m0 msg0 ≠ (InstallM mi, c)).
  { intros m0 msg0 E. apply main_after_switch_awaits in E as [_ [_ [m' [E _]]]]. discriminate E. }
  assert (Hst : ∀ m0, startInstallation m0 = (InstallM mi, c) →
                      i_state mi = installStateDownloading).
  { intros m0 E. injection E as <- _. reflexivity. }
  assert (Hcs : ∀ m0, confirm_or_start h m0 = (InstallM mi, c) →
                      i_state mi = installStateDownloading).
  { intros m0 E. unfold confirm_or_start in E.
    destruct (os_Stat_ok h "/usr/local/go"); [discriminate E|exact (Hst _ E)]. }
  destruct msg as [key| | |tag|? ? e|e|? e|e|? ? e|e|e|e|e]; simpl in H;
    try (exfalso; exact (Hsw _ _ H)).
  - destruct (m_state m);
      repeat match type of H with
        | (if ?b then _ else _) = _ => destruct b
        | match ?o with Some _ => _ | None => _ end = _ => destruct o
        end;
      first [exfalso; exact (Hsw _ _ H) | exact (Hcs _ H) | exact (Hst _ H) | discriminate H].
  - destruct (mainState_eqb (m_state m) mainStateCheckingDeps
              || mainState_eqb (m_state m) mainStateInstallingDeps
              || mainState_eqb (m_state m) mainStateFetching);
      [discriminate H|exfalso; exact (Hsw _ _ H)].
  - destruct e; [discriminate H|].
    destruct (length missing =? 0)%nat; discriminate H.
  - destruct e; discriminate H.
  - destruct e; [discriminate H|].
    destruct (negb _); [|discriminate H].
    destruct (snd _); [discriminate H|exact (Hcs _ H)].
  - destruct e; discriminate H.
Qed.

(** The order of the pipeline holds in whole sessions too: whenever the
    loop holds a pipeline past verification, or past removal, the success
    of that step has been reported before. *)
Lemma session_pipeline_order (goos goarch version : string) (h0 : host)
    (evs : list Msg) (cfg : config) (m : installModel) :
  tea_run (start (MainM (NewMainModel goos goarch version)) h0) evs cfg →
  cfg_model cfg = InstallM m →
  (after_verify (i_state m) = true → In (verifiedMsg None) evs)
  ∧ (after_remove (i_state m) = true → In (removedMsg None) evs).
Proof.
  intros Hrun. revert m.
  assert (Hinv : works (cfg_pending cfg) = awaits (cfg_model cfg)
                 ∧ ∀ m, cfg_model cfg = InstallM m →
                        (after_verify (i_state m) = true → In (verifiedMsg None) evs)
                        ∧ (after_remove (i_state m) = true → In (removedMsg None) evs));
    [|exact (proj2 Hinv)].
  induction Hrun as [|evs c msg cmd c' Hrun IH Hstep].
  - split; [reflexivity|]. intros m Hm. discriminate Hm.
  - destruct IH as [Hw Hh]. split; [exact (session_turn c msg cmd c' Hw Hstep)|].
    intros m' Hm'. destruct c as [M hc P]. destruct M as [m|m]; simpl in *.
    + assert (Hd : i_state m' = installStateDownloading).
      { inversion Hstep as [M h1 P0 msg0 M' c0 Hu HU|M h1 P1 c0 P2 h' msg0 M' c1 He HU];
          subst; simpl in *; subst; exact (handover_downloading _ _ _ _ _ HU). }
      rewrite Hd. split; intros H; discriminate H.
    + destruct (install_turn filepath_Join list_Update m hc P msg cmd c' Hw Hstep)
        as [m'' [Hm'' [Hl _]]].
      rewrite Hm'' in Hm'. injection Hm' as <-.
      destruct (Hh m eq_refl) as [Hv Hr].
      exact (linear_turn_history _ _ _ _ evs Hl Hv Hr).
Qed.

End OrchestratorProperties.

Lemma error_view_Sprintf (e : error) :
  fmt.Sprintf (nl ++ "✗ Error: %v" ++ nl ++ nl) [e] = nl ++ "✗ Error: " ++ e ++ nl ++ nl.
Proof. reflexivity. Qed.

Lemma error_views_distinct (ver goos arch : string) :
  error_view (common.err_not_found ver) ≠ error_view (common.err_no_archive ver goos arch).
Proof.
  unfold error_view. rewrite err_not_found_text, err_no_archive_text. intros H.
  injection H as H. rewrite !append_assoc' in H.
  apply append_inj_l in H. discriminate H.
Qed.

(** C9. When the configuration step reports success the pipeline moves to
    Done and quits. The Done view names the install location, but its
    format is given no operand for the version: whatever version was
    installed, the view prints [%!s(MISSING)] in its place. For the
    pipeline of [go1.22.1] the text of the view does not contain
    [go1.22.1]. *)
Theorem installModel_done_view :
  (∀ m, i_state (installModel_Update m (configuredMsg None)).1 = installStateDone
        ∧ (installModel_Update m (configuredMsg None)).2 = Quit)
  ∧ (∀ m, installModel_View (set_i_state m installStateDone)
          = [Render SuccessStyle done_text;
             Render InfoStyle
               (nl ++ "Please restart your terminal or run 'source' on your shell configuration file to apply the changes." ++ nl)])
  ∧ strings.Contains
      (view_text (installModel_View
         (installModel_Update (set_i_state pipeline_example installStateConfiguring)
            (configuredMsg None)).1))
      "/usr/local/go" = true
  ∧ strings.Contains
      (view_text (installModel_View
         (installModel_Update (set_i_state pipeline_example installStateConfiguring)
            (configuredMsg None)).1))
      "go1.22.1" = false.
Proof.
  split; [|split; [|split]].
  - intros m. split; reflexivity.
  - intros m. reflexivity.
  - vm_compute. reflexivity.
  - vm_compute. reflexivity.
Qed.

(** The Done view of the orchestrator, which the program never shows,
    does print the version. *)
Example mainModel_done_view_has_version :
  strings.Contains
    (view_text (mainModel_View
       (set_m_state (NewMainModel "linux" "amd64" "1.22.1") mainStateDone)))
    "go1.22.1" = true.
Proof. vm_compute. reflexivity. Qed.

Section SessionProperties.

#[local] Arguments key_in : simpl never.

Variable filepath_Join : string → string → string.
Variable list_Update : list_Model → Msg → list_Model * option nat.

#[local] Abbreviation exec := (exec filepath_Join).
#[local] Abbreviation tea_step := (tea_step filepath_Join list_Update).
#[local] Abbreviation tea_run := (tea_run filepath_Join list_Update).
#[local] Abbreviation tea_ends := (tea_ends filepath_Join).
#[local] Abbreviation mainModel_Update := (mainModel_Update list_Update).
#[local] Abbreviation Update := (Update list_Update).

Lemma start_main_inv (goos goarch version : string) (h0 : host) :
  works (cfg_pending (start (MainM (NewMainModel goos goarch version)) h0))
  = awaits (MainM (NewMainModel goos goarch version)).
Proof. reflexivity. Qed.

Lemma confirm_or_start_exists (h : host) (m : mainModel) :
  os_Stat_ok h "/usr/local/go" = true →
  confirm_or_start h m = (MainM (set_m_state m mainStateConfirmOverride), CmdNil).
Proof. intros H. unfold confirm_or_start. rewrite H. reflexivity. Qed.

(** With an install root on the host, [Update] of the orchestrator hands
    over to the pipeline only on [y] or [Y] in the confirmation state. *)
Lemma start_only_confirmed (h : host) (m : mainModel) (msg : Msg) (mi : installModel) (c : Cmd) :
  os_Stat_ok h "/usr/local/go" = true →
  mainModel_Update h m msg = (InstallM mi, c) →
  m_state m = mainStateConfirmOverride ∧ (msg = KeyMsg "y" ∨ msg = KeyMsg "Y").
Proof.
  intros Hs H.
  assert (Hsw : ∀ m0 msg0, main_after_switch list_Update m0 msg0 ≠ (InstallM mi, c)).
  { intros m0 msg0 E. apply main_after_switch_awaits in E as [_ [_ [m' [E _]]]]. discriminate E. }
  assert (Hcs : ∀ m0, confirm_or_start h m0 ≠ (InstallM mi, c)).
  { intros m0 E. rewrite confirm_or_start_exists in E by exact Hs. discriminate E. }
  destruct msg as [key| | |tag|? ? e|e|? e|e|? ? e|e|e|e|e]; simpl in H;
    try (exfalso; exact (Hsw _ _ H)).
  - destruct (m_state m) eqn:Hst; try (exfalso; exact (Hsw _ _ H)).
    + destruct (key_in key ["y"; "Y"]); [discriminate H|].
      destruct (key_in key ["n"; "N"]); [discriminate H|].
      destruct (key_in key ["q"; "ctrl+c"]); [discriminate H|]. exfalso; exact (Hsw _ _ H).
    + destruct (key_in key ["ctrl+c"; "q"]); [discriminate H|].
      destruct (key_in key ["enter"]); [|exfalso; exact (Hsw _ _ H)].
      destruct (list_SelectedItem (m_list m)); exfalso; [exact (Hcs _ H)|exact (Hsw _ _ H)].
    + split; [reflexivity|].
      destruct (key_in key ["y"; "Y"]) eqn:Hk.
      * apply key_in_cases in Hk as [<-|[<-|[]]]; [left|right]; reflexivity.
      * destruct (key_in key ["n"; "N"; "q"; "ctrl+c"]); [discriminate H|].
        exfalso; exact (Hsw _ _ H).
  - destruct (mainState_eqb (m_state m) mainStateCheckingDeps
              || mainState_eqb (m_state m) mainStateInstallingDeps
              || mainState_eqb (m_state m) mainStateFetching);
      [discriminate H|exfalso; exact (Hsw _ _ H)].
  - destruct e; [discriminate H|].
    destruct (length missing =? 0)%nat; discriminate H.
  - destruct e; discriminate H.
  - destruct e; [discriminate H|]. simpl in H.
    destruct (negb _); [|discriminate H].
    destruct (snd _); [discriminate H|]. exfalso. exact (Hcs _ H).
  - destruct e; discriminate H.
Qed.

(** With a [Quit] in flight the loop can end at once, and [Quit] leaves
    the host as it is. *)
Lemma quit_in_flight_ends (c : config) :
  In Quit (cfg_pending c) → tea_ends c (cfg_host c).
Proof.
  destruct c as [M h P]. simpl. intros Hin.
  apply in_split in Hin as [P1 [P2 ->]].
  apply (ends_quit filepath_Join M h P1 P2 h QuitMsg). apply exec_Quit.
Qed.

(** While the orchestrator asks whether to overwrite, with no work in
    flight, a turn of the loop on any message but the keys [y] and [Y]
    leaves the model and the host as they are, puts no work in flight and
    takes no [Quit] out of flight. *)
Lemma confirm_state_turn (m : mainModel) (h : host) (P : list Cmd)
    (msg : Msg) (cmd : Cmd) (cfg' : config) :
  m_state m = mainStateConfirmOverride → works P = [] → In Quit P →
  msg ≠ KeyMsg "y" → msg ≠ KeyMsg "Y" →
  tea_step (mkConfig (MainM m) h P) msg cmd cfg' →
  cfg_model cfg' = MainM m ∧ cfg_host cfg' = h
  ∧ works (cfg_pending cfg') = [] ∧ In Quit (cfg_pending cfg').
Proof.
  intros Hst Hw Hin Hy HY Hstep.
  assert (Hq : ∀ h1 msg1, msg_work msg1 = None → (user_event msg1 ∨ quiet msg1 = true) →
               msg1 ≠ KeyMsg "y" → msg1 ≠ KeyMsg "Y" →
               ∃ c, mainModel_Update h1 m msg1 = (MainM m, c) ∧ works (atoms c) = []).
  { intros h1 msg1 Hn Hm Hy1 HY1.
    destruct msg1 as [key| | |tag|? ? e|e|? e|e|? ? e|e|e|e|e]; simpl in Hn, Hm;
      try discriminate Hn; try (destruct Hm as [[]|Hm]; discriminate Hm);
      try (exists CmdNil; simpl; rewrite ?Hst; simpl; unfold main_after_switch;
           rewrite ?Hst; split; reflexivity).
    simpl. rewrite Hst.
    destruct (key_in key ["y"; "Y"]) eqn:Hk.
    { apply key_in_cases in Hk as [<-|[<-|[]]]; [contradiction Hy1|contradiction HY1];
        reflexivity. }
    destruct (key_in key ["n"; "N"; "q"; "ctrl+c"]).
    - exists Quit. split; reflexivity.
    - exists CmdNil. unfold main_after_switch. rewrite Hst. split; reflexivity. }
  inversion Hstep as [M h0 P0 msg0 M' c Hu HU|M h0 P1 c0 P2 h' msg0 M' c He HU Hnq];
    subst; simpl in *.
  - destruct (Hq h msg (user_event_no_work msg Hu) (or_introl Hu) Hy HY) as [c1 [E Hc1]].
    rewrite E in HU. injection HU as <- <-.
    split; [reflexivity|]. split; [reflexivity|]. split.
    + rewrite works_app, Hw, Hc1. reflexivity.
    + apply in_or_app. left. exact Hin.
  - assert (Hm := exec_msg filepath_Join _ _ _ _ He).
    destruct (work_of c0) as [w|] eqn:Hw0.
    + exfalso. rewrite works_app in Hw. unfold works in Hw. simpl in Hw. rewrite Hw0 in Hw.
      destruct (omap work_of P1); discriminate Hw.
    + destruct Hm as [Hqm ->].
      destruct (Hq h msg (quiet_no_work msg Hqm) (or_intror Hqm) Hy HY) as [c1 [E Hc1]].
      rewrite E in HU. injection HU as <- <-.
      split; [reflexivity|]. split; [reflexivity|]. split.
      * rewrite app_assoc, works_app, Hc1, <- (works_remove_quiet P1 P2 c0 Hw0), Hw.
        reflexivity.
      * apply in_app_or in Hin as [Hin|[Hin|Hin]].
        -- apply in_or_app. left. exact Hin.
        -- contradiction (Hnq Hin).
        -- apply in_or_app. right. apply in_or_app. left. exact Hin.
Qed.

Lemma confirm_state_run (m : mainModel) (h : host) (P : list Cmd) (evs : list Msg)
    (cfg : config) :
  m_state m = mainStateConfirmOverride → works P = [] → In Quit P →
  tea_run (mkConfig (MainM m) h P) evs cfg →
  ¬ said_yes evs →
  cfg_model cfg = MainM m ∧ cfg_host cfg = h
  ∧ works (cfg_pending cfg) = [] ∧ In Quit (cfg_pending cfg).
Proof.
  intros Hst Hw Hin Hrun. induction Hrun as [|evs c msg cmd c' Hrun IH Hstep]; intros Hno.
  - auto.
  - assert (Hold : ¬ said_yes evs).
    { intros [H|H]; apply Hno; [left|right]; apply in_or_app; left; exact H. }
    destruct (IH Hold) as [Hm [Hh [Hp Hq]]]. destruct c as [M hc Pc]. simpl in *. subst M hc.
    apply (confirm_state_turn m h Pc msg cmd c' Hst Hp Hq); [| |exact Hstep].
    + intros ->. apply Hno. left. apply in_or_app. right. left. reflexivity.
    + intros ->. apply Hno. right. apply in_or_app. right. left. reflexivity.
Qed.


(** Once the orchestrator is in its error state with no work in flight,
    every turn of the loop leaves it there and leaves the host as it is. *)
Lemma error_state_turn (m : mainModel) (h : host) (P : list Cmd)
    (msg : Msg) (cmd : Cmd) (cfg' : config) :
  m_state m = mainStateError → works P = [] →
  tea_step (mkConfig (MainM m) h P) msg cmd cfg' →
  cfg_model cfg' = MainM m ∧ cfg_host cfg' = h ∧ works (cfg_pending cfg') = [].
Proof.
  intros Hst Hw Hstep.
  assert (Hq : ∀ h1 msg1, msg_work msg1 = None → (user_event msg1 ∨ quiet msg1 = true) →
               mainModel_Update h1 m msg1 = (MainM m, CmdNil)).
  { intros h1 msg1 Hn Hm.
    destruct msg1; simpl in Hn, Hm; try discriminate Hn;
      try (destruct Hm as [[]|Hm]; discriminate Hm);
      simpl; unfold main_after_switch; rewrite Hst; reflexivity. }
  inversion Hstep as [M h0 P0 msg0 M' c Hu HU|M h0 P1 c0 P2 h' msg0 M' c He HU]; subst; simpl in *.
  - rewrite (Hq h msg (user_event_no_work msg Hu) (or_introl Hu)) in HU.
    injection HU as <- <-. rewrite app_nil_r. auto.
  - assert (Hm := exec_msg filepath_Join _ _ _ _ He).
    destruct (work_of c0) as [w|] eqn:Hw0.
    + exfalso. rewrite works_app in Hw. unfold works in Hw. simpl in Hw. rewrite Hw0 in Hw.
      destruct (omap work_of P1); discriminate Hw.
    + destruct Hm as [Hqm ->].
      rewrite (Hq h msg (quiet_no_work msg Hqm) (or_intror Hqm)) in HU.
      injection HU as <- <-. rewrite app_nil_r.
      rewrite <- (works_remove_quiet P1 P2 c0 Hw0). auto.
Qed.

Lemma error_state_run (m : mainModel) (h : host) (P : list Cmd) (evs : list Msg) (cfg : config) :
  m_state m = mainStateError → works P = [] →
  tea_run (mkConfig (MainM m) h P) evs cfg →
  cfg_model cfg = MainM m ∧ cfg_host cfg = h ∧ works (cfg_pending cfg) = [].
Proof.
  intros Hst Hw Hrun. induction Hrun as [|evs c msg cmd c' Hrun IH Hstep].
  - auto.
  - destruct IH as [Hm [Hh Hp]]. destruct c as [M hc Pc]. simpl in *. subst M hc.
    exact (error_state_turn m h Pc msg cmd c' Hst Hp Hstep).
Qed.

(** C5. At any point of a session where the orchestrator asks whether to
    install the missing dependencies, whatever they are, the answer [n] or
    [N] puts it in the error state with the error "dependencies are
    required for Go installation" and issues [Quit]; the error view shows
    that error. Whatever the loop does afterwards, the model stays that
    one and the host is not touched: the pipeline is never started. *)
Theorem deps_decline_is_fatal (goos goarch version : string) (h0 : host)
    (evs : list Msg) (cfg : config) (m : mainModel) (key : string) :
  tea_run (start (MainM (NewMainModel goos goarch version)) h0) evs cfg →
  cfg_model cfg = MainM m →
  m_state m = mainStateConfirmInstallDeps →
  In key ["n"; "N"] →
  Update (cfg_host cfg) (cfg_model cfg) (KeyMsg key) = (MainM (declined m), Quit)
  ∧ tea_step cfg (KeyMsg key) Quit
      (mkConfig (MainM (declined m)) (cfg_host cfg) (cfg_pending cfg ++ [Quit]))
  ∧ View (MainM (declined m))
    = [Render ErrorStyle
         (nl ++ "✗ Error: dependencies are required for Go installation" ++ nl ++ nl)]
  ∧ (∀ evs' cfg',
       tea_run (mkConfig (MainM (declined m)) (cfg_host cfg) (cfg_pending cfg ++ [Quit]))
         evs' cfg' →
       cfg_model cfg' = MainM (declined m) ∧ cfg_host cfg' = cfg_host cfg).
Proof.
  intros Hrun Hm Hst Hk.
  assert (Hinv := session_inv filepath_Join list_Update _ _ _ _
                    (start_main_inv goos goarch version h0) Hrun).
  rewrite Hm in Hinv. simpl in Hinv. rewrite Hst in Hinv. simpl in Hinv.
  assert (HU : Update (cfg_host cfg) (cfg_model cfg) (KeyMsg key) = (MainM (declined m), Quit)).
  { rewrite Hm. simpl. rewrite Hst. destruct Hk as [<-|[<-|[]]]; reflexivity. }
  split; [exact HU|]. split; [|split].
  - destruct cfg as [M h P]. simpl in *.
    apply (step_user filepath_Join list_Update M h P (KeyMsg key) (MainM (declined m)) Quit);
      [exact I|exact HU].
  - reflexivity.
  - intros evs' cfg' Hrun'.
    destruct (error_state_run (declined m) (cfg_host cfg) (cfg_pending cfg ++ [Quit]) evs' cfg')
      as [H1 [H2 _]]; auto.
    rewrite works_app, Hinv. reflexivity.
Qed.

(** C6, as amended. When build selection fails for a pre-selected version,
    with either error, the orchestrator drops the error and shows the
    version picker over the whole catalog; what it shows depends neither
    on the error nor on the version. The error is shown only when build
    selection fails in the download step of the pipeline: the step
    reports it, the pipeline goes to its error state, and the error view
    prints the text of the error, which is different for the two
    failures. *)
Theorem build_failure_presentation (h : host) (m : mainModel)
    (releases : list common.GoRelease) (e : error) :
  m_selectedVer m ≠ "" →
  snd (common.FindBuild releases (m_selectedVer m) (m_targetOS m) (m_targetArch m)) = Some e →
  (∃ m', mainModel_Update h m (fetchedMsg releases None) = (MainM m', CmdNil)
         ∧ m_state m' = mainStateSelectVersion
         ∧ m_err m' = m_err m
         ∧ mainModel_View m'
           = [Text nl; ListView (mkList (release_items 0 releases) 0 "Select Go Version" false true)])
  ∧ (∀ hp mi,
       i_releases mi = releases → i_version mi = m_selectedVer m →
       i_targetOS mi = m_targetOS m → i_targetArch mi = m_targetArch m →
       run_stepDownload hp mi = (hp, downloadedMsg "" "" (Some e))
       ∧ installModel_View (installModel_Update mi (downloadedMsg "" "" (Some e))).1
         = error_view e)
  ∧ (∀ ver goos arch,
       error_view (common.err_not_found ver)
       ≠ error_view (common.err_no_archive ver goos arch)).
Proof.
  intros Hv Hb. split; [|split].
  - eexists. simpl.
    destruct (String.eqb_spec (m_selectedVer m) "") as [E|_]; [contradiction|]. simpl.
    rewrite Hb. unfold show_picker. split; [reflexivity|]. repeat split.
  - intros hp mi Hr Hver Hos Harch. split.
    + unfold run_stepDownload. rewrite Hr, Hver, Hos, Harch.
      destruct (common.FindBuild _ _ _ _) as [[[r file] sha] err]. simpl in Hb. subst err.
      reflexivity.
    + reflexivity.
  - apply error_views_distinct.
Qed.

End SessionProperties.

(** The session on Debian with the install root in place: nothing is
    missing, and the version given on the command line has an archive. *)
Lemma run_confirming :
  tea_run join_clean list_Update_still
    (start (MainM (NewMainModel "linux" "amd64" "1.22.1")) host_dl)
    [depsCheckMsg [] distro_debian None; fetchedMsg catalog_example None] config_confirming.
Proof.
  eapply (run_more _ _ _ [_]).
  - eapply (run_more _ _ _ []); [apply run_start|].
    apply (step_cmd join_clean list_Update_still
             (MainM (NewMainModel "linux" "amd64" "1.22.1")) host_dl
             [spinner_Tick] checkDependencies [] host_dl
             (depsCheckMsg [] distro_debian None)
             (MainM (set_m_state
                       (set_m_distro (NewMainModel "linux" "amd64" "1.22.1") distro_debian)
                       mainStateFetching))
             (Batch spinner_Tick fetchReleases)).
    + apply exec_checkDependencies.
    + reflexivity.
    + discriminate.
  - apply (step_cmd join_clean list_Update_still
             (MainM (set_m_state
                       (set_m_distro (NewMainModel "linux" "amd64" "1.22.1") distro_debian)
                       mainStateFetching)) host_dl
             [spinner_Tick; spinner_Tick] fetchReleases [] host_dl
             (fetchedMsg catalog_example None) (MainM confirming_session) CmdNil).
    + apply exec_fetchReleases.
    + reflexivity.
    + discriminate.
Qed.

Lemma step_decline :
  tea_step join_clean list_Update_still config_confirming (KeyMsg "n") Quit config_declined.
Proof.
  apply (step_user join_clean list_Update_still (MainM confirming_session) host_dl
           [spinner_Tick; spinner_Tick] (KeyMsg "n") (MainM confirming_session) Quit I).
  reflexivity.
Qed.



Lemma deps_decline_is_fatal_witness :
  ∃ cfg,
    tea_run join_clean list_Update_still
      (start (MainM (NewMainModel "linux" "amd64" "1.22.1")) host_dl)
      [depsCheckMsg [dep_git] distro_debian None] cfg
    ∧ cfg_model cfg = MainM asking_example
    ∧ Update list_Update_still (cfg_host cfg) (cfg_model cfg) (KeyMsg "n")
      = (MainM (declined asking_example), Quit)
    ∧ View (MainM (declined asking_example))
      = [Render ErrorStyle
           (nl ++ "✗ Error: dependencies are required for Go installation" ++ nl ++ nl)].
Proof.
  assert (R : tea_run join_clean list_Update_still
                (start (MainM (NewMainModel "linux" "amd64" "1.22.1")) host_dl)
                [depsCheckMsg [dep_git] distro_debian None]
                (mkConfig (MainM asking_example) host_dl [spinner_Tick])).
  { eapply (run_more _ _ _ []); [apply run_start|].
    apply (step_cmd join_clean list_Update_still
             (MainM (NewMainModel "linux" "amd64" "1.22.1")) host_dl
             [spinner_Tick] checkDependencies [] host_dl
             (depsCheckMsg [dep_git] distro_debian None) (MainM asking_example) CmdNil).
    - apply exec_checkDependencies.
    - reflexivity.
    - discriminate. }
  exists (mkConfig (MainM asking_example) host_dl [spinner_Tick]).
  destruct (deps_decline_is_fatal join_clean list_Update_still _ _ _ _ _ _
              asking_example "n" R eq_refl eq_refl (or_introl eq_refl))
    as [H1 [_ [H3 _]]].
  split; [exact R|]. split; [reflexivity|]. split; [exact H1|exact H3].
Defined.

Lemma build_failure_presentation_witness :
  snd (common.FindBuild catalog_example "go1.21.0" "linux" "amd64")
  = Some "version go1.21.0 exists but no archive for linux/amd64"
  ∧ ∃ m', mainModel_Update list_Update_still host_dl (fetching "1.21.0")
            (fetchedMsg catalog_example None) = (MainM m', CmdNil)
          ∧ m_state m' = mainStateSelectVersion
          ∧ m_err m' = None.
Proof.
  split; [reflexivity|].
  destruct (build_failure_presentation list_Update_still host_dl (fetching "1.21.0")
              catalog_example "version go1.21.0 exists but no archive for linux/amd64")
    as [[m' [H1 [H2 [H3 _]]]] _]; [discriminate|reflexivity|].
  exists m'. split; [exact H1|]. split; [exact H2|exact H3].
Defined.

(** C6, as stated, fails: a pre-selected version that the catalog lacks
    and one that it has without an archive for the platform put the same
    view on the screen, the version picker, and neither error. *)
Lemma preselected_failures_shown_alike :
  snd (common.FindBuild catalog_example "go1.21.0" "linux" "amd64")
  = Some "version go1.21.0 exists but no archive for linux/amd64"
  ∧ snd (common.FindBuild catalog_example "go1.9" "linux" "amd64")
    = Some "version go1.9 not found"
  ∧ View (mainModel_Update list_Update_still host_dl (fetching "1.21.0")
            (fetchedMsg catalog_example None)).1
    = View (mainModel_Update list_Update_still host_dl (fetching "1.9")
              (fetchedMsg catalog_example None)).1
  ∧ (mainModel_Update list_Update_still host_dl (fetching "1.21.0")
       (fetchedMsg catalog_example None)).2
    = (mainModel_Update list_Update_still host_dl (fetching "1.9")
         (fetchedMsg catalog_example None)).2.
Proof. repeat split; reflexivity. Qed.


(* ===================================================================== *)
(** * Further properties of package common *)
(* ===================================================================== *)

Lemma first_archive_sound (files : list common.GoFile) (goos arch : string) (f : common.GoFile) :
  common.first_archive files goos arch = Some f →
  In f files ∧ common.is_archive_for goos arch f = true.
Proof.
  induction files as [|g files IH]; simpl; intros H; [discriminate H|].
  destruct (common.is_archive_for goos arch g) eqn:E.
  - injection H as <-. split; [left; reflexivity|exact E].
  - destruct (IH H) as [Hin Hf]. split; [right; exact Hin|exact Hf].
Qed.

Lemma first_archive_none_inv (files : list common.GoFile) (goos arch : string) :
  common.first_archive files goos arch = None →
  ∀ f, In f files → common.is_archive_for goos arch f = false.
Proof.
  induction files as [|g files IH]; simpl; intros H f Hf; [contradiction|].
  destruct (common.is_archive_for goos arch g) eqn:E; [discriminate H|].
  destruct Hf as [<-|Hf]; [exact E|exact (IH H f Hf)].
Qed.

(** X1. When [FindBuild] returns no error, the release it returns is in
    the catalog and has the requested version, and the file name and the
    digest it returns are those of one file of that release, of kind
    archive and of the requested os and arch. *)
Theorem FindBuild_sound (all : list common.GoRelease) (ver goos arch : string)
    (r : common.GoRelease) (file sha : string) :
  common.FindBuild all ver goos arch = (r, file, sha, None) →
  In r all ∧ common.Version r = ver
  ∧ ∃ f, In f (common.Files r)
         ∧ common.Kind f = "archive" ∧ common.OS f = goos ∧ common.Arch f = arch
         ∧ file = common.Filename f ∧ sha = common.Sha256 f.
Proof.
  induction all as [|r0 all IH]; simpl; intros H; [discriminate H|].
  destruct (String.eqb_spec (common.Version r0) ver) as [E|NE]; simpl in H.
  - destruct (common.first_archive (common.Files r0) goos arch) as [f|] eqn:Hf;
      [|discriminate H].
    injection H as <- <- <-. apply first_archive_sound in Hf as [Hin Hm].
    split; [left; reflexivity|]. split; [exact E|]. exists f.
    unfold common.is_archive_for in Hm.
    apply andb_true_iff in Hm as [Hm Ha]. apply andb_true_iff in Hm as [Hk Ho].
    apply String.eqb_eq in Hk, Ho, Ha. auto 10.
  - destruct (IH H) as [Hin Hrest]. split; [right; exact Hin|exact Hrest].
Qed.

Lemma FindBuild_sound_witness :
  ∃ f, In f (common.Files (nth 0 catalog_example common.GoRelease_zero))
       ∧ common.Kind f = "archive"
       ∧ "go1.22.1.linux-amd64.tar.gz" = common.Filename f.
Proof.
  destruct (FindBuild_sound catalog_example "go1.22.1" "linux" "amd64"
              (nth 0 catalog_example common.GoRelease_zero)
              "go1.22.1.linux-amd64.tar.gz" digest_abc eq_refl)
    as [_ [_ [f [H1 [H2 [_ [_ [H3 _]]]]]]]].
  exists f. auto.
Defined.

(** X2. When [FindBuild] returns an error, the file name and the digest it
    returns are both empty, and the error tells which case it is: either
    no release of the catalog has the version, and the release returned
    is the zero value; or the release returned is in the catalog, has the
    version, and none of its files is an archive for the os and arch. *)
Theorem FindBuild_failure (all : list common.GoRelease) (ver goos arch : string)
    (r : common.GoRelease) (file sha : string) (e : error) :
  common.FindBuild all ver goos arch = (r, file, sha, Some e) →
  file = "" ∧ sha = ""
  ∧ ((e = common.err_not_found ver ∧ r = common.GoRelease_zero
      ∧ ∀ r', In r' all → common.Version r' ≠ ver)
     ∨ (e = common.err_no_archive ver goos arch ∧ In r all ∧ common.Version r = ver
        ∧ ∀ f, In f (common.Files r) → common.is_archive_for goos arch f = false)).
Proof.
  induction all as [|r0 all IH]; simpl; intros H.
  - injection H as <- <- <- <-. split; [reflexivity|]. split; [reflexivity|].
    left. split; [reflexivity|]. split; [reflexivity|]. intros r' [].
  - destruct (String.eqb_spec (common.Version r0) ver) as [E|NE]; simpl in H.
    + destruct (common.first_archive (common.Files r0) goos arch) as [f|] eqn:Hf;
        [discriminate H|].
      injection H as <- <- <- <-. split; [reflexivity|]. split; [reflexivity|].
      right. split; [reflexivity|]. split; [left; reflexivity|]. split; [exact E|].
      exact (first_archive_none_inv _ _ _ Hf).
    + destruct (IH H) as [Hf [Hs [[He [Hr Hall]]|[He [Hin Hrest]]]]];
        (split; [exact Hf|]; split; [exact Hs|]).
      * left. split; [exact He|]. split; [exact Hr|].
        intros r' [<-|Hr']; [exact NE|exact (Hall r' Hr')].
      * right. split; [exact He|]. split; [right; exact Hin|exact Hrest].
Qed.

Lemma FindBuild_failure_witness :
  common.FindBuild catalog_example "go1.21.0" "linux" "amd64"
  = (nth 1 catalog_example common.GoRelease_zero, "", "",
     Some (common.err_no_archive "go1.21.0" "linux" "amd64")).
Proof.
  destruct (FindBuild_failure catalog_example "go1.21.0" "linux" "amd64"
              (nth 1 catalog_example common.GoRelease_zero) "" ""
              "version go1.21.0 exists but no archive for linux/amd64" eq_refl)
    as [_ [_ [[He _]|[He _]]]]; [discriminate He|].
  rewrite <- He. reflexivity.
Defined.

(** X3. Only the first release with the requested version counts: what
    follows it in the catalog, also a second release with the same
    version that has the archive the first one lacks, is not looked at. *)
Theorem FindBuild_first_release_only (pre post post' : list common.GoRelease)
    (r : common.GoRelease) (ver goos arch : string) :
  common.Version r = ver →
  common.FindBuild (pre ++ r :: post)%list ver goos arch
  = common.FindBuild (pre ++ r :: post')%list ver goos arch.
Proof.
  intros Hr. induction pre as [|r0 pre IH]; simpl.
  - rewrite Hr, String.eqb_refl. reflexivity.
  - rewrite IH. reflexivity.
Qed.

Lemma FindBuild_first_release_only_witness :
  common.FindBuild
    [ common.mkGoRelease "go1.21.0" [];
      common.mkGoRelease "go1.21.0"
        [common.mkGoFile "go1.21.0.linux-amd64.tar.gz" "linux" "amd64" "archive" "s"] ]
    "go1.21.0" "linux" "amd64"
  = common.FindBuild [common.mkGoRelease "go1.21.0" []] "go1.21.0" "linux" "amd64".
Proof.
  apply (FindBuild_first_release_only []
           [common.mkGoRelease "go1.21.0"
              [common.mkGoFile "go1.21.0.linux-amd64.tar.gz" "linux" "amd64" "archive" "s"]]
           [] (common.mkGoRelease "go1.21.0" []) "go1.21.0" "linux" "amd64" eq_refl).
Defined.

(** X4. [NormalizeVersion] returns the empty string only for the empty
    string; any other result starts with [go] and is the argument itself
    or the argument with [go] in front. Nothing else about the argument
    is checked. *)
Theorem NormalizeVersion_shape (v : string) :
  (common.NormalizeVersion v = "" ↔ v = "")
  ∧ (v ≠ "" → strings.HasPrefix (common.NormalizeVersion v) "go" = true)
  ∧ (common.NormalizeVersion v = v ∨ common.NormalizeVersion v = "go" ++ v).
Proof.
  unfold common.NormalizeVersion, strings.HasPrefix.
  destruct (String.eqb_spec v "") as [->|NE]; simpl.
  - split; [tauto|]. split; [intros H; contradiction|left; reflexivity].
  - destruct (String.prefix "go" v) eqn:Hp; simpl.
    + split; [tauto|]. split; [intros _; exact Hp|left; reflexivity].
    + split; [split; [discriminate|intros E; contradiction]|].
      split; [intros _; apply (prefix_app "go" v)|right; reflexivity].
Qed.

Lemma NormalizeVersion_shape_witness :
  strings.HasPrefix (common.NormalizeVersion "latest") "go" = true.
Proof. apply (NormalizeVersion_shape "latest"). discriminate. Defined.

(* ===================================================================== *)
(** * Further properties of the steps *)
(* ===================================================================== *)

Lemma os_Create_frame (h h1 : host) (name : string) :
  os_Create h name = inl h1 →
  (∀ p, p ≠ name → fs h1 !! p = fs h !! p)
  ∧ can_create h1 = can_create h ∧ disk_full h1 = disk_full h
  ∧ http_get h1 = http_get h ∧ home h1 = home h ∧ env_SHELL h1 = env_SHELL h.
Proof.
  unfold os_Create. intros H.
  destruct (fs h !! name) as [[f|]|] eqn:E.
  - destruct (mode_w f); [|discriminate H]. injection H as <-. simpl.
    split; [|auto 10]. intros p Hp. apply lookup_insert_ne. congruence.
  - discriminate H.
  - destruct (can_create h name); [|discriminate H]. injection H as <-. simpl.
    split; [|auto 10]. intros p Hp. apply lookup_insert_ne. congruence.
Qed.

Lemma downloadFile_lookup_other (h : host) (name p : string) :
  p ≠ name → fs (downloadFile h name).1 !! p = fs h !! p.
Proof.
  intros Hp. unfold downloadFile.
  destruct (os_Create h name) as [h1|e] eqn:Hc; [|reflexivity].
  destruct (os_Create_frame h h1 name Hc) as [Hfr _].
  destruct (http_get h1 _) as [e|st body berr]; simpl; [exact (Hfr p Hp)|].
  destruct (disk_full h1 && negb (String.eqb body "")); simpl; [exact (Hfr p Hp)|].
  destruct (fs h1 !! name) as [[f|]|]; simpl; try exact (Hfr p Hp).
  rewrite lookup_insert_ne by congruence. exact (Hfr p Hp).
Qed.

(** X5. Whatever its outcome, [downloadFile] changes nothing on the host
    but the file it is asked to write: every other path holds what it
    held, and the network and the environment are the same. *)
Theorem downloadFile_frame (h : host) (name p : string) :
  p ≠ name →
  fs (downloadFile h name).1 !! p = fs h !! p
  ∧ http_get (downloadFile h name).1 = http_get h
  ∧ home (downloadFile h name).1 = home h
  ∧ env_SHELL (downloadFile h name).1 = env_SHELL h.
Proof.
  intros Hp. split; [exact (downloadFile_lookup_other h name p Hp)|].
  unfold downloadFile.
  destruct (os_Create h name) as [h1|e] eqn:Hc; [|auto].
  destruct (os_Create_frame h h1 name Hc) as [_ [_ [_ [H1 [H2 H3]]]]].
  destruct (http_get h1 _) as [e|st body berr]; simpl; [auto|].
  destruct (disk_full h1 && negb (String.eqb body "")); simpl; [auto|].
  destruct (fs h1 !! name) as [[f|]|]; simpl; auto.
Qed.

Lemma downloadFile_frame_witness :
  fs (downloadFile host_dl archive_example).1 !! "/usr/local/go/VERSION"
  = Some (File (mkFile "go1.20" true true)).
Proof.
  assert (Hne : "/usr/local/go/VERSION" ≠ archive_example) by discriminate.
  rewrite (proj1 (downloadFile_frame host_dl archive_example "/usr/local/go/VERSION" Hne)).
  reflexivity.
Defined.

(** X6. The ways [downloadFile] fails. If the file cannot be created the
    host is left as it was. If the request fails, the file exists and is
    empty: a file of that name that was there before has lost its
    content. If the body ends with an error, the file holds the bytes
    that arrived and that error is returned. *)
Theorem downloadFile_failures (h : host) (name : string) :
  (∀ e, os_Create h name = inr e → downloadFile h name = (h, Some e))
  ∧ (∀ h1 e,
       os_Create h name = inl h1 →
       http_get h ("https://go.dev/dl/" ++ name) = HttpError e →
       downloadFile h name = (h1, Some e)
       ∧ ∃ f, fs h1 !! name = Some (File f) ∧ content f = "")
  ∧ (∀ h1 status body e,
       os_Create h name = inl h1 →
       http_get h ("https://go.dev/dl/" ++ name) = HttpResponse status body (Some e) →
       disk_full h = false →
       ∃ h' f, downloadFile h name = (h', Some e)
               ∧ fs h' !! name = Some (File f) ∧ content f = body).
Proof.
  split; [|split].
  - intros e Hc. unfold downloadFile. rewrite Hc. reflexivity.
  - intros h1 e Hc Hget.
    destruct (os_Create_lookup h h1 name Hc) as [f [Hf [Hcont [Hhttp _]]]].
    split; [|exists f; auto].
    unfold downloadFile. rewrite Hc, Hhttp, Hget. reflexivity.
  - intros h1 status body e Hc Hget Hfull.
    destruct (os_Create_lookup h h1 name Hc) as [f [Hf [Hcont [Hhttp Hdf]]]].
    exists (append_file h1 name f body), (mkFile (content f ++ body) (mode_r f) (mode_w f)).
    split; [|split].
    + unfold downloadFile. rewrite Hc, Hhttp, Hget, Hdf, Hfull, Hf. reflexivity.
    + simpl. apply lookup_insert_eq.
    + simpl. rewrite Hcont. reflexivity.
Qed.

Lemma downloadFile_failures_witness :
  ∃ h1 f,
    downloadFile host_abc "go1.22.1.linux-amd64.tar.gz" = (h1, Some "no network")
    ∧ fs h1 !! "go1.22.1.linux-amd64.tar.gz" = Some (File f) ∧ content f = "".
Proof.
  destruct (downloadFile_failures host_abc "go1.22.1.linux-amd64.tar.gz") as [_ [H _]].
  destruct (H (set_fs host_abc
                 (<["go1.22.1.linux-amd64.tar.gz" := File (mkFile "" true true)]> (fs host_abc)))
              "no network" eq_refl eq_refl) as [H1 [f [H2 H3]]].
  eexists _, f. split; [exact H1|]. split; [exact H2|exact H3].
Defined.

Lemma be_bytes_length (n : nat) (x : Z) : List.length (sha256.be_bytes n x) = n.
Proof. induction n as [|n IH]; simpl; [reflexivity|rewrite IH; reflexivity]. Qed.

Lemma block_length (hs blk : list Z) :
  List.length hs = 8%nat → List.length (sha256.block hs blk) = 8%nat.
Proof.
  intros H. unfold sha256.block. rewrite length_map, length_combine, H. reflexivity.
Qed.

Lemma blocks_length (fuel : nat) (hs bs : list Z) :
  List.length hs = 8%nat → List.length (sha256.blocks fuel hs bs) = 8%nat.
Proof.
  revert hs bs. induction fuel as [|fuel IH]; intros hs bs H; simpl; [exact H|].
  destruct bs as [|b bs]; [exact H|]. apply IH, block_length, H.
Qed.

Lemma Sum256_length (msg : list Z) : List.length (sha256.Sum256 msg) = 32%nat.
Proof.
  unfold sha256.Sum256.
  assert (H := blocks_length (List.length (sha256.pad msg)) sha256.H0 (sha256.pad msg) eq_refl).
  destruct (sha256.blocks _ _ _) as [|a [|b [|c [|d [|e [|f [|g [|i [|j l]]]]]]]]];
    try discriminate H.
  reflexivity.
Qed.

Lemma EncodeToString_length (bs : list Z) :
  String.length (hex.EncodeToString bs) = (2 * List.length bs)%nat.
Proof. induction bs as [|b bs IH]; simpl; [reflexivity|rewrite IH; lia]. Qed.

(** X7. The digest [verifyChecksum] computes is always sixty-four
    characters long; a declared digest of any other length, the empty
    string among them, is rejected whatever the file holds. *)
Theorem verifyChecksum_digest_length (h : host) (name want data : string) :
  read_file h name = inl data →
  String.length (digest_of data) = 64%nat
  ∧ (String.length want ≠ 64%nat →
     verifyChecksum h name want = Some (err_sha_mismatch want (digest_of data))).
Proof.
  intros Hread.
  assert (Hlen : String.length (digest_of data) = 64%nat).
  { unfold digest_of. rewrite EncodeToString_length, Sum256_length. reflexivity. }
  split; [exact Hlen|]. intros Hw.
  rewrite (verifyChecksum_read h name want data Hread).
  destruct (String.eqb_spec (digest_of data) want) as [E|_]; [|reflexivity].
  exfalso. apply Hw. rewrite <- E. exact Hlen.
Qed.

Lemma verifyChecksum_digest_length_witness :
  verifyChecksum host_abc "go1.22.1.linux-amd64.tar.gz" ""
  = Some (err_sha_mismatch "" (digest_of "abc")).
Proof.
  apply (verifyChecksum_digest_length host_abc "go1.22.1.linux-amd64.tar.gz" "" "abc");
    [reflexivity|discriminate].
Defined.

(** One turn of the loop of [setupEnvironment], by cases on the candidate. *)
Lemma setup_loop_cons (h : host) (c : string) (cands : list string) :
  (passes_over h c = true ∧ setup_loop h (c :: cands) = setup_loop h cands)
  ∨ (∃ f, passes_over h c = false ∧ fs h !! c = Some (File f) ∧ mode_r f = true
          ∧ ((strings.Contains (content f) go_bin = true
              ∧ setup_loop h (c :: cands) = (h, None))
             ∨ (strings.Contains (content f) go_bin = false ∧ mode_w f = true
                ∧ disk_full h = false
                ∧ setup_loop h (c :: cands) = (append_file h c f path_entry, None)))).
Proof.
  unfold passes_over, go_bin. simpl.
  destruct (fs h !! c) as [[f|]|]; try (left; split; reflexivity).
  destruct (mode_r f) eqn:Hr; simpl; [|left; split; reflexivity].
  destruct (strings.Contains (content f) "/usr/local/go/bin") eqn:Hcont; simpl.
  - right. exists f. split; [reflexivity|]. split; [reflexivity|]. split; [exact Hr|].
    left. split; [exact Hcont|reflexivity].
  - destruct (mode_w f) eqn:Hw; simpl; [|left; split; reflexivity].
    destruct (disk_full h) eqn:Hfull; simpl; [left; split; reflexivity|].
    right. exists f. split; [reflexivity|]. split; [reflexivity|]. split; [exact Hr|].
    right. split; [exact Hcont|]. split; [exact Hw|]. split; reflexivity.
Qed.

Lemma setup_loop_decompose (h h1 : host) (cands : list string) :
  setup_loop h cands = (h1, None) →
  ∃ pre cf post f,
    cands = (pre ++ cf :: post)%list
    ∧ (∀ c, In c pre → passes_over h c = true)
    ∧ fs h !! cf = Some (File f) ∧ mode_r f = true
    ∧ ((strings.Contains (content f) go_bin = true ∧ h1 = h)
       ∨ (strings.Contains (content f) go_bin = false ∧ mode_w f = true
          ∧ disk_full h = false ∧ h1 = append_file h cf f path_entry)).
Proof.
  induction cands as [|c cands IH]; intros H; [discriminate H|].
  destruct (setup_loop_cons h c cands)
    as [[Hp E]|[f [Hp [Hc [Hr [[Hcont E]|[Hcont [Hw [Hfull E]]]]]]]]]; rewrite E in H.
  - destruct (IH H) as [pre [cf [post [f [-> [Hpre Hcf]]]]]].
    exists (c :: pre), cf, post, f. split; [reflexivity|]. split; [|exact Hcf].
    intros c0 [<-|Hc0]; [exact Hp|exact (Hpre c0 Hc0)].
  - injection H as <-. exists [], c, cands, f. split; [reflexivity|].
    split; [intros c0 []|]. split; [exact Hc|]. split; [exact Hr|].
    left. split; [exact Hcont|reflexivity].
  - injection H as <-. exists [], c, cands, f. split; [reflexivity|].
    split; [intros c0 []|]. split; [exact Hc|]. split; [exact Hr|].
    right. auto.
Qed.

Lemma setup_loop_fails (h h1 : host) (cands : list string) (e : error) :
  setup_loop h cands = (h1, Some e) →
  h1 = h ∧ e = err_no_config ∧ ∀ c, In c cands → passes_over h c = true.
Proof.
  induction cands as [|c cands IH]; intros H.
  - injection H as <- <-. split; [reflexivity|]. split; [reflexivity|]. intros c [].
  - destruct (setup_loop_cons h c cands)
      as [[Hp E]|[f [Hp [Hc [Hr [[Hcont E]|[Hcont [Hw [Hfull E]]]]]]]]]; rewrite E in H;
      try discriminate H.
    destruct (IH H) as [H1 [H2 H3]].
    split; [exact H1|]. split; [exact H2|].
    intros c0 [<-|Hc0]; [exact Hp|exact (H3 c0 Hc0)].
Qed.

(** After the entry has been appended to the candidate the loop settled
    on, the loop finds it there. *)
Lemma setup_loop_after_append (h : host) (pre : list string) (cf : string)
    (post : list string) (f : file) :
  (∀ c, In c pre → passes_over h c = true) →
  fs h !! cf = Some (File f) → mode_r f = true →
  strings.Contains (content f) go_bin = false → mode_w f = true → disk_full h = false →
  setup_loop (append_file h cf f path_entry) (pre ++ cf :: post)%list
  = (append_file h cf f path_entry, None).
Proof.
  intros Hpre Hcf Hr Hlacks Hw Hfull.
  assert (Hnot : ∀ c, In c pre → c ≠ cf).
  { intros c Hc ->. specialize (Hpre cf Hc). unfold passes_over in Hpre.
    rewrite Hcf, Hr, Hlacks, Hw, Hfull in Hpre. discriminate Hpre. }
  rewrite setup_loop_skip.
  - simpl. rewrite lookup_insert_eq. simpl. rewrite Hr.
    rewrite Contains_app_r by (vm_compute; reflexivity). reflexivity.
  - intros c Hc. specialize (Hpre c Hc). unfold passes_over in *. simpl.
    rewrite lookup_insert_ne by (intros E; exact (Hnot c Hc (eq_sym E))).
    exact Hpre.
Qed.

Section SetupEnvironmentFurther.

Variable filepath_Join : string → string → string.

(** X9. Whenever [setupEnvironment] succeeds, running it again on the host
    it left succeeds and changes nothing. *)
Theorem setupEnvironment_rerun (h h1 : host) :
  setupEnvironment filepath_Join h = (h1, None) →
  setupEnvironment filepath_Join h1 = (h1, None).
Proof.
  unfold setupEnvironment. destruct (home h) as [homeDir|] eqn:Hhome; [|discriminate].
  intros H. assert (H' := H).
  apply setup_loop_decompose in H' as [pre [cf [post [f [Hc [Hpre [Hcf [Hr Hcase]]]]]]]].
  destruct Hcase as [[_ ->]|[Hlacks [Hw [Hfull ->]]]].
  - rewrite Hhome. exact H.
  - simpl. rewrite Hhome, Hc.
    apply setup_loop_after_append; assumption.
Qed.

(** X10. The only change [setupEnvironment] ever makes to the host is to
    append the entry to one file: a file that exists already, is one of
    the candidates of the user's shell, and does not mention the bin
    directory yet. It creates no file and rewrites none. *)
Theorem setupEnvironment_change (h h1 : host) (e : option error) :
  setupEnvironment filepath_Join h = (h1, e) →
  h1 = h
  ∨ ∃ homeDir cf f,
      home h = Some homeDir
      ∧ In cf (configFiles filepath_Join homeDir (env_SHELL h))
      ∧ fs h !! cf = Some (File f)
      ∧ strings.Contains (content f) go_bin = false
      ∧ e = None
      ∧ h1 = append_file h cf f path_entry.
Proof.
  unfold setupEnvironment. destruct (home h) as [homeDir|] eqn:Hhome.
  - intros H. destruct e as [e|].
    + left. apply setup_loop_fails in H as [-> _]. reflexivity.
    + apply setup_loop_decompose in H as [pre [cf [post [f [Hc [Hpre [Hcf [Hr Hcase]]]]]]]].
      destruct Hcase as [[_ ->]|[Hlacks [Hw [Hfull ->]]]]; [left; reflexivity|].
      right. exists homeDir, cf, f. split; [reflexivity|]. split.
      { rewrite Hc. apply in_or_app. right. left. reflexivity. }
      auto.
  - intros H. injection H as <- _. left. reflexivity.
Qed.

(** X11. When [setupEnvironment] fails the host is left as it was, and the
    error tells why: the home directory is not known, or the loop passed
    over every candidate of the user's shell. *)
Theorem setupEnvironment_failure (h h1 : host) (e : error) :
  setupEnvironment filepath_Join h = (h1, Some e) →
  h1 = h
  ∧ ((home h = None ∧ e = "$HOME is not defined")
     ∨ (∃ homeDir,
          home h = Some homeDir
          ∧ e = "could not find shell config file to update"
          ∧ ∀ c, In c (configFiles filepath_Join homeDir (env_SHELL h)) →
                 passes_over h c = true)).
Proof.
  unfold setupEnvironment. destruct (home h) as [homeDir|] eqn:Hhome; intros H.
  - apply setup_loop_fails in H as [-> [-> Hall]]. split; [reflexivity|].
    right. exists homeDir. split; [reflexivity|]. split; [reflexivity|exact Hall].
  - injection H as <- <-. split; [reflexivity|]. left. split; reflexivity.
Qed.

End SetupEnvironmentFurther.

Lemma setupEnvironment_rerun_witness :
  setupEnvironment join_clean
    (append_file host_bash "/root/.bash_profile" (mkFile "alias ll='ls -l'" true true) path_entry)
  = (append_file host_bash "/root/.bash_profile" (mkFile "alias ll='ls -l'" true true) path_entry,
     None).
Proof.
  apply (setupEnvironment_rerun join_clean host_bash). reflexivity.
Defined.

Lemma setupEnvironment_change_witness :
  ∃ homeDir cf f,
    home host_bash = Some homeDir
    ∧ In cf (configFiles join_clean homeDir (env_SHELL host_bash))
    ∧ fs host_bash !! cf = Some (File f)
    ∧ (setupEnvironment join_clean host_bash).1 = append_file host_bash cf f path_entry.
Proof.
  destruct (setupEnvironment_change join_clean host_bash
              (setupEnvironment join_clean host_bash).1
              (setupEnvironment join_clean host_bash).2)
    as [H|[homeDir [cf [f [H1 [H2 [H3 [_ [_ H4]]]]]]]]].
  - destruct (setupEnvironment join_clean host_bash); reflexivity.
  - exfalso. apply (f_equal (λ x, fs x !! "/root/.bash_profile")) in H.
    vm_compute in H. discriminate H.
  - exists homeDir, cf, f. auto.
Defined.

Lemma setupEnvironment_failure_witness :
  setupEnvironment join_clean host_abc
  = (host_abc, Some "could not find shell config file to update").
Proof.
  destruct (setupEnvironment_failure join_clean host_abc
              (setupEnvironment join_clean host_abc).1
              "could not find shell config file to update" eq_refl) as [H _].
  rewrite <- H at 2. reflexivity.
Defined.

(* ===================================================================== *)
(** * Properties of the dependency resolver *)
(* ===================================================================== *)

Lemma lower_nonempty (s : string) : s ≠ "" → strings.ToLower s ≠ "".
Proof. destruct s; simpl; [contradiction|discriminate]. Qed.

(** [detectDistro] answers "unknown" exactly when no package manager of
    the list is found. *)
Lemma detectDistro_unknown (sys : system) :
  distro_packageManager (detectDistro sys) = "unknown"
  ↔ ∀ pm, In pm package_managers → lookPath sys pm = false.
Proof.
  unfold package_managers, detectDistro. split.
  - intros H pm Hpm.
    destruct (lookPath sys "apt-get") eqn:H1; [discriminate H|].
    destruct (lookPath sys "dnf") eqn:H2; [discriminate H|].
    destruct (lookPath sys "yum") eqn:H3; [discriminate H|].
    destruct (lookPath sys "pacman") eqn:H4; [discriminate H|].
    destruct (lookPath sys "apk") eqn:H5; [discriminate H|].
    destruct Hpm as [<-|[<-|[<-|[<-|[<-|[]]]]]]; assumption.
  - intros H. rewrite !H by (simpl; auto 10). reflexivity.
Qed.

(** X12. [detectDistro] settles on the first package manager, in the order
    apt-get, dnf, yum, pacman, apk, that [exec.LookPath] finds, whatever
    else is installed; the result is "unknown" exactly when none is
    found. For a manager that is found, the distribution name is not
    empty and the install and update commands start with the manager. *)
Theorem detectDistro_priority (sys : system) :
  (distro_packageManager (detectDistro sys) = "unknown"
   ↔ ∀ pm, In pm package_managers → lookPath sys pm = false)
  ∧ (∀ pre pm post,
       package_managers = (pre ++ pm :: post)%list →
       (∀ p, In p pre → lookPath sys p = false) →
       lookPath sys pm = true →
       distro_packageManager (detectDistro sys) = pm
       ∧ distro_name (detectDistro sys) ≠ ""
       ∧ hd_error (strings.Fields (distro_installCmd (detectDistro sys))) = Some pm
       ∧ hd_error (strings.Fields (distro_updateCmd (detectDistro sys))) = Some pm).
Proof.
  split; [apply detectDistro_unknown|].
  unfold package_managers, detectDistro.
  intros pre pm post Hl Hpre Hpm.
    assert (Hname : ∀ s, (if String.eqb (strings.ToLower (TrimSpace s)) ""
                          then "debian" else strings.ToLower (TrimSpace s)) ≠ "").
    { intros s. destruct (String.eqb_spec (strings.ToLower (TrimSpace s)) "") as [E|NE];
        [discriminate|exact NE]. }
    destruct pre as [|p1 pre]; simpl in Hl; injection Hl as E1 Hl; subst.
    { rewrite Hpm. simpl. split; [reflexivity|]. split; [apply Hname|]. split; reflexivity. }
    rewrite (Hpre "apt-get") by (left; reflexivity).
    destruct pre as [|p2 pre]; simpl in Hl; injection Hl as E2 Hl; subst.
    { rewrite Hpm. simpl. repeat split; discriminate. }
    rewrite (Hpre "dnf") by (right; left; reflexivity).
    destruct pre as [|p3 pre]; simpl in Hl; injection Hl as E3 Hl; subst.
    { rewrite Hpm. simpl. repeat split; discriminate. }
    rewrite (Hpre "yum") by (right; right; left; reflexivity).
    destruct pre as [|p4 pre]; simpl in Hl; injection Hl as E4 Hl; subst.
    { rewrite Hpm. simpl. repeat split; discriminate. }
    rewrite (Hpre "pacman") by (right; right; right; left; reflexivity).
    destruct pre as [|p5 pre]; simpl in Hl; injection Hl as E5 Hl; subst.
    { rewrite Hpm. simpl. repeat split; discriminate. }
    destruct pre; discriminate Hl.
Qed.

Lemma detectDistro_priority_witness :
  distro_packageManager (detectDistro system_mint) = "apt-get"
  ∧ distro_name (detectDistro system_mint) ≠ "".
Proof.
  destruct (detectDistro_priority system_mint) as [_ H].
  destruct (H [] "apt-get" ["dnf"; "yum"; "pacman"; "apk"] eq_refl
              (λ p (F : In p []), match F with end) eq_refl) as [H1 [H2 _]].
  split; assumption.
Defined.

Lemma check_loop_filter (sys : system) (deps missing : list dependency) :
  (∀ dep, In dep deps → strings.Fields (dep_checkCmd dep) ≠ []) →
  check_loop sys deps missing = Some (missing ++ List.filter (probe_fails sys) deps)%list.
Proof.
  revert missing. induction deps as [|dep deps IH]; intros missing H; simpl.
  - rewrite app_nil_r. reflexivity.
  - assert (Hd := H dep (or_introl eq_refl)). unfold probe_fails at 1.
    destruct (strings.Fields (dep_checkCmd dep)) as [|p parts] eqn:E; [contradiction|].
    rewrite IH by (intros d Hin; apply H; right; exact Hin).
    destruct (probe sys (p :: parts)); simpl; [reflexivity|].
    rewrite <- app_assoc. reflexivity.
Qed.

Lemma requiredDeps_commands (dep : dependency) :
  In dep requiredDeps → strings.Fields (dep_checkCmd dep) ≠ [].
Proof.
  intros [<-|[<-|[<-|[<-|[]]]]]; vm_compute; discriminate.
Qed.

(** X13. [checkDependencies] fails, with "unable to detect package
    manager", exactly when none of the five package managers is found, and
    then reports nothing missing and no distribution. Otherwise it never
    panics and reports the detected distribution and, in the order of the
    table, exactly the dependencies of the table whose probe fails. *)
Theorem run_checkDependencies_result (sys : system) :
  ((∀ pm, In pm package_managers → lookPath sys pm = false) →
     run_checkDependencies sys
     = Some (depsCheckMsg [] distroInfo_zero (Some "unable to detect package manager")))
  ∧ ((∃ pm, In pm package_managers ∧ lookPath sys pm = true) →
     run_checkDependencies sys
     = Some (depsCheckMsg (List.filter (probe_fails sys) requiredDeps) (detectDistro sys) None)).
Proof.
  assert (Hunk := detectDistro_unknown sys). unfold run_checkDependencies. split.
  - intros H. apply Hunk in H. rewrite H. reflexivity.
  - intros [pm [Hin Hpm]].
    destruct (String.eqb_spec (distro_packageManager (detectDistro sys)) "unknown") as [E|_].
    + assert (E' := proj1 Hunk E). rewrite (E' pm Hin) in Hpm. discriminate Hpm.
    + rewrite (check_loop_filter sys requiredDeps [] requiredDeps_commands). reflexivity.
Qed.

Lemma run_checkDependencies_result_witness :
  ∃ missing,
    run_checkDependencies system_mint = Some (depsCheckMsg missing (detectDistro system_mint) None)
    ∧ map dep_name missing = ["Git"].
Proof.
  destruct (run_checkDependencies_result system_mint) as [_ H].
  eexists. split.
  - apply H. exists "apt-get". split; [left; reflexivity|reflexivity].
  - reflexivity.
Defined.

Lemma elem_of_fields_fold (fields : list string) (acc : gset string) (pkg : string) :
  pkg ∈ fold_left (λ (a : gset string) p, {[p]} ∪ a) fields acc ↔ In pkg fields ∨ pkg ∈ acc.
Proof.
  revert acc. induction fields as [|p fields IH]; intros acc; simpl.
  - tauto.
  - rewrite IH. rewrite elem_of_union, elem_of_singleton. intuition congruence.
Qed.

(** A package is selected exactly when it is a field of the package name
    one of the dependencies has for the distribution. *)
Lemma elem_of_packages (distro : distroInfo) (deps : list dependency) (pkg : string) :
  pkg ∈ packages distro deps
  ↔ ∃ dep pkgName, In dep deps
                   ∧ dep_packageName dep !! distro_name distro = Some pkgName
                   ∧ In pkg (strings.Fields pkgName).
Proof.
  unfold packages.
  assert (G : ∀ acc : gset string,
            pkg ∈ fold_left
                    (λ (acc : gset string) dep,
                       match dep_packageName dep !! distro_name distro with
                       | Some pkgName =>
                           fold_left (λ (a : gset string) p, {[p]} ∪ a)
                             (strings.Fields pkgName) acc
                       | None => acc
                       end) deps acc
            ↔ (∃ dep pkgName, In dep deps
                              ∧ dep_packageName dep !! distro_name distro = Some pkgName
                              ∧ In pkg (strings.Fields pkgName))
              ∨ pkg ∈ acc).
  { induction deps as [|dep deps IH]; intros acc; simpl.
    - split; [auto|]. intros [[d [n [[] _]]]|H]; exact H.
    - rewrite IH. destruct (dep_packageName dep !! distro_name distro) as [pkgName|] eqn:E.
      + rewrite elem_of_fields_fold. split.
        * intros [[d [n [Hd Hn]]]|[Hf|Ha]]; [left; exists d, n; tauto| |right; exact Ha].
          left. exists dep, pkgName. auto.
        * intros [[d [n [[<-|Hd] [Hn Hf]]]]|Ha]; [|left; exists d, n; auto|auto].
          rewrite E in Hn. injection Hn as <-. auto.
      + split.
        * intros [[d [n [Hd Hn]]]|Ha]; [left; exists d, n; tauto|right; exact Ha].
        * intros [[d [n [[<-|Hd] [Hn Hf]]]]|Ha]; [congruence|left; exists d, n; auto|auto]. }
  rewrite G. split; [intros [H|H]; [exact H|]|auto].
  apply not_elem_of_empty in H. contradiction.
Qed.

Lemma errorf_install (e : error) :
  fmt.Errorf "failed to install packages: %w" [e] = "failed to install packages: " ++ e.
Proof. unfold fmt.Errorf. simpl. rewrite append_nil_r. reflexivity. Qed.

(** The shapes of the result of [detectDistro]. *)
Lemma detectDistro_cases (sys : system) :
  (∃ name, name ≠ ""
           ∧ detectDistro sys = mkDistroInfo name "apt-get" "apt-get install -y" "apt-get update")
  ∨ detectDistro sys = mkDistroInfo "fedora" "dnf" "dnf install -y" "dnf check-update"
  ∨ detectDistro sys = mkDistroInfo "rhel" "yum" "yum install -y" "yum check-update"
  ∨ detectDistro sys = mkDistroInfo "arch" "pacman" "pacman -S --noconfirm" "pacman -Sy"
  ∨ detectDistro sys = mkDistroInfo "alpine" "apk" "apk add" "apk update"
  ∨ detectDistro sys = mkDistroInfo "unknown" "unknown" "" "".
Proof.
  unfold detectDistro.
  destruct (lookPath sys "apt-get").
  { left. eexists. split; [|reflexivity].
    destruct (String.eqb_spec (strings.ToLower (TrimSpace (lsb_release sys))) "") as [E|NE];
      [discriminate|exact NE]. }
  destruct (lookPath sys "dnf"); [auto|].
  destruct (lookPath sys "yum"); [auto|].
  destruct (lookPath sys "pacman"); [auto 10|].
  destruct (lookPath sys "apk"); auto 10.
Qed.

Lemma requiredDeps_unknown_distro (dep : dependency) (name : string) :
  In dep requiredDeps → ¬ In name known_distros →
  dep_packageName dep !! name = None.
Proof.
  intros Hdep Hname.
  assert (Hne : ∀ k, In k known_distros → k ≠ name).
  { intros k Hk ->. exact (Hname Hk). }
  unfold known_distros in Hne.
  destruct Hdep as [<-|[<-|[<-|[<-|[]]]]]; simpl;
    rewrite !lookup_insert_ne by (apply Hne; simpl; auto 10);
    apply lookup_singleton_ne; apply Hne; simpl; auto 10.
Qed.

Section InstallDependenciesProperties.

Variable S : Type.
Variable run_cmd : S → list string → S * option error.
Variable range_order : gset string → list string.
Hypothesis range_order_perm : ∀ X, range_order X ≡ₚ elements X.

#[local] Abbreviation run_install :=
  (run_installDependencies S run_cmd range_order).

Lemma run_installDependencies_eq (s : S) (distro : distroInfo) (deps : list dependency)
    (u : string) (us : list string) (c : string) (cs : list string) :
  strings.Fields (distro_updateCmd distro) = u :: us →
  strings.Fields (distro_installCmd distro) = c :: cs →
  run_install s distro deps
  = Some (install_report
            (run_cmd (run_cmd s (u :: us)).1
               (c :: cs ++ range_order (packages distro deps)))).
Proof.
  intros Hu Hc. unfold run_installDependencies.
  rewrite Hu, Hc.
  destruct (String.eqb_spec (distro_updateCmd distro) "") as [E|_].
  { rewrite E in Hu. discriminate Hu. }
  simpl negb. cbv iota. rewrite <- app_comm_cons.
  destruct (run_cmd _ _) as [s2 [e|]]; unfold install_report;
    [rewrite errorf_install|]; reflexivity.
Qed.

(** X14. When the update and install commands of the distribution are not
    blank, [installDependencies] does not panic: it runs the update
    command, drops its outcome, then runs the install command followed by
    the selected packages, and reports the outcome of that command alone.
    Each selected package appears once, and a package is selected exactly
    when it is a field of the package name that one of the given
    dependencies has for the distribution. *)
Theorem run_installDependencies_command (s : S) (distro : distroInfo)
    (deps : list dependency) :
  strings.Fields (distro_updateCmd distro) ≠ [] →
  strings.Fields (distro_installCmd distro) ≠ [] →
  run_install s distro deps
  = Some (install_report
            (run_cmd (run_cmd s (strings.Fields (distro_updateCmd distro))).1
               (strings.Fields (distro_installCmd distro)
                ++ range_order (packages distro deps))))
  ∧ NoDup (range_order (packages distro deps))
  ∧ (∀ pkg, In pkg (range_order (packages distro deps))
            ↔ ∃ dep pkgName, In dep deps
                             ∧ dep_packageName dep !! distro_name distro = Some pkgName
                             ∧ In pkg (strings.Fields pkgName)).
Proof.
  intros Hu Hc. split; [|split].
  - destruct (strings.Fields (distro_updateCmd distro)) as [|u us] eqn:Eu; [contradiction|].
    destruct (strings.Fields (distro_installCmd distro)) as [|c cs] eqn:Ec; [contradiction|].
    apply run_installDependencies_eq; assumption.
  - rewrite range_order_perm. apply NoDup_elements.
  - intros pkg. rewrite <- elem_of_packages, <- list_elem_of_In, range_order_perm.
    apply elem_of_elements.
Qed.

(** X15. On a distribution whose name is none of the six the table knows,
    such as a derivative of Debian that [lsb_release] names differently,
    no package is selected for any of the dependencies of the table: the
    install command is run with no package to install. *)
Theorem run_installDependencies_unknown_name (s : S) (distro : distroInfo)
    (deps : list dependency) :
  ¬ In (distro_name distro) known_distros →
  (∀ dep, In dep deps → In dep requiredDeps) →
  strings.Fields (distro_updateCmd distro) ≠ [] →
  strings.Fields (distro_installCmd distro) ≠ [] →
  packages distro deps = ∅
  ∧ run_install s distro deps
    = Some (install_report
              (run_cmd (run_cmd s (strings.Fields (distro_updateCmd distro))).1
                 (strings.Fields (distro_installCmd distro)))).
Proof.
  intros Hname Hdeps Hu Hc.
  assert (Hempty : packages distro deps = ∅).
  { apply set_eq. intros pkg. rewrite elem_of_packages. split.
    - intros [dep [pkgName [Hd [Hl _]]]].
      rewrite (requiredDeps_unknown_distro dep _ (Hdeps dep Hd) Hname) in Hl. discriminate Hl.
    - intros H. apply not_elem_of_empty in H. contradiction. }
  split; [exact Hempty|].
  destruct (strings.Fields (distro_updateCmd distro)) as [|u us] eqn:Eu; [contradiction|].
  destruct (strings.Fields (distro_installCmd distro)) as [|c cs] eqn:Ec; [contradiction|].
  rewrite (run_installDependencies_eq s distro deps u us c cs Eu Ec), Hempty.
  assert (Hnil : range_order ∅ = []).
  { apply Permutation_nil_r. rewrite range_order_perm, elements_empty. reflexivity. }
  rewrite Hnil, app_nil_r. reflexivity.
Qed.

(** X16. For the distribution of any system on which a package manager is
    found, [installDependencies] never panics, whatever dependencies it is
    given. *)
Theorem run_installDependencies_after_check (sys : system) (s : S) (deps : list dependency) :
  distro_packageManager (detectDistro sys) ≠ "unknown" →
  ∃ s' err, run_install s (detectDistro sys) deps = Some (s', depsInstallMsg err).
Proof.
  intros Hpm.
  assert (Hok : strings.Fields (distro_updateCmd (detectDistro sys)) ≠ []
                ∧ strings.Fields (distro_installCmd (detectDistro sys)) ≠ []).
  { destruct (detectDistro_cases sys) as [[name [_ E]]|[E|[E|[E|[E|E]]]]]; rewrite E in *;
      try (split; vm_compute; discriminate).
    exfalso. apply Hpm. reflexivity. }
  destruct Hok as [Hu Hc].
  destruct (strings.Fields (distro_updateCmd (detectDistro sys))) as [|u us] eqn:Eu;
    [contradiction|].
  destruct (strings.Fields (distro_installCmd (detectDistro sys))) as [|c cs] eqn:Ec;
    [contradiction|].
  rewrite (run_installDependencies_eq s _ deps u us c cs Eu Ec).
  destruct (run_cmd _ _) as [s2 [e|]]; simpl; eexists _, _; reflexivity.
Qed.

End InstallDependenciesProperties.

Lemma run_installDependencies_command_witness :
  run_installDependencies unit run_cmd_ok elements tt distro_debian requiredDeps
  = Some (tt, depsInstallMsg None)
  ∧ NoDup (elements (packages distro_debian requiredDeps)).
Proof.
  destruct (run_installDependencies_command unit run_cmd_ok elements (λ X, reflexivity _)
              tt distro_debian requiredDeps) as [H1 [H2 _]];
    try (vm_compute; discriminate).
  split; [exact H1|exact H2].
Defined.

Lemma run_installDependencies_unknown_name_witness :
  distro_name (detectDistro system_mint) = "linuxmint"
  ∧ packages (detectDistro system_mint) requiredDeps = ∅.
Proof.
  split; [reflexivity|].
  apply (run_installDependencies_unknown_name unit run_cmd_ok elements (λ X, reflexivity _)
           tt (detectDistro system_mint) requiredDeps).
  - intros [H|[H|[H|[H|[H|[H|[]]]]]]]; discriminate H.
  - auto.
  - vm_compute. discriminate.
  - vm_compute. discriminate.
Defined.

Lemma run_installDependencies_after_check_witness :
  ∃ s' err,
    run_installDependencies unit run_cmd_ok elements tt (detectDistro system_mint) requiredDeps
    = Some (s', depsInstallMsg err).
Proof.
  apply (run_installDependencies_after_check unit run_cmd_ok elements system_mint tt requiredDeps).
  discriminate.
Defined.

(* ===================================================================== *)
(** * Properties of the extraction *)
(* ===================================================================== *)

Section ExtractTarGzProperties.

Variable disk : Type.
Variable filepath_Join : string → string → string.
Variable filepath_Dir : string → string.
Variable os_MkdirAll : disk → string → Z → disk * option error.
Variable os_OpenFile : disk → string → Z → disk * option error.
Variable write_file : disk → string → string → disk * option error.
Variable close_file : disk → string → disk * option error.
Variable os_Symlink : disk → string → string → disk * option error.

#[local] Abbreviation extract_loop' :=
  (extract_loop disk filepath_Join filepath_Dir os_MkdirAll os_OpenFile write_file
     close_file os_Symlink).

(** X17. The loop of [extractTarGz] handles the members in order and stops
    at the first one that fails: the members after it are not touched,
    what was written before and during the failure stays on the disk, and
    the error is that member's. When a first part of the members is
    extracted without error the loop goes on with the rest from the disk
    that part left; an error of the archive stream after the last member
    is returned with all members extracted. *)
Theorem extract_loop_app (d d1 : disk) (dst : string) (es1 es2 : list tar_entry)
    (stream_err : option error) :
  (∀ e, extract_loop' d dst es1 None = (d1, Some e) →
        extract_loop' d dst (es1 ++ es2) stream_err = (d1, Some e))
  ∧ (extract_loop' d dst es1 None = (d1, None) →
     extract_loop' d dst (es1 ++ es2) stream_err = extract_loop' d1 dst es2 stream_err
     ∧ extract_loop' d dst es1 stream_err = (d1, stream_err)).
Proof.
  revert d. induction es1 as [|e1 es1 IH]; intros d; simpl.
  - split; [intros e H; discriminate H|]. intros H. injection H as <-. split; reflexivity.
  - destruct (extract_entry _ _ _ _ _ _ _ _ d dst e1) as [d' [err|]].
    + split; [intros e H; exact H|intros H; discriminate H].
    + exact (IH d').
Qed.

(** X18. Members that are neither directories, regular files nor symbolic
    links, such as hard links and devices, are passed over without an
    error: the outcome is that of the archive without them. *)
Theorem extract_loop_other_kinds (d : disk) (dst : string) (entries : list tar_entry)
    (stream_err : option error) :
  extract_loop' d dst entries stream_err
  = extract_loop' d dst (List.filter extracted_kind entries) stream_err.
Proof.
  revert d. induction entries as [|e entries IH]; intros d; simpl; [reflexivity|].
  unfold extracted_kind at 1, extract_entry at 1.
  destruct (e_Typeflag e) eqn:Ht; simpl; try apply IH;
    unfold extract_entry at 1; rewrite Ht;
    match goal with
    | |- context [match ?x with (_, _) => _ end] =>
        destruct x as [d' [err|]]; [reflexivity|try apply IH]
    end.
Qed.

End ExtractTarGzProperties.

Lemma extract_loop_app_witness :
  log_extract [] "/usr/local" archive_members None
  = (["mkdir /usr/local/go"; "mkdir /usr/local/go/VERSION"; "open /usr/local/go/VERSION";
      "write /usr/local/go/VERSION"; "close /usr/local/go/VERSION";
      "mkdir /usr/local/go/pkg failed"],
     Some "mkdir /usr/local/go/pkg: permission denied").
Proof.
  unfold log_extract.
  apply (proj1 (extract_loop_app (list string) join_clean (λ p, p)
                  (λ d p _, log_call d "mkdir" p) (λ d p _, log_call d "open" p)
                  (λ d p _, log_call d "write" p) (λ d p, log_call d "close" p)
                  (λ d _ p, log_call d "symlink" p)
                  [] _ "/usr/local" (firstn 4 archive_members) (skipn 4 archive_members) None)).
  reflexivity.
Defined.

(* ===================================================================== *)
(** * Further properties of the pipeline *)
(* ===================================================================== *)

(** What a message that is awaited, or that reports no work, does to the
    pipeline. *)
Lemma installModel_Update_report (m : installModel) (msg : Msg) :
  (∀ w, msg_work msg = Some w → install_awaits (i_state m) = [w]) →
  (msg_work msg = None
   ∧ i_state (installModel_Update m msg).1 = i_state m
   ∧ i_err (installModel_Update m msg).1 = i_err m)
  ∨ (∃ w, msg_work msg = Some w ∧ msg_err msg = None
          ∧ i_state (installModel_Update m msg).1 ≠ installStateError
          ∧ done_before (i_state (installModel_Update m msg).1)
            = (done_before (i_state m) ++ [w])%list
          ∧ i_err (installModel_Update m msg).1 = i_err m)
  ∨ (∃ w e, msg_work msg = Some w ∧ msg_err msg = Some e
            ∧ install_awaits (i_state m) = [w]
            ∧ i_state (installModel_Update m msg).1 = installStateError
            ∧ i_err (installModel_Update m msg).1 = Some e).
Proof.
  intros Hexp.
  destruct msg as [key| | |tag|? ? ?|?|? ?|?|? ? e|e|e|e|e]; simpl in *;
    try (left; repeat split; reflexivity);
    try (specialize (Hexp _ eq_refl); destruct (i_state m) eqn:Hs; try discriminate Hexp;
         destruct e as [e|]; simpl;
         [right; right; eexists _, e; repeat split; reflexivity
         |right; left; eexists; repeat split; try reflexivity; discriminate]);
    try (specialize (Hexp _ eq_refl); destruct (i_state m); discriminate Hexp).
  - destruct (String.eqb key "ctrl+c" || String.eqb key "q"); simpl;
      left; repeat split; reflexivity.
  - destruct (installState_eqb (i_state m) installStateDone
              || installState_eqb (i_state m) installStateError);
      simpl; left; repeat split; reflexivity.
Qed.

(** [Update] of the pipeline never changes what it was created for. *)
Lemma installModel_Update_params (m : installModel) (msg : Msg) :
  i_version (installModel_Update m msg).1 = i_version m
  ∧ i_targetOS (installModel_Update m msg).1 = i_targetOS m
  ∧ i_targetArch (installModel_Update m msg).1 = i_targetArch m
  ∧ i_releases (installModel_Update m msg).1 = i_releases m.
Proof.
  destruct msg as [key| | |tag|? ? ?|?|? ?|?|? ? e|e|e|e|e]; simpl;
    try (repeat split; reflexivity);
    try (destruct e; repeat split; reflexivity).
  - destruct (String.eqb key "ctrl+c" || String.eqb key "q"); repeat split; reflexivity.
  - destruct (installState_eqb (i_state m) installStateDone
              || installState_eqb (i_state m) installStateError);
      repeat split; reflexivity.
Qed.

Lemma reports_snoc (evs : list Msg) (msg : Msg) :
  reports (evs ++ [msg])
  = (reports evs ++ match msg_work msg with
                    | Some w => [(w, msg_err msg)]
                    | None => []
                    end)%list.
Proof.
  unfold reports. rewrite omap_app. simpl. destruct (msg_work msg); reflexivity.
Qed.

Section PipelineFurther.

Variable filepath_Join : string → string → string.
Variable list_Update : list_Model → Msg → list_Model * option nat.

#[local] Abbreviation exec := (exec filepath_Join).
#[local] Abbreviation tea_step := (tea_step filepath_Join list_Update).
#[local] Abbreviation tea_run := (tea_run filepath_Join list_Update).

(** In a turn of the loop that holds a pipeline with exactly its awaited
    work in flight, the message is awaited or reports no work. *)
Lemma install_step_msg (m : installModel) (h : host) (P : list Cmd)
    (msg : Msg) (cmd : Cmd) (cfg' : config) :
  works P = install_awaits (i_state m) →
  tea_step (mkConfig (InstallM m) h P) msg cmd cfg' →
  (∀ w, msg_work msg = Some w → install_awaits (i_state m) = [w])
  ∧ cfg_model cfg' = InstallM (installModel_Update m msg).1
  ∧ cmd = (installModel_Update m msg).2.
Proof.
  intros Hinv Hstep.
  inversion Hstep as [M h0 P0 msg0 M' c Hu HU|M h0 P1 c0 P2 h' msg0 M' c He HU];
    subst; simpl in HU; destruct (installModel_Update m msg) as [m' c'] eqn:E;
    injection HU as <- <-; simpl; (split; [|split; reflexivity]).
  - intros w Hw. rewrite (user_event_no_work msg Hu) in Hw. discriminate Hw.
  - assert (Hm := exec_msg filepath_Join _ _ _ _ He).
    destruct (work_of c0) as [w0|] eqn:Hw0.
    + destruct (works_singleton P1 P2 c0 _ w0 Hinv) as [Haw _];
        [destruct (i_state m); simpl; lia|exact Hw0|].
      intros w Hw. congruence.
    + destruct Hm as [Hq _]. apply quiet_no_work in Hq. intros w Hw. congruence.
Qed.

(** A turn of the loop with no unit of work in flight leaves the host as
    it is. *)
Lemma idle_step_host (cfg : config) (msg : Msg) (cmd : Cmd) (cfg' : config) :
  works (cfg_pending cfg) = [] →
  tea_step cfg msg cmd cfg' → cfg_host cfg' = cfg_host cfg.
Proof.
  intros Hw Hstep.
  inversion Hstep as [M h0 P0 msg0 M' c Hu HU|M h0 P1 c0 P2 h' msg0 M' c He HU];
    subst; simpl in *; [reflexivity|].
  assert (Hm := exec_msg filepath_Join _ _ _ _ He).
  destruct (work_of c0) as [w0|] eqn:Hw0.
  - exfalso. rewrite works_app in Hw. unfold works in Hw. simpl in Hw. rewrite Hw0 in Hw.
    destruct (omap work_of P1); discriminate Hw.
  - destruct Hm as [_ ->]. reflexivity.
Qed.

(** What holds of the reports all along a run of the pipeline. *)
Lemma pipeline_reports_inv (version targetOS targetArch : string)
    (releases : list common.GoRelease) (h : host) (evs : list Msg) (cfg : config) :
  tea_run (start (InstallM (newInstallModel version targetOS targetArch releases)) h) evs cfg →
  ∃ m, cfg_model cfg = InstallM m
    ∧ works (cfg_pending cfg) = install_awaits (i_state m)
    ∧ (i_state m ≠ installStateError →
       reports evs = successes (i_state m) ∧ i_err m = None)
    ∧ (i_state m = installStateError →
       ∃ s0 w e, install_awaits s0 = [w]
                 ∧ reports evs = (successes s0 ++ [(w, Some e)])%list
                 ∧ i_err m = Some e).
Proof.
  intros Hrun. induction Hrun as [|evs c msg cmd c' Hrun IH Hstep].
  - eexists. split; [reflexivity|]. split; [reflexivity|]. simpl.
    split; [intros _; split; reflexivity|intros H; discriminate H].
  - destruct IH as [m [Hm [Hw [Hok Herr]]]]. destruct c as [M hc P]. simpl in *. subst M.
    destruct (install_step_msg m hc P msg cmd c' Hw Hstep) as [Hexp [Hm' _]].
    destruct (install_turn filepath_Join list_Update m hc P msg cmd c' Hw Hstep)
      as [m' [Hm'' [_ Hw']]].
    rewrite Hm' in Hm''. injection Hm'' as <-.
    eexists. split; [exact Hm'|]. split; [exact Hw'|].
    rewrite reports_snoc.
    destruct (installModel_Update_report m msg Hexp)
      as [[Hn [Hs He]]|[[w [Hn [Hme [Hne [Hd He]]]]]|[w [e [Hn [Hme [Ha [Hs He]]]]]]]];
      rewrite Hn.
    + rewrite app_nil_r, Hs, He. split; assumption.
    + split; [|intros Hc; contradiction].
      intros _. rewrite He, Hme. unfold successes. rewrite Hd, map_app. simpl.
      destruct (installState_eqb (i_state m) installStateError) eqn:E.
      * destruct (i_state m); try discriminate E. specialize (Hexp w Hn). discriminate Hexp.
      * assert (Hne' : i_state m ≠ installStateError) by (intros Hc; rewrite Hc in E; discriminate E).
        destruct (Hok Hne') as [Hr Hi]. rewrite Hr. split; [reflexivity|exact Hi].
    + split; [intros Hc; contradiction|]. intros _.
      exists (i_state m), w, e. split; [exact Ha|]. split; [|exact He].
      assert (Hne' : i_state m ≠ installStateError).
      { intros Hc. rewrite Hc in Ha. discriminate Ha. }
      destruct (Hok Hne') as [Hr _]. rewrite Hr, Hme. reflexivity.
Qed.

(** X19. All along a run of the loop that starts with a pipeline in its
    first state, the reports of units of work that have been handled are,
    in order, one success for each state before the current one, download
    first; or, if the pipeline is in its error state, such successes
    followed by one failure, that of the step that was waited for, whose
    error is the one the pipeline keeps and its view shows. No step is
    reported twice and none after a failure. *)
Theorem pipeline_reports (version targetOS targetArch : string)
    (releases : list common.GoRelease) (h : host) (evs : list Msg) (cfg : config) :
  tea_run (start (InstallM (newInstallModel version targetOS targetArch releases)) h) evs cfg →
  ∃ m, cfg_model cfg = InstallM m
    ∧ (i_state m ≠ installStateError →
       reports evs = successes (i_state m) ∧ i_err m = None)
    ∧ (i_state m = installStateError →
       ∃ s0 w e, install_awaits s0 = [w]
                 ∧ reports evs = (successes s0 ++ [(w, Some e)])%list
                 ∧ i_err m = Some e
                 ∧ installModel_View m = error_view e).
Proof.
  intros Hrun. destruct (pipeline_reports_inv _ _ _ _ _ _ _ Hrun) as [m [Hm [_ [Hok Herr]]]].
  exists m. split; [exact Hm|]. split; [exact Hok|].
  intros Hs. destruct (Herr Hs) as [s0 [w [e [Ha [Hr He]]]]].
  exists s0, w, e. split; [exact Ha|]. split; [exact Hr|]. split; [exact He|].
  unfold installModel_View. rewrite Hs, He. reflexivity.
Qed.

(** X20. Once a run of the pipeline has reached Done or the error state,
    nothing changes any more: whatever messages the loop still handles,
    the model and the host stay as they are. *)
Theorem pipeline_terminal (version targetOS targetArch : string)
    (releases : list common.GoRelease) (h : host) (evs : list Msg) (cfg : config)
    (m : installModel) (evs' : list Msg) (cfg' : config) :
  tea_run (start (InstallM (newInstallModel version targetOS targetArch releases)) h) evs cfg →
  cfg_model cfg = InstallM m →
  i_state m = installStateDone ∨ i_state m = installStateError →
  tea_run cfg evs' cfg' →
  cfg_model cfg' = InstallM m ∧ cfg_host cfg' = cfg_host cfg.
Proof.
  intros Hrun Hm Hterm Hrun'.
  destruct (pipeline_reports_inv _ _ _ _ _ _ _ Hrun) as [m0 [Hm0 [Hw _]]].
  rewrite Hm in Hm0. injection Hm0 as <-.
  assert (Hidle : install_awaits (i_state m) = []).
  { destruct Hterm as [-> | ->]; reflexivity. }
  rewrite Hidle in Hw.
  assert (G : cfg_model cfg' = InstallM m ∧ cfg_host cfg' = cfg_host cfg
              ∧ works (cfg_pending cfg') = []).
  { induction Hrun' as [|evs1 c msg cmd c' Hrun' IH Hstep]; [auto|].
    destruct IH as [Hmc [Hhc Hwc]]. destruct c as [M hc P]. simpl in *. subst M hc.
    assert (Hwc' : works P = install_awaits (i_state m)) by (rewrite Hidle; exact Hwc).
    destruct (install_step_msg m (cfg_host cfg) P msg cmd c' Hwc' Hstep) as [Hexp [Hm' _]].
    destruct (install_turn filepath_Join list_Update m (cfg_host cfg) P msg cmd c' Hwc' Hstep)
      as [m' [Hm'' [_ Hw']]].
    assert (Hsame : (installModel_Update m msg).1 = m).
    { destruct msg as [key| | |tag|? ? ?|?|? ?|?|? ? e|e|e|e|e]; simpl in *;
        try reflexivity;
        try (specialize (Hexp _ eq_refl); rewrite Hidle in Hexp; discriminate Hexp).
      - destruct (String.eqb key "ctrl+c" || String.eqb key "q"); reflexivity.
      - destruct Hterm as [-> | ->]; reflexivity. }
    rewrite Hsame in Hm'. split; [exact Hm'|]. split.
    - apply (idle_step_host (mkConfig (InstallM m) (cfg_host cfg) P) _ _ _ Hwc Hstep).
    - rewrite Hm' in Hm''. injection Hm'' as <-. rewrite Hw', Hidle. reflexivity. }
  destruct G as [G1 [G2 _]]. split; assumption.
Qed.

End PipelineFurther.

(** The run of the loop in which build selection fails in the download
    step. *)
Lemma run_failed :
  tea_run join_clean list_Update_still (start (InstallM pipeline_absent) host_dl)
    [downloadedMsg "" "" (Some "version go1.9 not found")] config_failed.
Proof.
  eapply (run_more _ _ _ []); [apply run_start|].
  assert (E : run_stepDownload host_dl pipeline_absent
              = (host_dl, downloadedMsg "" "" (Some "version go1.9 not found")))
    by reflexivity.
  assert (X := exec_stepDownload join_clean host_dl pipeline_absent). rewrite E in X.
  apply (step_cmd join_clean list_Update_still (InstallM pipeline_absent) host_dl
           [spinner_Tick] (stepDownload pipeline_absent) [] host_dl _ _ Quit X);
    [reflexivity|discriminate].
Qed.

Lemma pipeline_reports_witness :
  ∃ s0 w e,
    install_awaits s0 = [w]
    ∧ reports [downloadedMsg "" "" (Some "version go1.9 not found")]
      = (successes s0 ++ [(w, Some e)])%list
    ∧ View (cfg_model config_failed) = error_view e.
Proof.
  destruct (pipeline_reports join_clean list_Update_still _ _ _ _ _ _ _ run_failed)
    as [m [Hm [_ H]]].
  simpl in Hm. injection Hm as <-.
  destruct (H eq_refl) as [s0 [w [e [H1 [H2 [_ H4]]]]]].
  exists s0, w, e. split; [exact H1|]. split; [exact H2|exact H4].
Defined.

Lemma pipeline_terminal_witness :
  ∃ cfg',
    tea_run join_clean list_Update_still config_failed [KeyMsg "x"; TickMsg] cfg'
    ∧ cfg_model cfg' = cfg_model config_failed
    ∧ cfg_host cfg' = host_dl.
Proof.
  assert (R : tea_run join_clean list_Update_still config_failed [KeyMsg "x"; TickMsg]
                (mkConfig (cfg_model config_failed) host_dl [Quit])).
  { eapply (run_more _ _ _ [_]).
    - eapply (run_more _ _ _ []); [apply run_start|].
      apply (step_user join_clean list_Update_still (cfg_model config_failed) host_dl
               [spinner_Tick; Quit] (KeyMsg "x") (cfg_model config_failed) CmdNil I).
      reflexivity.
    - apply (step_cmd join_clean list_Update_still (cfg_model config_failed) host_dl
               [] spinner_Tick [Quit] host_dl TickMsg (cfg_model config_failed) CmdNil).
      + apply exec_Tick.
      + reflexivity.
      + discriminate. }
  eexists. split; [exact R|].
  exact (pipeline_terminal join_clean list_Update_still _ _ _ _ _ _ _ _ _ _
           run_failed eq_refl (or_intror eq_refl) R).
Defined.

Lemma run_stepDownload_lookup_other (h : host) (m : installModel) (p : string) :
  p ≠ archive_of m → fs (run_stepDownload h m).1 !! p = fs h !! p.
Proof.
  unfold archive_of, run_stepDownload.
  destruct (common.FindBuild _ _ _ _) as [[[r file] sha] [e|]]; simpl; intros Hp;
    [reflexivity|].
  rewrite <- (downloadFile_lookup_other h file p Hp).
  destruct (downloadFile h file) as [h' [e|]]; reflexivity.
Qed.

(** [Update] of the pipeline never issues the download step again. *)
Lemma installModel_Update_no_download (m : installModel) (msg : Msg) (m' : installModel) :
  ¬ In (stepDownload m') (atoms (installModel_Update m msg).2).
Proof.
  destruct msg as [key| | |tag|? ? ?|?|? ?|?|? ? e|e|e|e|e]; simpl;
    try (intros []);
    try (destruct e; simpl; intros [H|[]]; discriminate H).
  - destruct (String.eqb key "ctrl+c" || String.eqb key "q"); simpl;
      [intros [H|[]]; discriminate H|intros []].
  - destruct (installState_eqb (i_state m) installStateDone
              || installState_eqb (i_state m) installStateError); simpl;
      [intros []|intros [H|[]]; discriminate H].
Qed.

Section PipelineHost.

Variable filepath_Join : string → string → string.
Variable list_Update : list_Model → Msg → list_Model * option nat.

#[local] Abbreviation exec := (exec filepath_Join).
#[local] Abbreviation tea_step := (tea_step filepath_Join list_Update).
#[local] Abbreviation tea_run := (tea_run filepath_Join list_Update).

(** X21. As long as no verification-success message has been handled, a
    run of the pipeline has changed nothing on the host but the archive
    file it downloads: when verification fails, or the download, the
    earlier installation and every other file are as they were. *)
Theorem pipeline_before_verification (version targetOS targetArch : string)
    (releases : list common.GoRelease) (h0 : host) (evs : list Msg) (cfg : config)
    (p : string) :
  tea_run (start (InstallM (newInstallModel version targetOS targetArch releases)) h0) evs cfg →
  ¬ In (verifiedMsg None) evs →
  p ≠ archive_of (newInstallModel version targetOS targetArch releases) →
  fs (cfg_host cfg) !! p = fs h0 !! p.
Proof.
  set (m0 := newInstallModel version targetOS targetArch releases).
  intros Hrun Hnv Hp.
  assert (G : (∀ m', In (stepDownload m') (cfg_pending cfg) → m' = m0)
              ∧ (¬ In (verifiedMsg None) evs → fs (cfg_host cfg) !! p = fs h0 !! p));
    [|exact (proj2 G Hnv)].
  clear Hnv. induction Hrun as [|evs c msg cmd c' Hrun IH Hstep].
  - split; [|reflexivity]. simpl. intros m' [H|[H|[]]]; [discriminate H|].
    injection H as <-. reflexivity.
  - destruct IH as [Hdl Hfr].
    destruct (pipeline_inv_run filepath_Join list_Update m0 h0 evs c eq_refl Hrun)
      as [m [Hm [Hw [Hv _]]]].
    destruct c as [M hc P]. simpl in *. subst M.
    destruct (install_step_msg filepath_Join list_Update m hc P msg cmd c' Hw Hstep)
      as [_ [_ Hcmd]].
    assert (Hnew : ∀ m', ¬ In (stepDownload m') (atoms cmd)).
    { intros m'. rewrite Hcmd. apply installModel_Update_no_download. }
    inversion Hstep as [M h1 P0 msg0 M' c0 Hu HU|M h1 P1 c0 P2 h' msg0 M' c1 He HU];
      subst; simpl in *.
    + split.
      * intros m' Hin. apply in_app_or in Hin as [Hin|Hin]; [exact (Hdl m' Hin)|].
        exfalso. exact (Hnew m' Hin).
      * intros Hnv. apply Hfr. intros Hin. apply Hnv, in_or_app. left. exact Hin.
    + split.
      * intros m' Hin. apply in_app_or in Hin as [Hin|Hin];
          [apply Hdl, in_or_app; left; exact Hin|].
        apply in_app_or in Hin as [Hin|Hin];
          [apply Hdl, in_or_app; right; right; exact Hin|].
        exfalso. exact (Hnew m' Hin).
      * intros Hnv.
        assert (Hnv' : ¬ In (verifiedMsg None) evs).
        { intros Hin. apply Hnv, in_or_app. left. exact Hin. }
        specialize (Hfr Hnv').
        assert (Hlate : ∀ w, work_of c0 = Some w → after_verify (i_state m) = false →
                             install_awaits (i_state m) = [w]).
        { intros w Hw0 _. destruct (works_singleton P1 P2 c0 _ w Hw) as [Haw _];
            [destruct (i_state m); simpl; lia|exact Hw0|exact Haw]. }
        assert (Hav : after_verify (i_state m) = false).
        { destruct (after_verify (i_state m)) eqn:E; [|reflexivity].
          exfalso. exact (Hnv' (Hv eq_refl)). }
        inversion He; subst; try exact Hfr;
          try (specialize (Hlate _ eq_refl Hav); destruct (i_state m); discriminate).
        assert (m1 = m0) as -> by (apply Hdl, in_or_app; right; left; reflexivity).
        rewrite (run_stepDownload_lookup_other hc m0 p Hp). exact Hfr.
Qed.

End PipelineHost.

Lemma pipeline_before_verification_witness :
  fs (cfg_host config_failed) !! "/usr/local/go/VERSION"
  = fs host_dl !! "/usr/local/go/VERSION".
Proof.
  apply (pipeline_before_verification join_clean list_Update_still _ _ _ _ _ _ _ _ run_failed).
  - intros [H|[]]. discriminate H.
  - discriminate.
Defined.

(* ===================================================================== *)
(** * Further properties of the session *)
(* ===================================================================== *)

Lemma said_yes_mono (evs : list Msg) (msg : Msg) : said_yes evs → said_yes (evs ++ [msg]).
Proof. intros [H|H]; [left|right]; apply in_or_app; left; exact H. Qed.

Lemma deps_satisfied_mono (evs : list Msg) (msg : Msg) :
  deps_satisfied evs → deps_satisfied (evs ++ [msg]).
Proof.
  intros [[d H]|H]; [left; exists d|right]; apply in_or_app; left; exact H.
Qed.

Lemma in_snoc_old {A : Type} (x : A) (l : list A) (y : A) : In x l → In x (l ++ [y]).
Proof. intros H. apply in_or_app. left. exact H. Qed.

Lemma in_snoc_new {A : Type} (l : list A) (y : A) : In y (l ++ [y]).
Proof. apply in_or_app. right. left. reflexivity. Qed.

Lemma model_hist_mono (goos goarch : string) (evs : list Msg) (msg : Msg) (M : Model) :
  model_hist goos goarch evs M → model_hist goos goarch (evs ++ [msg]) M.
Proof.
  destruct M as [m|m]; simpl.
  - intros [H1 [H2 H3]]. split; [exact H1|]. split; [exact H2|].
    destruct (m_state m); try exact I.
    + destruct H3 as [Ha Hb]. split; [exact Ha|apply in_snoc_old, Hb].
    + destruct H3 as [Hy [Ha Hb]].
      split; [apply said_yes_mono, Hy|]. split; [exact Ha|apply in_snoc_old, Hb].
    + apply deps_satisfied_mono, H3.
    + destruct H3 as [Ha Hb]. split; [apply deps_satisfied_mono, Ha|apply in_snoc_old, Hb].
    + destruct H3 as [Ha Hb]. split; [apply deps_satisfied_mono, Ha|apply in_snoc_old, Hb].
  - intros [H1 [H2 [H3 H4]]]. split; [exact H1|]. split; [exact H2|].
    split; [apply deps_satisfied_mono, H3|apply in_snoc_old, H4].
Qed.

Lemma consented_mono (evs : list Msg) (msg : Msg) (c : Cmd) :
  consented evs c → consented (evs ++ [msg]) c.
Proof.
  destruct c; simpl; try (intros; exact I).
  intros [Hy [Ha Hb]]. split; [apply said_yes_mono, Hy|]. split; [exact Ha|apply in_snoc_old, Hb].
Qed.

Section SessionFurther.

#[local] Arguments key_in : simpl never.

Variable filepath_Join : string → string → string.
Variable list_Update : list_Model → Msg → list_Model * option nat.

#[local] Abbreviation exec := (exec filepath_Join).
#[local] Abbreviation tea_step := (tea_step filepath_Join list_Update).
#[local] Abbreviation tea_run := (tea_run filepath_Join list_Update).
#[local] Abbreviation mainModel_Update := (mainModel_Update list_Update).

Lemma main_after_switch_hist (goos goarch : string) (evs : list Msg) (m : mainModel)
    (msg : Msg) (M' : Model) (c : Cmd) :
  model_hist goos goarch evs (MainM m) →
  main_after_switch list_Update m msg = (M', c) →
  model_hist goos goarch evs M' ∧ ∀ c0, In c0 (atoms c) → consented evs c0.
Proof.
  unfold main_after_switch. intros Hh H.
  destruct (mainState_eqb (m_state m) mainStateSelectVersion).
  - destruct (list_Update (m_list m) msg) as [l cmd]. injection H as <- <-.
    split; [exact Hh|]. destruct cmd; simpl; [intros c0 [<-|[]]; exact I|intros c0 []].
  - injection H as <- <-. split; [exact Hh|intros c0 []].
Qed.

Lemma confirm_or_start_hist (goos goarch : string) (evs : list Msg) (h : host) (m : mainModel)
    (M' : Model) (c : Cmd) :
  m_targetOS m = goos → m_targetArch m = goarch →
  deps_satisfied evs → In (fetchedMsg (m_releases m) None) evs →
  confirm_or_start h m = (M', c) →
  model_hist goos goarch evs M' ∧ ∀ c0, In c0 (atoms c) → consented evs c0.
Proof.
  unfold confirm_or_start. intros H1 H2 H3 H4 H.
  destruct (os_Stat_ok h "/usr/local/go"); injection H as <- <-; simpl.
  - split; [auto|intros c0 []].
  - split; [auto|]. intros c0 [<-|[<-|[]]]; exact I.
Qed.

(** The commands at hand are not installations of dependencies. *)
Ltac quiet_cmds :=
  let c0 := fresh "c0" in
  let Hc0 := fresh "Hc0" in
  intros c0 Hc0; simpl in Hc0;
  repeat (destruct Hc0 as [<-|Hc0]; [exact I|]); destruct Hc0.

(** What one turn of [Update] of the orchestrator keeps true. *)
Lemma mainModel_Update_hist (goos goarch : string) (evs : list Msg) (h : host)
    (m : mainModel) (msg : Msg) (M' : Model) (c : Cmd) :
  model_hist goos goarch evs (MainM m) →
  (∀ w, msg_work msg = Some w → main_awaits (m_state m) = [w]) →
  mainModel_Update h m msg = (M', c) →
  model_hist goos goarch (evs ++ [msg]) M'
  ∧ ∀ c0, In c0 (atoms c) → consented (evs ++ [msg]) c0.
Proof.
  intros Hh Hexp H.
  assert (Hh' := model_hist_mono goos goarch evs msg _ Hh).
  assert (Hsw : ∀ msg0, main_after_switch list_Update m msg0 = (M', c) →
                model_hist goos goarch (evs ++ [msg]) M'
                ∧ ∀ c0, In c0 (atoms c) → consented (evs ++ [msg]) c0).
  { intros msg0. apply main_after_switch_hist. exact Hh'. }
  destruct Hh' as [Hos [Harch Hst]].
  destruct msg as [key| | |tag|missing distro e|e|releases e|e|? ? e|e|e|e|e];
    simpl in Hexp, H;
    try (exact (Hsw _ H));
    try (specialize (Hexp _ eq_refl); destruct (m_state m); discriminate Hexp).
  - (* a key *)
    destruct (m_state m) eqn:Hs; try (exact (Hsw _ H)).
    + destruct (key_in key ["y"; "Y"]) eqn:Hk.
      * injection H as <- <-. simpl. destruct Hst as [Hne Hin].
        assert (Hy : said_yes (evs ++ [KeyMsg key])).
        { apply key_in_cases in Hk as [<-|[<-|[]]]; [left|right]; apply in_snoc_new. }
        split; [auto 10|]. intros c0 [<-|[<-|[]]]; simpl; auto.
      * destruct (key_in key ["n"; "N"]); [injection H as <- <-; simpl; split; [auto 10|quiet_cmds]|].
        destruct (key_in key ["q"; "ctrl+c"]); [|exact (Hsw _ H)].
        injection H as <- <-. simpl. rewrite Hs. split; [auto|intros c0 [<-|[]]; exact I].
    + destruct (key_in key ["ctrl+c"; "q"]).
      { injection H as <- <-. simpl. rewrite Hs. split; [auto|intros c0 [<-|[]]; exact I]. }
      destruct (key_in key ["enter"]); [|exact (Hsw _ H)].
      destruct (list_SelectedItem (m_list m)); [|exact (Hsw _ H)].
      destruct Hst as [Hd Hf].
      apply (confirm_or_start_hist goos goarch _ h (set_m_selectedVer m (title i)) M' c
               Hos Harch Hd Hf H).
    + destruct (key_in key ["y"; "Y"]).
      { destruct Hst as [Hd Hf]. injection H as <- <-. simpl.
        split; [auto|]. intros c0 [<-|[<-|[]]]; exact I. }
      destruct (key_in key ["n"; "N"; "q"; "ctrl+c"]); [|exact (Hsw _ H)].
      injection H as <- <-. simpl. rewrite Hs. split; [auto|intros c0 [<-|[]]; exact I].
  - (* a tick *)
    destruct (mainState_eqb (m_state m) mainStateCheckingDeps
              || mainState_eqb (m_state m) mainStateInstallingDeps
              || mainState_eqb (m_state m) mainStateFetching); [|exact (Hsw _ H)].
    injection H as <- <-. simpl. split; [auto|intros c0 [<-|[]]; exact I].
  - (* the dependency check *)
    destruct e as [e|]; [injection H as <- <-; simpl; split; [auto 10|quiet_cmds]|].
    destruct missing as [|dep missing]; simpl in H; injection H as <- <-; simpl.
    + split; [|intros c0 [<-|[<-|[]]]; exact I].
      split; [exact Hos|]. split; [exact Harch|]. left. exists distro. apply in_snoc_new.
    + split; [|intros c0 []].
      split; [exact Hos|]. split; [exact Harch|]. split; [discriminate|apply in_snoc_new].
  - (* the installation of dependencies *)
    destruct e as [e|]; injection H as <- <-; simpl; [split; [auto 10|quiet_cmds]|].
    split; [|intros c0 [<-|[<-|[]]]; exact I].
    split; [exact Hos|]. split; [exact Harch|]. right. apply in_snoc_new.
  - (* the catalog *)
    destruct e as [e|]; [injection H as <- <-; simpl; split; [auto 10|quiet_cmds]|].
    specialize (Hexp _ eq_refl).
    assert (Hs : m_state m = mainStateFetching) by (destruct (m_state m); try discriminate Hexp; reflexivity).
    rewrite Hs in Hst.
    assert (Hpick : show_picker (set_m_releases m releases) = (M', c) →
                    model_hist goos goarch (evs ++ [fetchedMsg releases None]) M'
                    ∧ ∀ c0, In c0 (atoms c) → consented (evs ++ [fetchedMsg releases None]) c0).
    { intros Hp. injection Hp as <- <-. simpl.
      split; [|intros c0 []]. split; [exact Hos|]. split; [exact Harch|].
      split; [exact Hst|apply in_snoc_new]. }
    destruct (negb _); [|exact (Hpick H)].
    destruct (snd _); [exact (Hpick H)|].
    apply (confirm_or_start_hist goos goarch _ h (set_m_releases m releases) M' c
             Hos Harch Hst (in_snoc_new _ _) H).
  - (* installCompleteMsg *)
    destruct e as [e|]; injection H as <- <-; simpl; (split; [auto 10|quiet_cmds]).
Qed.

Lemma installModel_Update_consented (evs : list Msg) (m : installModel) (msg : Msg) (c0 : Cmd) :
  In c0 (atoms (installModel_Update m msg).2) → consented evs c0.
Proof.
  destruct msg as [key| | |tag|? ? ?|?|? ?|?|? ? e|e|e|e|e]; simpl;
    try (intros []);
    try (destruct e; simpl; intros [<-|[]]; exact I).
  - destruct (String.eqb key "ctrl+c" || String.eqb key "q"); simpl;
      [intros [<-|[]]; exact I|intros []].
  - destruct (installState_eqb (i_state m) installStateDone
              || installState_eqb (i_state m) installStateError); simpl;
      [intros []|intros [<-|[]]; exact I].
Qed.

(** What holds all along a session. *)
Lemma session_hist_run (goos goarch version : string) (h0 : host)
    (evs : list Msg) (cfg : config) :
  tea_run (start (MainM (NewMainModel goos goarch version)) h0) evs cfg →
  works (cfg_pending cfg) = awaits (cfg_model cfg)
  ∧ model_hist goos goarch evs (cfg_model cfg)
  ∧ ∀ c0, In c0 (cfg_pending cfg) → consented evs c0.
Proof.
  intros Hrun. induction Hrun as [|evs c msg cmd c' Hrun IH Hstep].
  - split; [reflexivity|]. split; [simpl; auto|].
    simpl. intros c0 [<-|[<-|[]]]; exact I.
  - destruct IH as [Hw [Hh Hp]].
    split; [exact (session_turn filepath_Join list_Update c msg cmd c' Hw Hstep)|].
    destruct c as [M hc P]. destruct M as [m|m]; simpl in Hw, Hp.
    + assert (G : ∀ h1 M' c1 P',
                (∀ w, msg_work msg = Some w → main_awaits (m_state m) = [w]) →
                mainModel_Update h1 m msg = (M', c1) →
                (∀ c0, In c0 P' → In c0 P) →
                model_hist goos goarch (evs ++ [msg]) M'
                ∧ ∀ c0, In c0 (P' ++ atoms c1) → consented (evs ++ [msg]) c0).
      { intros h1 M' c1 P' Hexp HU Hsub.
        destruct (mainModel_Update_hist goos goarch evs h1 m msg M' c1 Hh Hexp HU) as [G1 G2].
        split; [exact G1|]. intros c0 Hin. apply in_app_or in Hin as [Hin|Hin].
        - apply consented_mono, Hp, Hsub, Hin.
        - exact (G2 c0 Hin). }
      inversion Hstep as [M h1 P0 msg0 M' c0 Hu HU|M h1 P1 c0 P2 h' msg0 M' c1 He HU];
        subst; simpl in *.
      * apply (G hc _ _ P); [|exact HU|auto].
        intros w Hw0. rewrite (user_event_no_work msg Hu) in Hw0. discriminate Hw0.
      * rewrite app_assoc. apply (G h' _ _ (P1 ++ P2)%list); [|exact HU|].
        -- assert (Hm := exec_msg filepath_Join _ _ _ _ He).
           destruct (work_of c0) as [w0|] eqn:Hw0.
           ++ destruct (works_singleton P1 P2 c0 _ w0 Hw) as [Haw _];
                [destruct (m_state m); simpl; lia|exact Hw0|].
              intros w Hwm. congruence.
           ++ destruct Hm as [Hq _]. apply quiet_no_work in Hq. intros w Hwm. congruence.
        -- intros c2 Hin. apply in_app_or in Hin as [Hin|Hin]; apply in_or_app;
             [left; exact Hin|right; right; exact Hin].
    + destruct (install_step_msg filepath_Join list_Update m hc P msg cmd c' Hw Hstep)
        as [_ [Hm' Hcmd]].
      rewrite Hm'. simpl in Hh. destruct Hh as [H1 [H2 [H3 H4]]].
      destruct (installModel_Update_params m msg) as [_ [E2 [E3 E4]]].
      split.
      * simpl. rewrite E2, E3, E4.
        split; [exact H1|]. split; [exact H2|].
        split; [apply deps_satisfied_mono, H3|apply in_snoc_old, H4].
      * assert (Hnew : ∀ c0, In c0 (atoms cmd) → consented (evs ++ [msg]) c0).
        { intros c0. rewrite Hcmd. apply installModel_Update_consented. }
        inversion Hstep as [M h1 P0 msg0 M' c0 Hu HU|M h1 P1 c0 P2 h' msg0 M' c1 He HU];
          subst; simpl in *; intros c2 Hin.
        -- apply in_app_or in Hin as [Hin|Hin]; [apply consented_mono, Hp, Hin|exact (Hnew c2 Hin)].
        -- apply in_app_or in Hin as [Hin|Hin];
             [apply consented_mono, Hp, in_or_app; left; exact Hin|].
           apply in_app_or in Hin as [Hin|Hin];
             [apply consented_mono, Hp, in_or_app; right; right; exact Hin|exact (Hnew c2 Hin)].
Qed.

(** X22. In any session, when the loop holds the pipeline, the dependency
    check has been passed before (nothing was missing, or the
    installation of what was missing succeeded), the catalog the pipeline
    works on has been fetched without error, and the pipeline is for the
    os and arch the program runs on. *)
Theorem pipeline_after_preparation (goos goarch version : string) (h0 : host)
    (evs : list Msg) (cfg : config) (m : installModel) :
  tea_run (start (MainM (NewMainModel goos goarch version)) h0) evs cfg →
  cfg_model cfg = InstallM m →
  deps_satisfied evs
  ∧ In (fetchedMsg (i_releases m) None) evs
  ∧ i_targetOS m = goos ∧ i_targetArch m = goarch.
Proof.
  intros Hrun Hm. destruct (session_hist_run _ _ _ _ _ _ Hrun) as [_ [Hh _]].
  rewrite Hm in Hh. simpl in Hh. tauto.
Qed.

(** X23. In any session, a command that installs dependencies is in
    flight only after the user has typed [y] or [Y], and it installs
    exactly the dependencies, not none, that a dependency check has
    reported missing, with the distribution that check detected. *)
Theorem install_needs_consent (goos goarch version : string) (h0 : host)
    (evs : list Msg) (cfg : config) (distro : distroInfo) (deps : list dependency) :
  tea_run (start (MainM (NewMainModel goos goarch version)) h0) evs cfg →
  In (installDependencies distro deps) (cfg_pending cfg) →
  said_yes evs ∧ deps ≠ [] ∧ In (depsCheckMsg deps distro None) evs.
Proof.
  intros Hrun Hin. destruct (session_hist_run _ _ _ _ _ _ Hrun) as [_ [_ Hp]].
  exact (Hp _ Hin).
Qed.

Lemma works_in (P : list Cmd) (c : Cmd) (w : work) :
  In c P → work_of c = Some w → In w (works P).
Proof.
  unfold works. induction P as [|a P IH]; simpl; [contradiction|].
  intros [->|H] Hw.
  - rewrite Hw. left. reflexivity.
  - destruct (work_of a); [right|]; exact (IH H Hw).
Qed.

(** As long as the loop holds the orchestrator and no [y] or [Y] has been
    handled, the units of work in flight are the dependency check and the
    request for the catalog only. *)
Lemma orchestrator_pending (goos goarch version : string) (h0 : host)
    (evs : list Msg) (cfg : config) (m : mainModel) (c : Cmd) :
  tea_run (start (MainM (NewMainModel goos goarch version)) h0) evs cfg →
  cfg_model cfg = MainM m →
  ¬ said_yes evs →
  In c (cfg_pending cfg) →
  work_of c = None ∨ c = checkDependencies ∨ c = fetchReleases.
Proof.
  intros Hrun Hm Hno Hin.
  destruct (session_hist_run _ _ _ _ _ _ Hrun) as [Hw [_ Hp]].
  rewrite Hm in Hw. simpl in Hw.
  destruct (work_of c) as [w|] eqn:Hwc; [|left; reflexivity]. right.
  assert (Hinw := works_in _ _ _ Hin Hwc). rewrite Hw in Hinw.
  specialize (Hp c Hin).
  destruct c; simpl in Hwc; try discriminate Hwc; auto;
    try (exfalso; exact (Hno (proj1 Hp)));
    injection Hwc as <-; destruct (m_state m); simpl in Hinw;
    repeat (destruct Hinw as [Hinw|Hinw]; [discriminate Hinw|]); contradiction.
Qed.

(** X24. In any session, as long as the loop holds the orchestrator and no
    [y] or [Y] has been handled, nothing has been written: the host is as
    it was at the start, and the only units of work in flight are the
    dependency check and the request for the catalog, which leave the
    host as it is. The package manager and the pipeline, which write, are
    started by a later turn. *)
Theorem orchestrator_host (goos goarch version : string) (h0 : host)
    (evs : list Msg) (cfg : config) (m : mainModel) :
  tea_run (start (MainM (NewMainModel goos goarch version)) h0) evs cfg →
  cfg_model cfg = MainM m →
  ¬ said_yes evs →
  cfg_host cfg = h0
  ∧ (∀ c, In c (cfg_pending cfg) →
          work_of c = None ∨ c = checkDependencies ∨ c = fetchReleases)
  ∧ (∀ c h h' msg, In c (cfg_pending cfg) → exec h c h' msg → h' = h).
Proof.
  intros Hrun Hm Hno.
  assert (Hpend : ∀ c, In c (cfg_pending cfg) →
                       work_of c = None ∨ c = checkDependencies ∨ c = fetchReleases).
  { intros c. exact (orchestrator_pending _ _ _ _ _ _ _ c Hrun Hm Hno). }
  assert (Hquiet : ∀ c h h' msg,
            work_of c = None ∨ c = checkDependencies ∨ c = fetchReleases →
            exec h c h' msg → h' = h).
  { intros c h h' msg Hc He.
    destruct Hc as [Hc|[->| ->]]; [|inversion He; reflexivity|inversion He; reflexivity].
    assert (Hx := exec_msg filepath_Join _ _ _ _ He). rewrite Hc in Hx. apply Hx. }
  split; [|split; [exact Hpend|]].
  2:{ intros c h h' msg Hin. apply Hquiet, Hpend, Hin. }
  clear Hpend. revert m Hm Hno.
  induction Hrun as [|evs c msg cmd c' Hrun IH Hstep]; intros m' Hm' Hno; [reflexivity|].
  destruct (session_hist_run _ _ _ _ _ _ Hrun) as [Hw _].
  assert (Hno' : ¬ said_yes evs).
  { intros [H|H]; apply Hno; [left|right]; apply in_snoc_old, H. }
  destruct c as [M hc P]. destruct M as [m|m].
  2:{ destruct (install_step_msg filepath_Join list_Update m hc P msg cmd c' Hw Hstep)
        as [_ [Hmi _]]. rewrite Hmi in Hm'. discriminate Hm'. }
  assert (Hhost := IH m eq_refl Hno'). simpl in Hhost. subst hc.
  assert (Hpend := λ c0, orchestrator_pending _ _ _ _ _ _ m c0 Hrun eq_refl Hno').
  inversion Hstep as [M h1 P0 msg0 M' c0 Hu HU|M h1 P1 c0 P2 h' msg0 M' c1 He HU Hnq];
    subst; simpl in *; [reflexivity|].
  apply (Hquiet c0 h0 h' msg); [|exact He].
  apply Hpend, in_or_app. right. left. reflexivity.
Qed.

End SessionFurther.

(** The session in which Git is missing and the user agrees to install
    it. *)
Lemma run_consent :
  tea_run join_clean list_Update_still
    (start (MainM (NewMainModel "linux" "amd64" "1.22.1")) host_dl)
    [depsCheckMsg [dep_git] distro_debian None; KeyMsg "y"] config_consent.
Proof.
  eapply (run_more _ _ _ [_]).
  - eapply (run_more _ _ _ []); [apply run_start|].
    apply (step_cmd join_clean list_Update_still
             (MainM (NewMainModel "linux" "amd64" "1.22.1")) host_dl
             [spinner_Tick] checkDependencies [] host_dl
             (depsCheckMsg [dep_git] distro_debian None) (MainM asking_example) CmdNil).
    + apply exec_checkDependencies.
    + reflexivity.
    + discriminate.
  - apply (step_user join_clean list_Update_still (MainM asking_example) host_dl
             [spinner_Tick] (KeyMsg "y")
             (MainM (set_m_state asking_example mainStateInstallingDeps))
             (Batch spinner_Tick (installDependencies distro_debian [dep_git])) I).
    reflexivity.
Qed.

(** The session in which nothing is missing and the version given on the
    command line has an archive, on a host with no earlier installation. *)
Lemma run_handover :
  tea_run join_clean list_Update_still
    (start (MainM (NewMainModel "linux" "amd64" "1.22.1")) host_abc)
    [depsCheckMsg [] distro_debian None; fetchedMsg catalog_example None] config_handover.
Proof.
  eapply (run_more _ _ _ [_]).
  - eapply (run_more _ _ _ []); [apply run_start|].
    apply (step_cmd join_clean list_Update_still
             (MainM (NewMainModel "linux" "amd64" "1.22.1")) host_abc
             [spinner_Tick] checkDependencies [] host_abc
             (depsCheckMsg [] distro_debian None)
             (MainM (set_m_state
                       (set_m_distro (NewMainModel "linux" "amd64" "1.22.1") distro_debian)
                       mainStateFetching))
             (Batch spinner_Tick fetchReleases)).
    + apply exec_checkDependencies.
    + reflexivity.
    + discriminate.
  - apply (step_cmd join_clean list_Update_still
             (MainM (set_m_state
                       (set_m_distro (NewMainModel "linux" "amd64" "1.22.1") distro_debian)
                       mainStateFetching)) host_abc
             [spinner_Tick; spinner_Tick] fetchReleases [] host_abc
             (fetchedMsg catalog_example None) (InstallM pipeline_example)
             (installModel_Init pipeline_example)).
    + apply exec_fetchReleases.
    + reflexivity.
    + discriminate.
Qed.

Lemma pipeline_after_preparation_witness :
  deps_satisfied [depsCheckMsg [] distro_debian None; fetchedMsg catalog_example None]
  ∧ In (fetchedMsg catalog_example None)
       [depsCheckMsg [] distro_debian None; fetchedMsg catalog_example None].
Proof.
  destruct (pipeline_after_preparation join_clean list_Update_still _ _ _ _ _ _
              pipeline_example run_handover eq_refl) as [H1 [H2 _]].
  split; assumption.
Defined.

Lemma install_needs_consent_witness :
  said_yes [depsCheckMsg [dep_git] distro_debian None; KeyMsg "y"]
  ∧ In (depsCheckMsg [dep_git] distro_debian None)
       [depsCheckMsg [dep_git] distro_debian None; KeyMsg "y"].
Proof.
  destruct (install_needs_consent join_clean list_Update_still _ _ _ _ _ _
              distro_debian [dep_git] run_consent) as [H1 [_ H3]].
  - right. right. left. reflexivity.
  - split; assumption.
Defined.

(** The session in which Git is missing, when the question is asked. *)
Lemma run_asking :
  tea_run join_clean list_Update_still
    (start (MainM (NewMainModel "linux" "amd64" "1.22.1")) host_dl)
    [depsCheckMsg [dep_git] distro_debian None]
    (mkConfig (MainM asking_example) host_dl [spinner_Tick]).
Proof.
  eapply (run_more _ _ _ []); [apply run_start|].
  apply (step_cmd join_clean list_Update_still
           (MainM (NewMainModel "linux" "amd64" "1.22.1")) host_dl
           [spinner_Tick] checkDependencies [] host_dl
           (depsCheckMsg [dep_git] distro_debian None) (MainM asking_example) CmdNil).
  - apply exec_checkDependencies.
  - reflexivity.
  - discriminate.
Qed.

Lemma orchestrator_host_witness :
  ¬ said_yes [depsCheckMsg [dep_git] distro_debian None]
  ∧ cfg_host (mkConfig (MainM asking_example) host_dl [spinner_Tick]) = host_dl.
Proof.
  assert (Hno : ¬ said_yes [depsCheckMsg [dep_git] distro_debian None]).
  { intros [[H|[]]|[H|[]]]; discriminate H. }
  split; [exact Hno|].
  exact (proj1 (orchestrator_host join_clean list_Update_still _ _ _ _ _ _
                  asking_example run_asking eq_refl Hno)).
Defined.

(* ===================================================================== *)
(** * Properties of the version picker *)
(* ===================================================================== *)

Lemma release_items_titles_from (i : nat) (releases : list common.GoRelease) :
  map title (release_items i releases) = map common.Version releases.
Proof.
  revert i. induction releases as [|r releases IH]; intros i; simpl; [reflexivity|].
  rewrite IH. reflexivity.
Qed.

Lemma release_items_desc_from (i k : nat) (releases : list common.GoRelease) (it : item) :
  nth_error (release_items i releases) k = Some it →
  desc it = if (i + k =? 0)%nat then "Latest stable release" else "Go release".
Proof.
  revert i k. induction releases as [|r releases IH]; intros i k H.
  - destruct k; discriminate H.
  - destruct k as [|k]; simpl in H.
    + injection H as <-. simpl. rewrite Nat.add_0_r. reflexivity.
    + rewrite (IH (S i) k H). replace (i + S k)%nat with (S i + k)%nat by lia. reflexivity.
Qed.

(** X25. The picker the orchestrator builds from a fetched catalog lists
    the versions of the catalog, all of them and in published order; the
    first item is labelled as the latest stable release and every other
    one as a Go release. *)
Theorem release_items_catalog (releases : list common.GoRelease) :
  map title (release_items 0 releases) = map common.Version releases
  ∧ (∀ k it, nth_error (release_items 0 releases) k = Some it →
             desc it = if (k =? 0)%nat then "Latest stable release" else "Go release")
  ∧ (∀ list_Update h m,
       m_selectedVer m = "" →
       ∃ m', mainModel_Update list_Update h m (fetchedMsg releases None) = (MainM m', CmdNil)
             ∧ m_state m' = mainStateSelectVersion
             ∧ list_items (m_list m') = release_items 0 releases
             ∧ list_index (m_list m') = 0%nat).
Proof.
  split; [apply release_items_titles_from|]. split.
  - intros k it H. exact (release_items_desc_from 0 k releases it H).
  - intros list_Update h m Hv. simpl. rewrite Hv. simpl.
    eexists. split; [reflexivity|]. repeat split.
Qed.

Lemma release_items_catalog_witness :
  map title (release_items 0 catalog_example) = map common.Version catalog_example
  ∧ ∃ m', mainModel_Update list_Update_still host_dl (fetching "") (fetchedMsg catalog_example None)
          = (MainM m', CmdNil)
          ∧ m_state m' = mainStateSelectVersion.
Proof.
  destruct (release_items_catalog catalog_example) as [H1 [_ H3]].
  split; [exact H1|].
  destruct (H3 list_Update_still host_dl (fetching "") eq_refl) as [m' [E [Hs _]]].
  exists m'. split; assumption.
Defined.

Lemma FindBuild_version_present (all : list common.GoRelease) (ver goos arch : string) :
  In ver (map common.Version all) →
  snd (common.FindBuild all ver goos arch) = None
  ∨ snd (common.FindBuild all ver goos arch) = Some (common.err_no_archive ver goos arch).
Proof.
  induction all as [|r all IH]; simpl; intros H; [contradiction|].
  destruct (String.eqb_spec (common.Version r) ver) as [E|NE]; simpl.
  - destruct (common.first_archive (common.Files r) goos arch); simpl; auto.
  - destruct H as [H|H]; [contradiction|exact (IH H)].
Qed.

(** X26. A version chosen in a picker whose items are among those built
    from the catalog is a version of the catalog. So when the user
    presses enter on an item, the version the orchestrator settles on can
    fail build selection only for want of an archive for the platform,
    never as a version that is not found. *)
Theorem picked_version_in_catalog (m : mainModel) (i : item) (goos goarch : string) :
  incl (list_items (m_list m)) (release_items 0 (m_releases m)) →
  list_SelectedItem (m_list m) = Some i →
  In (title i) (map common.Version (m_releases m))
  ∧ snd (common.FindBuild (m_releases m) (title i) goos goarch)
    ≠ Some (common.err_not_found (title i))
  ∧ (∀ list_Update h,
       m_state m = mainStateSelectVersion →
       ∃ M' c, mainModel_Update list_Update h m (KeyMsg "enter") = (M', c)
               ∧ match M' with
                 | MainM m' =>
                     m_state m' = mainStateConfirmOverride ∧ m_selectedVer m' = title i
                 | InstallM mi => i_version mi = title i ∧ i_releases mi = m_releases m
                 end).
Proof.
  intros Hitems Hsel.
  assert (Hin : In (title i) (map common.Version (m_releases m))).
  { rewrite <- (release_items_titles_from 0). apply in_map, Hitems.
    unfold list_SelectedItem in Hsel. exact (nth_error_In _ _ Hsel). }
  split; [exact Hin|]. split.
  - destruct (FindBuild_version_present (m_releases m) (title i) goos goarch Hin) as [E|E];
      rewrite E; [discriminate|].
    intros H.
    assert (H' : common.err_not_found (title i)
                 = common.err_no_archive (title i) goos goarch) by congruence.
    exact (FindBuild_errors_distinct _ _ _ H').
  - intros list_Update h Hs. simpl. rewrite Hs. simpl. rewrite Hsel.
    unfold confirm_or_start. destruct (os_Stat_ok h "/usr/local/go").
    + eexists _, _. split; [reflexivity|]. split; reflexivity.
    + eexists _, _. split; [reflexivity|]. split; reflexivity.
Qed.

Lemma picked_version_in_catalog_witness :
  In "go1.21.0" (map common.Version catalog_example)
  ∧ snd (common.FindBuild catalog_example "go1.21.0" "linux" "amd64")
    ≠ Some (common.err_not_found "go1.21.0").
Proof.
  destruct (picked_version_in_catalog
              (set_m_list (set_m_releases (fetching "") catalog_example)
                 (mkList (release_items 0 catalog_example) 1 "Select Go Version" false true))
              (mkItem "go1.21.0" "Go release") "linux" "amd64" (incl_refl _) eq_refl)
    as [H1 [H2 _]].
  split; assumption.
Defined.
